(** * Lynx Hot Update: resolver, delta packaging and client agent

    A shallow embedding of the three core pieces of the repository:

    - the update-check endpoint of the server ([routes['POST /api/check-update']],
      [findApplicableRelease], [findDiffPackage], the PATCH route);
    - the file-level delta engine ([scanDirectory], [generateDiff],
      [createDiffPackage], [applyDiffPackage]);
    - the Android client agent ([init], [applyPendingUpdate], [installUpdate],
      [downloadUpdate], [checkAutoRollback], [rollbackToPreviousVersion],
      [clearUpdates], ...).

    Definitions come first, grouped in one module per source file; the
    theorems about them follow. *)

From Stdlib Require Import Ascii String QArith Qround Qabs Qpower Lqa.
From stdpp Require Import gmap strings list fin_maps.

Local Open Scope string_scope.
Local Open Scope Z_scope.

(** File contents and network payloads are byte strings. *)
Abbreviation Bytes := string.

(* ===================================================================== *)
(** * JavaScript values                                                   *)
(* ===================================================================== *)

Module Js.

(** [if (s)] for a value that is a string or [undefined]: the empty string
    and [undefined] are falsy. *)
Definition truthy_string (o : option string) : bool :=
  match o with
  | Some s => negb (String.eqb s "")
  | None => false
  end.

(** [if (b)] for a value that is a boolean or [undefined]. *)
Definition truthy_bool (o : option bool) : bool :=
  match o with
  | Some b => b
  | None => false
  end.

(** The values an object used as a path-to-hash table can give back for
    [obj[key]]: [undefined], a string stored by the program, or a member
    inherited from [Object.prototype] (a function or an object). *)
Inductive Val :=
| Undefined
| Str (s : string)
| Inherited.

Definition truthy (v : Val) : bool :=
  match v with
  | Undefined => false
  | Str s => negb (String.eqb s "")
  | Inherited => true
  end.

(** [v !== s] for a string [s]. *)
Definition strict_ne (v : Val) (s : string) : bool :=
  match v with
  | Str s' => negb (String.eqb s' s)
  | _ => true
  end.

(** The property names every object literal [{}] inherits. *)
Definition object_prototype_members : list string :=
  [ "constructor"; "hasOwnProperty"; "isPrototypeOf"; "propertyIsEnumerable";
    "toLocaleString"; "toString"; "valueOf"; "__proto__";
    "__defineGetter__"; "__defineSetter__";
    "__lookupGetter__"; "__lookupSetter__" ].

End Js.

(* ===================================================================== *)
(** * JavaScript numbers                                                  *)
(* ===================================================================== *)

(** A [Number] is an IEEE 754 binary64 value; the finite ones are rationals.
    Every arithmetic operation gives the binary64 value nearest to the exact
    result, the one with an even last digit when two are equally near.  The
    numbers met here are file sizes (whole numbers below [2 ^ 53] are
    binary64 values), draws and percentages, far from the largest binary64
    value, so infinities do not come up. *)
Module Double.

(** The integer nearest to [x], the even one of two that are equally near. *)
Definition nearest_even (x : Q) : Z :=
  let f := Qfloor x in
  match (x - inject_Z f ?= 1 # 2)%Q with
  | Lt => f
  | Gt => f + 1
  | Eq => if Z.even f then f else f + 1
  end.

(** The integer part of the binary logarithm of [x], for [0 < x]. *)
Definition ilog2 (x : Q) : Z :=
  let k := Z.log2 (Qnum x) - Z.log2 (Zpos (Qden x)) in
  if Qle_bool (2 ^ k) x then k else k - 1.

(** The exponent of the last binary digit kept for [x]: 53 digits, and no
    digit below [2 ^ -1074]. *)
Definition ulp_exponent (x : Q) : Z :=
  Z.max (-1074) (ilog2 (Qabs x) - 52).

(** The binary64 value nearest to [x]. *)
Definition round (x : Q) : Q :=
  let x := Qred x in
  if Qeq_bool x 0 then 0%Q
  else
    let e := ulp_exponent x in
    Qred (inject_Z (nearest_even (x / 2 ^ e)) * 2 ^ e).

Definition mul (x y : Q) : Q := round (x * y).
Definition div (x y : Q) : Q := round (x / y).
Definition sub (x y : Q) : Q := round (x - y).

End Double.

(* ===================================================================== *)
(** * The [semver] package                                                *)
(* ===================================================================== *)

(** The server calls three functions of the npm package [semver].  The
    package is not part of the repository, so the resolver is written over
    this interface; general statements hold for every implementation. *)
Class SemverLib := {
  semver_valid : string -> bool;               (* semver.valid(v) !== null *)
  semver_gt : string -> string -> bool;        (* semver.gt(a, b) *)
  semver_satisfies : string -> string -> bool  (* semver.satisfies(v, range) *)
}.

(** A concrete instance for the fragment used in the worked examples: plain
    [MAJOR.MINOR.PATCH] versions (no pre-release or build suffix) and ranges
    made of one comparator. *)
Module PlainSemver.

Definition is_digit (c : ascii) : bool :=
  let n := nat_of_ascii c in (48 <=? n)%nat && (n <=? 57)%nat.

Fixpoint all_digits (s : string) : bool :=
  match s with
  | EmptyString => true
  | String c s' => is_digit c && all_digits s'
  end.

Fixpoint digits_value (acc : N) (s : string) : N :=
  match s with
  | EmptyString => acc
  | String c s' => digits_value (acc * 10 + N.of_nat (nat_of_ascii c - 48))%N s'
  end.

(** A numeric identifier: digits only, non-empty, no leading zero. *)
Definition numeric_id (s : string) : option N :=
  match s with
  | EmptyString => None
  | String c rest =>
      if all_digits s && (negb (Ascii.eqb c "0"%char) || String.eqb rest "")
      then Some (digits_value 0%N s)
      else None
  end.

(** Split at every ['.']. *)
Fixpoint split_dots (cur : string) (s : string) : list string :=
  match s with
  | EmptyString => [cur]
  | String c s' =>
      if Ascii.eqb c "."%char then cur :: split_dots "" s'
      else split_dots (cur ++ String c "") s'
  end.

Definition parse (v : string) : option (N * N * N) :=
  match split_dots "" v with
  | [a; b; c] =>
      match numeric_id a, numeric_id b, numeric_id c with
      | Some x, Some y, Some z => Some (x, y, z)
      | _, _, _ => None
      end
  | _ => None
  end.

Definition compare3 (a b : N * N * N) : comparison :=
  let '(a1, a2, a3) := a in
  let '(b1, b2, b3) := b in
  match N.compare a1 b1 with
  | Eq => match N.compare a2 b2 with
          | Eq => N.compare a3 b3
          | c => c
          end
  | c => c
  end.

Definition valid (v : string) : bool :=
  match parse v with Some _ => true | None => false end.

Definition gt (a b : string) : bool :=
  match parse a, parse b with
  | Some x, Some y => match compare3 x y with Gt => true | _ => false end
  | _, _ => false
  end.

Definition strip (pre s : string) : option string :=
  if String.prefix pre s
  then Some (String.substring (String.length pre)
                              (String.length s - String.length pre) s)
  else None.

Definition cmp_is (c c' : comparison) : bool :=
  match c, c' with
  | Eq, Eq | Lt, Lt | Gt, Gt => true
  | _, _ => false
  end.

Definition test (v : string) (ok : comparison -> bool) (bound : string) : bool :=
  match parse v, parse bound with
  | Some x, Some y => ok (compare3 x y)
  | _, _ => false
  end.

(** One comparator: [>=v], [<=v], [>v], [<v], [=v] or [v]. *)
Definition satisfies (v range : string) : bool :=
  match strip ">=" range with
  | Some b => test v (fun c => negb (cmp_is c Lt)) b
  | None =>
  match strip "<=" range with
  | Some b => test v (fun c => negb (cmp_is c Gt)) b
  | None =>
  match strip ">" range with
  | Some b => test v (fun c => cmp_is c Gt) b
  | None =>
  match strip "<" range with
  | Some b => test v (fun c => cmp_is c Lt) b
  | None =>
  match strip "=" range with
  | Some b => test v (fun c => cmp_is c Eq) b
  | None => test v (fun c => cmp_is c Eq) range
  end end end end end.

Definition lib : SemverLib :=
  {| semver_valid := valid; semver_gt := gt; semver_satisfies := satisfies |}.

End PlainSemver.

(* ===================================================================== *)
(** * SHA-256                                                             *)
(* ===================================================================== *)

(** [crypto.createHash('sha256') ... digest('hex')] on the server and in the
    tools, [MessageDigest.getInstance("SHA-256")] printed with [%02x] in the
    client.  The digest function itself is outside the repository; all the
    code relies on is that it is a function of the bytes and that a digest
    is printed as 64 hexadecimal characters. *)
Class Sha256 := {
  sha256_hex : Bytes -> string;
  sha256_hex_length : forall b, String.length (sha256_hex b) = 64%nat
}.

(* ===================================================================== *)
(** * The update server                                                   *)
(* ===================================================================== *)

Module Server.

(** A release record, as stored by [POST /api/releases]; [disabled],
    [targetBinaryVersion] and [updatedAt] may be missing from a stored
    record ([undefined]). *)
Record Release := mkRelease {
  version : string;
  platform : string;
  filename : string;
  hash : string;
  size : Z;
  description : string;
  mandatory : bool;
  rollout : Z;
  targetBinaryVersion : option string;
  disabled : option bool;
  createdAt : string;
  deploymentKey : string;
  updatedAt : option string
}.

(** [DATA_DIR]: [releases/<name>.json] holds a list of releases, newest
    first; [packages/<name>] holds package bytes.  ([stats.json] is left
    out: no statement below reads it.) *)
Record Data := mkData {
  releases : gmap string (list Release);
  packages : gmap string Bytes
}.

Definition releasesFile (deploymentKey platform : string) : string :=
  deploymentKey ++ "-" ++ platform ++ ".json".

Definition getReleasesForKey (d : Data) (deploymentKey platform : string)
  : list Release :=
  match releases d !! releasesFile deploymentKey platform with
  | Some rs => rs
  | None => []
  end.

(** [releases.unshift(release)] *)
Definition saveRelease (d : Data) (deploymentKey platform : string)
  (release : Release) : Data :=
  mkData (<[releasesFile deploymentKey platform :=
              release :: getReleasesForKey d deploymentKey platform]>
            (releases d))
         (packages d).

Section Resolver.
Context {semver : SemverLib}.

(** The three tests of the loop body of [findApplicableRelease]; [true]
    means [continue]. *)
Definition is_current (release : Release) (currentVersion : string) : bool :=
  String.eqb (version release) currentVersion.

Definition not_newer (release : Release) (currentVersion : string) : bool :=
  if semver_valid (version release) && semver_valid currentVersion
  then negb (semver_gt (version release) currentVersion)
  else false.

Definition binary_mismatch (release : Release) (appVersion : option string)
  : bool :=
  match targetBinaryVersion release, appVersion with
  | Some range, Some app =>
      if Js.truthy_string (Some range) && negb (String.eqb range "*")
         && Js.truthy_string (Some app)
      then negb (semver_satisfies app range)
      else false
  | _, _ => false
  end.

Fixpoint findApplicableRelease (releases : list Release)
  (currentVersion : string) (appVersion : option string) : option Release :=
  match releases with
  | [] => None
  | release :: rest =>
      if is_current release currentVersion
      then findApplicableRelease rest currentVersion appVersion
      else if not_newer release currentVersion
      then findApplicableRelease rest currentVersion appVersion
      else if binary_mismatch release appVersion
      then findApplicableRelease rest currentVersion appVersion
      else Some release
  end.

(** The two version tests of the scan, as one predicate on a release. *)
Definition version_admits (currentVersion : string) (r : Release) : bool :=
  negb (is_current r currentVersion) && negb (not_newer r currentVersion).

End Resolver.

(** ** [POST /api/check-update] *)

Record CheckRequest := mkCheckRequest {
  header_deployment_key : option string;   (* x-deployment-key *)
  header_host : string;
  currentVersion : string;
  req_platform : string;
  appVersion : option string
}.

Record UpdateInfo := mkUpdateInfo {
  u_version : string;
  u_downloadUrl : string;
  u_hash : string;
  u_size : Z;
  u_description : string;
  u_mandatory : bool;
  u_isDiff : bool
}.

Inductive CheckResponse :=
| MissingDeploymentKey                     (* 401 *)
| NoUpdate                                 (* { updateAvailable: false } *)
| UpdateAvailable (info : UpdateInfo).     (* { updateAvailable: true, ... } *)

Record DiffPackage := mkDiffPackage {
  dp_filename : string;
  dp_size : Z;
  dp_hash : string
}.

Definition findDiffPackage {sha : Sha256} (d : Data)
  (deploymentKey platform fromVersion toVersion : string)
  : option DiffPackage :=
  let diffFilename :=
    deploymentKey ++ "-" ++ platform ++ "-diff-" ++ fromVersion
      ++ "-to-" ++ toVersion ++ ".zip" in
  match packages d !! diffFilename with
  | Some bytes =>
      Some (mkDiffPackage diffFilename
              (Z.of_nat (String.length bytes)) (sha256_hex bytes))
  | None => None
  end.

Definition downloadUrl (host file : string) : string :=
  "http://" ++ host ++ "/api/download/" ++ file.

(** [Math.random() * 100 < rollout], with [random] the value returned by
    [Math.random()]; the product is a [Number]. *)
Definition shouldReceive (random : Q) (rollout : Z) : bool :=
  match Qlt_le_dec (Double.mul random 100) (inject_Z rollout) with
  | left _ => true
  | right _ => false
  end.

(** The handler.  [random] is the value [Math.random()] returns if it is
    called. *)
Definition check_update {semver : SemverLib} {sha : Sha256}
  (d : Data) (random : Q) (req : CheckRequest) : CheckResponse :=
  match header_deployment_key req with
  | Some key =>
    if negb (Js.truthy_string (Some key)) then MissingDeploymentKey else
    let releases := getReleasesForKey d key (req_platform req) in
    match releases with
    | [] => NoUpdate
    | _ =>
      match findApplicableRelease releases (currentVersion req)
              (appVersion req) with
      | None => NoUpdate
      | Some latestRelease =>
          if (rollout latestRelease <? 100)
             && negb (shouldReceive random (rollout latestRelease))
          then NoUpdate
          else if Js.truthy_bool (disabled latestRelease)
          then NoUpdate
          else
            match findDiffPackage d key (req_platform req)
                    (currentVersion req) (version latestRelease) with
            | Some diffPackage =>
                UpdateAvailable
                  (mkUpdateInfo (version latestRelease)
                     (downloadUrl (header_host req) (dp_filename diffPackage))
                     (dp_hash diffPackage) (dp_size diffPackage)
                     (description latestRelease) (mandatory latestRelease)
                     true)
            | None =>
                UpdateAvailable
                  (mkUpdateInfo (version latestRelease)
                     (downloadUrl (header_host req) (filename latestRelease))
                     (hash latestRelease) (size latestRelease)
                     (description latestRelease) (mandatory latestRelease)
                     false)
            end
      end
    end
  | None => MissingDeploymentKey
  end.

(** ** [PATCH /api/releases/:deploymentKey/:platform/:version] *)

Record PatchBody := mkPatchBody {
  patch_disabled : option bool;
  patch_rollout : option Z;
  patch_mandatory : option bool
}.

Definition apply_patch (body : PatchBody) (now : string) (r : Release)
  : Release :=
  mkRelease (version r) (platform r) (filename r) (hash r) (size r)
    (description r)
    (match patch_mandatory body with Some m => m | None => mandatory r end)
    (match patch_rollout body with Some p => p | None => rollout r end)
    (targetBinaryVersion r)
    (match patch_disabled body with Some b => Some b | None => disabled r end)
    (createdAt r) (deploymentKey r) (Some now).

(** [releases.find(r => r.version === params.version)] followed by the
    in-place edit of the record found: the first match is replaced. *)
Fixpoint patch_first (v : string) (f : Release -> Release)
  (rs : list Release) : option (Release * list Release) :=
  match rs with
  | [] => None
  | r :: rest =>
      if String.eqb (version r) v then Some (f r, f r :: rest)
      else match patch_first v f rest with
           | Some (r', rest') => Some (r', r :: rest')
           | None => None
           end
  end.

Inductive PatchResponse :=
| ReleaseNotFound        (* 404, no releases file *)
| VersionNotFound        (* 404, no such version *)
| Patched (release : Release).

Definition patch_release (d : Data) (deploymentKey platform v : string)
  (body : PatchBody) (now : string) : PatchResponse * Data :=
  match releases d !! releasesFile deploymentKey platform with
  | None => (ReleaseNotFound, d)
  | Some rs =>
      match patch_first v (apply_patch body now) rs with
      | None => (VersionNotFound, d)
      | Some (r', rs') =>
          (Patched r',
           mkData (<[releasesFile deploymentKey platform := rs']> (releases d))
                  (packages d))
      end
  end.

End Server.

(* ===================================================================== *)
(** * The delta packaging engine                                          *)
(* ===================================================================== *)

Module Delta.

(** A file below a directory is found through a list of names: the
    directories on the way and the file itself.  The keys of the tools are
    strings with ['/'] between their pieces, kept as the list of the
    pieces; both are lists of strings. *)
Abbreviation Path := (list string).

(** A directory on disk: the regular files below it with their contents, and
    the directories below it (so that empty directories are represented). *)
Record Tree := mkTree {
  files : gmap Path Bytes;
  dirs : gset Path
}.

(** The non-empty proper prefixes of a path: the directories a file at that
    path lies in, below the root. *)
Fixpoint parents (p : Path) : list Path :=
  match p with
  | [] => []
  | x :: p' =>
      match p' with
      | [] => []
      | _ :: _ => [x] :: (cons x <$> parents p')
      end
  end.

(** What a directory tree looks like: files and directories have non-empty
    paths, lie in directories, and no path is both. *)
Definition wf (t : Tree) : Prop :=
  map_Forall (fun p _ => p <> [] /\ (p ∉ dirs t)
                         /\ Forall (fun q => q ∈ dirs t) (parents p))
             (files t)
  /\ set_Forall (fun d => d <> []
                          /\ Forall (fun q => q ∈ dirs t) (parents d))
                (dirs t).

#[global] Instance wf_dec t : Decision (wf t).
Proof. unfold wf. apply _. Defined.

(** ** Names and keys

    [scan] enters a file under the key
    [path.join(basePath, entry.name).replace(/\\/g, '/')], where [basePath]
    is the key made in the same way for the directory the file is in.  A
    key is kept here as the list of its pieces between the ['/']. *)

Definition backslash : ascii := ascii_of_nat 92.

(** The pieces of a name between its backslashes: what the replace turns
    into segments of the key. *)
Fixpoint cut (name : string) : list string :=
  match name with
  | EmptyString => [EmptyString]
  | String c rest =>
      if Ascii.eqb c backslash then EmptyString :: cut rest
      else
        match cut rest with
        | piece :: pieces => String c piece :: pieces
        | [] => [String c EmptyString]
        end
  end.

(** [path.normalize] on the segments of a relative path: empty segments
    and [.] are dropped, [..] takes back the segment before it, or stays
    when there is none to take back.  [kept] holds the segments kept so
    far, the last one first. *)
Fixpoint normalize_onto (kept segments : list string) : list string :=
  match segments with
  | [] => rev kept
  | s :: rest =>
      if bool_decide (s = "" \/ s = ".") then normalize_onto kept rest
      else if bool_decide (s = "..") then
        match kept with
        | top :: below =>
            if bool_decide (top = "..") then normalize_onto (s :: kept) rest
            else normalize_onto below rest
        | [] => normalize_onto [s] rest
        end
      else normalize_onto (s :: kept) rest
  end.

Definition normalize (p : Path) : Path := normalize_onto [] p.

(** The key [scan(currentDir, basePath)] gives the file reached from
    [currentDir] through [names]. *)
Fixpoint relativePath (basePath names : Path) : Path :=
  match names with
  | [] => basePath
  | name :: rest =>
      relativePath (normalize (basePath ++ [name]) ≫= cut) rest
  end.

(** A name as a directory listing gives it, free of backslashes: the
    replace leaves it as it is. *)
Definition ordinary (name : string) : Prop :=
  name <> "" /\ name <> "." /\ name <> ".." /\ cut name = [name].

#[global] Instance ordinary_dec name : Decision (ordinary name).
Proof. unfold ordinary. apply _. Defined.

(** Every file of the tree is reached through ordinary names: none has a
    backslash in its name or in the name of a directory it lies in. *)
Definition ordinary_names (t : Tree) : Prop :=
  map_Forall (fun p _ => p <> [] /\ Forall ordinary p) (files t).

#[global] Instance ordinary_names_dec t : Decision (ordinary_names t).
Proof. unfold ordinary_names. apply _. Defined.

(** A key that [path.join(dir, key)] leaves as it is: the path of that
    name below [dir].  The model follows the file operations on such keys
    only; another key can name [dir] itself or a path outside it. *)
Definition canonical (k : Path) : Prop :=
  k <> [] /\ Forall (fun s => s <> "" /\ s <> "." /\ s <> "..") k.

#[global] Instance canonical_dec k : Decision (canonical k).
Proof. unfold canonical. apply _. Defined.

(** [fs.stat(path.join(dir, key))] *)
Inductive Stat :=
| RegularFile (content : Bytes)
| Directory
| NoEntry          (* the call throws ENOENT *)
| NotFollowed.     (* the key is not canonical *)

Definition stat (dir : Tree) (k : Path) : Stat :=
  if decide (canonical k) then
    match files dir !! k with
    | Some content => RegularFile content
    | None => if decide (k ∈ dirs dir) then Directory else NoEntry
    end
  else NotFollowed.

(** ** Path-to-hash tables

    [const files = {}] and then [files[relativePath] = hash]: the table is a
    plain object, so reads also see [Object.prototype], and an assignment
    to the key [__proto__] stores nothing. *)
Abbreviation Table := (gmap Path string).

Definition table_get (o : Table) (k : Path) : Js.Val :=
  match o !! k with
  | Some s => Js.Str s
  | None =>
      match k with
      | [name] =>
          if bool_decide (name ∈ Js.object_prototype_members)
          then Js.Inherited else Js.Undefined
      | _ => Js.Undefined
      end
  end.

Definition table_set (o : Table) (k : Path) (v : string) : Table :=
  if bool_decide (k = ["__proto__"]) then o else <[k := v]> o.

Inductive Change := Added | Modified | Unchanged.

#[global] Instance Change_eq_dec : EqDecision Change.
Proof. solve_decision. Defined.

Record Diff := mkDiff {
  added : list Path;
  modified : list Path;
  deleted : list Path;
  unchanged : list Path
}.

(** ** The package *)

Record Manifest := mkManifest {
  m_type : string;
  m_added : list Path;
  m_modified : list Path;
  m_deleted : list Path;
  m_timestamp : string
}.

Definition manifest_name : Path := ["diff-manifest.json"].

(** An archive entry: the manifest [createDiffPackage] appends as JSON text
    under the name [diff-manifest.json], or a file stored under a name with
    its bytes. *)
Inductive Entry :=
| ManifestEntry (m : Manifest)
| FileEntry (name : Path) (data : Bytes).

Definition entryName (e : Entry) : Path :=
  match e with
  | ManifestEntry _ => manifest_name
  | FileEntry name _ => name
  end.

Abbreviation Zip := (list Entry).

Section Engine.
Context {sha : Sha256}.

Definition calculateFileHash (content : Bytes) : string := sha256_hex content.

(** Every regular file below [dir] is hashed and entered in the table
    under its key.  When two files have the same key, the one visited last
    stays; the order of the visit is that of the directory listings, for
    which the order of the fold stands.  (A [Tree] is a directory that
    exists; the guard [fs.pathExists(dir)] is then true.) *)
Definition scanDirectory (dir : Tree) : Table :=
  map_fold (fun p content acc =>
              table_set acc (relativePath [] p) (calculateFileHash content))
           ∅ (files dir).

(** The three branches of the first loop of [generateDiff]. *)
Definition classify (oldFiles : Table) (relativePath : Path)
  (newHash : string) : Change :=
  if negb (Js.truthy (table_get oldFiles relativePath)) then Added
  else if Js.strict_ne (table_get oldFiles relativePath) newHash then Modified
  else Unchanged.

(** The first loop sorts the entries of [newFiles] into three lists by
    [classify]; the second collects the keys of [oldFiles] for which
    [newFiles[relativePath]] is falsy.  The lists come in the order in which
    the tables are enumerated; no statement below depends on that order. *)
Definition generateDiff (oldDir newDir : Tree) : Diff :=
  let oldFiles := scanDirectory oldDir in
  let newFiles := scanDirectory newDir in
  let pick c :=
    fst <$> filter (fun e => classify oldFiles e.1 e.2 = c)
                   (map_to_list newFiles) in
  mkDiff (pick Added) (pick Modified)
    (filter (fun p => Js.truthy (table_get newFiles p) = false)
            (fst <$> map_to_list oldFiles))
    (pick Unchanged).

(** [stats.size] for a key that is a regular file of [dir]; the other
    keys count 0 here, and [createDiffPackage_outcome] below says what the
    call does with them. *)
Definition file_size (dir : Tree) (k : Path) : Z :=
  match stat dir k with
  | RegularFile b => Z.of_nat (String.length b)
  | _ => 0
  end.

Definition sumZ (l : list Z) : Z := foldr Z.add 0 l.

(** [Math.round(x)]: the integer nearest to the [Number] [x], the larger
    one of two that are equally near. *)
Definition round (x : Q) : Z := Qfloor (x + (1 # 2))%Q.

(** [fullSize > 0 ? Math.round((1 - diffSize / fullSize) * 100) : 0]: a
    division, a subtraction and a multiplication of [Number]s. *)
Definition savedPercentOf (fullSize diffSize : Z) : Z :=
  if 0 <? fullSize
  then round (Double.mul
                (Double.sub 1 (Double.div (inject_Z diffSize) (inject_Z fullSize)))
                100)
  else 0.

Record PackageInfo := mkPackageInfo {
  diff : Diff;
  fullSize : Z;
  diffSize : Z;
  savedBytes : Z;
  savedPercent : Z
}.

Definition in_diff (d : Diff) (p : Path) : bool :=
  bool_decide (p ∈ added d) || bool_decide (p ∈ modified d).

(** [archive.file(path.join(newDir, relativePath), { name: relativePath })]
    for a key that is a regular file of [newDir]; the archive library is
    taken to store the entry under the name it is given. *)
Definition archive_file (newDir : Tree) (k : Path) : Zip :=
  match stat newDir k with
  | RegularFile b => [FileEntry k b]
  | _ => []
  end.

(** The statistics returned and the archive written to [outputPath]
    ([packageSize], the compressed size, is left out), when every key of
    [newFiles] is a regular file of [newDir]. *)
Definition createDiffPackage (oldDir newDir : Tree) (timestamp : string)
  : PackageInfo * Zip :=
  let d := generateDiff oldDir newDir in
  let keys := fst <$> map_to_list (scanDirectory newDir) in
  let full := sumZ (file_size newDir <$> keys) in
  let delta := sumZ (file_size newDir <$> filter (fun p => in_diff d p = true) keys) in
  let manifest := mkManifest "diff" (added d) (modified d) (deleted d) timestamp in
  (mkPackageInfo d full delta (full - delta) (savedPercentOf full delta),
   ManifestEntry manifest
     :: flat_map (archive_file newDir) (added d ++ modified d)).

(** What a call of [createDiffPackage] comes to.  [fs.stat] is called on
    every key of [newFiles]: the promise is rejected when one of them names
    nothing; when all of them are regular files the package is built.  The
    remaining cases (a key that is not canonical, or that names a
    directory) are not followed. *)
Inductive Build :=
| Built (info : PackageInfo) (zip : Zip)
| Rejected (k : Path)
| Unfollowed (k : Path).

Definition missing (dir : Tree) (k : Path) : bool :=
  match stat dir k with NoEntry => true | _ => false end.

Definition unreadable (dir : Tree) (k : Path) : bool :=
  match stat dir k with RegularFile _ => false | _ => true end.

Definition createDiffPackage_outcome (oldDir newDir : Tree)
  (timestamp : string) : Build :=
  let keys := fst <$> map_to_list (scanDirectory newDir) in
  match List.find (missing newDir) keys with
  | Some k => Rejected k
  | None =>
      match List.find (unreadable newDir) keys with
      | Some k => Unfollowed k
      | None =>
          let '(info, zip) := createDiffPackage oldDir newDir timestamp in
          Built info zip
      end
  end.

End Engine.

(** ** Applying a package *)

(** [zip.getEntry(name)]: the archive reader keeps a name-to-entry table
    filled in archive order, so the last entry of a name is the one found. *)
Definition getEntry (zip : Zip) (name : Path) : option Entry :=
  last (filter (fun e => entryName e = name) zip).

(** [fs.remove]: the file, or the directory with all below it. *)
Definition remove (t : Tree) (p : Path) : Tree :=
  mkTree (filter (fun e => ¬ p `prefix_of` e.1) (files t))
         (filter (fun d => ¬ p `prefix_of` d) (dirs t)).

(** [fs.ensureDir(path.dirname(outputPath))]: fails when a file is in the
    way. *)
Definition ensureDir_parent (t : Tree) (p : Path) : option Tree :=
  if bool_decide (Exists (fun q => is_Some (files t !! q)) (parents p))
  then None
  else Some (mkTree (files t) (dirs t ∪ list_to_set (parents p))).

(** [fs.writeFile(outputPath, data)]: fails on a directory. *)
Definition writeFile (t : Tree) (p : Path) (b : Bytes) : option Tree :=
  if bool_decide (p = [] \/ p ∈ dirs t)
  then None
  else Some (mkTree (<[p := b]> (files t)) (dirs t)).

Inductive ApplyError :=
| MissingManifest      (* 'Invalid diff package: missing manifest' *)
| ManifestSyntaxError  (* JSON.parse throws *)
| WriteError (p : Path)
| PathNotFollowed (p : Path).   (* not an error: a key that is not canonical *)

Inductive ApplyResult :=
| Applied (output : Tree) (manifest : Manifest)
| Failed (e : ApplyError).

(** The first loop of [applyDiffPackage]: the paths listed as deleted are
    removed. *)
Fixpoint remove_deleted (t : Tree) (ks : list Path) : Tree + ApplyError :=
  match ks with
  | [] => inl t
  | k :: rest =>
      if decide (canonical k) then remove_deleted (remove t k) rest
      else inr (PathNotFollowed k)
  end.

(** The second loop of [applyDiffPackage]: every entry not named like the
    manifest is written out. *)
Fixpoint extract (t : Tree) (entries : Zip) : Tree + ApplyError :=
  match entries with
  | [] => inl t
  | ManifestEntry _ :: rest => extract t rest
  | FileEntry name data :: rest =>
      if bool_decide (name = manifest_name) then extract t rest
      else if decide (canonical name) then
        match ensureDir_parent t name with
        | None => inr (WriteError name)
        | Some t1 =>
            match writeFile t1 name data with
            | None => inr (WriteError name)
            | Some t2 => extract t2 rest
            end
        end
      else inr (PathNotFollowed name)
  end.

(** [parse_raw] is [JSON.parse] on the bytes of a file entry.  [outputDir]
    is taken to be fresh, so that after [fs.copy] it holds what
    [currentDir] holds. *)
Definition applyDiffPackage (parse_raw : Bytes -> option Manifest)
  (currentDir : Tree) (zip : Zip) : ApplyResult :=
  let output := currentDir in
  match getEntry zip manifest_name with
  | None => Failed MissingManifest
  | Some manifestEntry =>
      match match manifestEntry with
            | ManifestEntry m => Some m
            | FileEntry _ data => parse_raw data
            end with
      | None => Failed ManifestSyntaxError
      | Some manifest =>
          match remove_deleted output (m_deleted manifest) with
          | inr e => Failed e
          | inl output1 =>
              match extract output1 zip with
              | inl output2 => Applied output2 manifest
              | inr e => Failed e
              end
          end
      end
  end.

(** ** Reconstruction, as a property of two trees *)

Section Reconstruction.
Context {sha : Sha256}.

(** Paths that do not read as a member of [Object.prototype]. *)
Definition plain (p : Path) : Prop :=
  match p with
  | [name] => name ∉ Js.object_prototype_members
  | _ => True
  end.

#[global] Instance plain_dec p : Decision (plain p).
Proof. destruct p as [|n [|]]; simpl; apply _. Defined.

Definition plain_tree (t : Tree) : Prop :=
  map_Forall (fun p _ => plain p) (files t).

(** What the plain-object tables ask of the two trees.  No table ever
    holds the key [__proto__], so a top-level file of that name has to be
    the same in both trees, or in neither; and a top-level file of [oldDir]
    named like another member of [Object.prototype] is never listed as
    deleted, so it has to be a file of [newDir] too. *)
Definition prototype_safe (oldDir newDir : Tree) : Prop :=
  sha256_hex <$> files oldDir !! ["__proto__"]
  = sha256_hex <$> files newDir !! ["__proto__"]
  /\ Forall (fun name => is_Some (files oldDir !! [name]) ->
                         is_Some (files newDir !! [name]))
            Js.object_prototype_members.

(** The file of [newDir] named like the manifest, if there is one, has the
    content hash it has in [oldDir]: the package does not ship it. *)
Definition manifest_name_unchanged (oldDir newDir : Tree) : Prop :=
  files newDir !! manifest_name = None
  \/ sha256_hex <$> files oldDir !! manifest_name
     = sha256_hex <$> files newDir !! manifest_name.

(** No file of [newDir] sits where [oldDir] has a directory. *)
Definition no_file_over_dir (oldDir newDir : Tree) : Prop :=
  map_Forall (fun p _ => p ∉ dirs oldDir) (files newDir).

(** Same file paths, same content hashes. *)
Definition content_identical (a b : Tree) : Prop :=
  sha256_hex <$> files a = sha256_hex <$> files b.

(** Applying the package built from [oldDir] and [newDir] onto [oldDir]
    succeeds and gives a tree content-identical to [newDir]. *)
Definition reconstructs (parse_raw : Bytes -> option Manifest)
  (oldDir newDir : Tree) (timestamp : string) : Prop :=
  exists info zip output manifest,
    createDiffPackage_outcome oldDir newDir timestamp = Built info zip
    /\ applyDiffPackage parse_raw oldDir zip = Applied output manifest
    /\ content_identical output newDir.

End Reconstruction.

End Delta.

(* ===================================================================== *)
(** * The Android client agent                                            *)
(* ===================================================================== *)

Module Client.

(** A [SharedPreferences] value. *)
Inductive PrefValue :=
| PString (s : string)
| PBoolean (b : bool)
| PInt (n : Z).

(** The files a bundle directory holds, as extracted from a package. *)
Abbreviation Dir := (list (string * Bytes)).

(** What the agent keeps on the device: the preferences file, the three
    bundle directories under [filesDir], the download cache, and the install
    reports posted to the server so far (status, version). *)
Record Install := mkInstall {
  prefs : gmap string PrefValue;
  lynx_bundles : option Dir;
  lynx_pending : option Dir;
  lynx_bundles_backup : option Dir;
  cache : gmap string Bytes;
  reports : list (string * string)
}.

Definition KEY_CURRENT_VERSION : string := "current_version".
Definition KEY_PENDING_VERSION : string := "pending_version".
Definition KEY_PREVIOUS_VERSION : string := "previous_version".

Definition confirmed_key (v : string) : string := v ++ "_confirmed".
Definition launches_key (v : string) : string := v ++ "_launches".

(** [prefs.getString(key, null)].  (A value stored at another type raises
    [ClassCastException] on Android; every key is written at one type only,
    so the case is folded into "absent".) *)
Definition getString (p : gmap string PrefValue) (key : string)
  : option string :=
  match p !! key with
  | Some (PString s) => Some s
  | _ => None
  end.

Definition getBoolean (p : gmap string PrefValue) (key : string)
  (default : bool) : bool :=
  match p !! key with
  | Some (PBoolean b) => b
  | _ => default
  end.

Definition getInt (p : gmap string PrefValue) (key : string) (default : Z)
  : Z :=
  match p !! key with
  | Some (PInt n) => n
  | _ => default
  end.

Definition with_prefs (st : Install) (p : gmap string PrefValue) : Install :=
  mkInstall p (lynx_bundles st) (lynx_pending st) (lynx_bundles_backup st)
    (cache st) (reports st).

Definition with_cache (st : Install) (c : gmap string Bytes) : Install :=
  mkInstall (prefs st) (lynx_bundles st) (lynx_pending st)
    (lynx_bundles_backup st) c (reports st).

(** ** Bundle lookup *)

Definition getCurrentVersion (st : Install) : string :=
  match getString (prefs st) KEY_CURRENT_VERSION with
  | Some v => v
  | None => "0.0.0"
  end.

(** [File(File(filesDir, "lynx_bundles"), bundleName).exists()]: when
    false the bundle shipped in the assets is loaded. *)
Definition shouldLoadFromFile (st : Install) (bundleName : string) : bool :=
  match lynx_bundles st with
  | Some d => bool_decide (bundleName ∈ d.*1)
  | None => false
  end.

(** ** Applying a pending update *)

(** [bundleDir.deleteRecursively()] *)
Definition delete_bundles (st : Install) : Install :=
  mkInstall (prefs st) None (lynx_pending st) (lynx_bundles_backup st)
    (cache st) (reports st).

(** [pendingDir.deleteRecursively()] *)
Definition delete_pending (st : Install) : Install :=
  mkInstall (prefs st) (lynx_bundles st) None (lynx_bundles_backup st)
    (cache st) (reports st).

(** [File.renameTo] moves a directory onto a path that is free or an empty
    directory, and otherwise leaves both in place (it returns [false], which
    the callers ignore). *)
Definition rename_ok (src dst : option Dir) : bool :=
  match src, dst with
  | Some _, None => true
  | Some _, Some [] => true
  | _, _ => false
  end.

(** [pendingDir.renameTo(bundleDir)] *)
Definition rename_pending_to_bundles (st : Install) : Install :=
  if rename_ok (lynx_pending st) (lynx_bundles st)
  then mkInstall (prefs st) (lynx_pending st) None (lynx_bundles_backup st)
         (cache st) (reports st)
  else st.

(** [prefs.edit().putString(KEY_CURRENT_VERSION, pendingVersion)
      .remove(KEY_PENDING_VERSION).apply()] *)
Definition commit_applied (pendingVersion : string) (st : Install) : Install :=
  with_prefs st
    (delete KEY_PENDING_VERSION
       (<[KEY_CURRENT_VERSION := PString pendingVersion]> (prefs st))).

(** [deleteRecursively] deletes the files one after the other and the
    directory last. *)
Definition delete_bundle_file (name : string) (st : Install) : Install :=
  mkInstall (prefs st)
    (filter (fun e => e.1 <> name) <$> lynx_bundles st)
    (lynx_pending st) (lynx_bundles_backup st) (cache st) (reports st).

Definition delete_bundles_steps (st : Install) : list (Install -> Install) :=
  (delete_bundle_file <$> (default [] (lynx_bundles st)).*1)
    ++ [delete_bundles].

(** The body of the [try] block of [applyPendingUpdate], one effect on the
    device after the other. *)
Definition apply_steps (pendingVersion : string) (st : Install)
  : list (Install -> Install) :=
  delete_bundles_steps st
    ++ [ rename_pending_to_bundles; commit_applied pendingVersion ].

Definition run (steps : list (Install -> Install)) (st : Install) : Install :=
  foldl (fun s step => step s) st steps.

Definition applyPendingUpdate (st : Install) : Install :=
  match getString (prefs st) KEY_PENDING_VERSION with
  | None => st
  | Some pendingVersion =>
      match lynx_pending st with
      | None => st
      | Some _ => run (apply_steps pendingVersion st) st
      end
  end.

(** The states in which the device is left when the process is killed
    during [applyPendingUpdate]: before the first effect, and after each of
    them (after the last one the call is complete). *)
Definition applyPendingUpdate_states (st : Install) : list Install :=
  match getString (prefs st) KEY_PENDING_VERSION with
  | None => [st]
  | Some pendingVersion =>
      match lynx_pending st with
      | None => [st]
      | Some _ =>
          (fun n => run (take n (apply_steps pendingVersion st)) st)
            <$> seq 0 (S (length (apply_steps pendingVersion st)))
      end
  end.

(** [init]: the configuration fields are stored and the pending update is
    applied. *)
Definition init (st : Install) : Install := applyPendingUpdate st.

(** ** Rollback and confirmation *)

(** [reportInstallStatus]: fire and forget. *)
Definition reportInstallStatus (status version : string) (st : Install)
  : Install :=
  mkInstall (prefs st) (lynx_bundles st) (lynx_pending st)
    (lynx_bundles_backup st) (cache st) (reports st ++ [(status, version)]).

Definition rollbackToPreviousVersion (st : Install) : Install :=
  match getString (prefs st) KEY_PREVIOUS_VERSION with
  | None => st
  | Some previousVersion =>
      match lynx_bundles_backup st with
      | None => st
      | Some _ =>
          (* currentBundleDir.deleteRecursively();
             previousBundleDir.renameTo(currentBundleDir) *)
          let st1 :=
            mkInstall (prefs st) (lynx_bundles_backup st) (lynx_pending st)
              None (cache st) (reports st) in
          with_prefs st1
            (delete KEY_PREVIOUS_VERSION
               (<[KEY_CURRENT_VERSION := PString previousVersion]> (prefs st1)))
      end
  end.

Definition notifyUpdateSuccess (st : Install) : Install :=
  match getString (prefs st) KEY_CURRENT_VERSION with
  | None => st
  | Some currentVersion =>
      reportInstallStatus "success" currentVersion
        (with_prefs st
           (<[confirmed_key currentVersion := PBoolean true]> (prefs st)))
  end.

Definition notifyUpdateFailed (st : Install) : Install :=
  match getString (prefs st) KEY_CURRENT_VERSION with
  | None => st
  | Some currentVersion =>
      rollbackToPreviousVersion (reportInstallStatus "failure" currentVersion st)
  end.

(** [Int] arithmetic wraps around. *)
Definition int32 (z : Z) : Z := (z + 2 ^ 31) mod 2 ^ 32 - 2 ^ 31.

(** A private function of the agent; no function of the agent calls it. *)
Definition checkAutoRollback (st : Install) : Install :=
  match getString (prefs st) KEY_CURRENT_VERSION with
  | None => st
  | Some currentVersion =>
      let isConfirmed :=
        getBoolean (prefs st) (confirmed_key currentVersion) false in
      match getString (prefs st) KEY_PREVIOUS_VERSION with
      | Some _ =>
          if negb isConfirmed then
            let launchCount :=
              int32 (getInt (prefs st) (launches_key currentVersion) 0 + 1) in
            let st1 :=
              with_prefs st
                (<[launches_key currentVersion := PInt launchCount]> (prefs st)) in
            if 3 <=? launchCount then rollbackToPreviousVersion st1 else st1
          else st
      | None => st
      end
  end.

(** [clearUpdates] *)
Definition clearUpdates (st : Install) : Install :=
  with_prefs (delete_pending (delete_bundles st)) ∅.

(** ** Download and staging *)

Record UpdateResult := mkUpdateResult {
  updateAvailable : bool;
  version : option string;
  downloadUrl : option string;
  hash : option string;
  size : Z;
  description : string;
  mandatory : bool;
  error : option string
}.

(** What the HTTP transfer did: the whole body arrived, or an exception
    ended it with some (or no) bytes already in the temporary file. *)
Inductive Transfer :=
| Completed (body : Bytes)
| Aborted (written : option Bytes).

(** The five ways [downloadUpdate] calls [onComplete]. *)
Inductive Outcome :=
| NoUpdateAvailable          (* (false, "No update available") *)
| HashVerificationFailed     (* (false, "Hash verification failed") *)
| InstallationFailed         (* (false, "Installation failed") *)
| DownloadError              (* (false, e.message) *)
| Installed.                 (* (true, null) *)

Section Download.
Context {sha : Sha256}.
(** [unzip(zipFile, destDir)]: the files written into [destDir], and whether
    the archive was read to its end without an exception. *)
Variable unzip : Bytes -> Dir * bool.

Definition calculateHash (file : Bytes) : string := sha256_hex file.

Definition installUpdate (zipFile : Bytes) (version : string) (st : Install)
  : bool * Install :=
  let '(extracted, ok) := unzip zipFile in
  let st1 :=
    mkInstall (prefs st) (lynx_bundles st) (Some extracted)
      (lynx_bundles_backup st) (cache st) (reports st) in
  if ok
  then (true, with_prefs st1 (<[KEY_PENDING_VERSION := PString version]> (prefs st1)))
  else (false, st1).

Definition tempFile (r : UpdateResult) : string :=
  "update_" ++ match version r with Some v => v | None => "null" end ++ ".zip".

Definition downloadUpdate (updateResult : UpdateResult) (transfer : Transfer)
  (st : Install) : Outcome * Install :=
  if negb (updateAvailable updateResult)
     || match downloadUrl updateResult with None => true | Some _ => false end
  then (NoUpdateAvailable, st)
  else
    match transfer with
    | Aborted None => (DownloadError, st)
    | Aborted (Some partial) =>
        (DownloadError,
         with_cache st (<[tempFile updateResult := partial]> (cache st)))
    | Completed body =>
        let st1 := with_cache st (<[tempFile updateResult := body]> (cache st)) in
        let fileHash := calculateHash body in
        let mismatch :=
          match hash updateResult with
          | Some expected => negb (String.eqb fileHash expected)
          | None => false
          end in
        if mismatch
        then (HashVerificationFailed,
              with_cache st1 (delete (tempFile updateResult) (cache st1)))
        else
          match version updateResult with
          | None => (DownloadError, st1)   (* [version!!] throws *)
          | Some v =>
              let '(success, st2) := installUpdate body v st1 in
              (if success then Installed else InstallationFailed,
               with_cache st2 (delete (tempFile updateResult) (cache st2)))
          end
    end.

End Download.

End Client.

(* ===================================================================== *)
(** * A stand-in digest for worked examples                               *)
(* ===================================================================== *)

(** Not a cryptographic hash: the first 64 characters of the content,
    padded with ['0'].  It only serves to run the definitions on small
    inputs. *)
Module ToySha.

Fixpoint pad (n : nat) (s : string) : string :=
  match n with
  | O => ""
  | S n' =>
      match s with
      | EmptyString => String "0"%char (pad n' "")
      | String c s' => String c (pad n' s')
      end
  end.

Fixpoint pad_length (n : nat) (s : string) : String.length (pad n s) = n :=
  match n with
  | O => eq_refl
  | S n' =>
      match s with
      | EmptyString => f_equal S (pad_length n' "")
      | String _ s' => f_equal S (pad_length n' s')
      end
  end.

Definition sha : Sha256 :=
  {| sha256_hex := pad 64; sha256_hex_length := pad_length 64 |}.

End ToySha.

(* ===================================================================== *)
(** * Worked examples: the data                                           *)
(* ===================================================================== *)

Module Scenario.
Import Server.

(** The scope of the worked example: 2.0.0 (enabled) was published after
    1.5.0 (no [disabled] field). *)
Definition r200 : Release :=
  mkRelease "2.0.0" "android" "app-android-2.0.0-2.zip" "h200" 2048
    "second" false 100 (Some "*") (Some false) "t2" "key" None.

Definition r150 : Release :=
  mkRelease "1.5.0" "android" "app-android-1.5.0-1.zip" "h150" 1024
    "first" false 100 (Some "*") None "t1" "key" None.

Definition scope : Data :=
  mkData {[ releasesFile "key" "android" := [r200; r150] ]} ∅.

Definition request : CheckRequest :=
  mkCheckRequest (Some "key") "updates.example" "1.0.0" "android" None.

Definition disable : PatchBody := mkPatchBody (Some true) None None.

Definition patched_scope : Data :=
  (patch_release scope "key" "android" "2.0.0" disable "t3").2.

(** A release aimed at host binaries from 3.0.0 on. *)
Definition targeted : Release :=
  mkRelease "2.0.0" "android" "app-android-2.0.0-2.zip" "h200" 2048
    "" false 100 (Some ">=3.0.0") (Some false) "t2" "key" None.

(** A release that is published but rolled out to nobody. *)
Definition closed : Release :=
  mkRelease "2.0.0" "android" "app-android-2.0.0-2.zip" "h200" 2048
    "" false 0 (Some "*") (Some false) "t2" "key" None.

Definition closed_scope : Data :=
  mkData {[ releasesFile "key" "android" := [closed] ]} ∅.

Definition targeted_scope : Data :=
  mkData {[ releasesFile "key" "android" := [targeted] ]} ∅.

End Scenario.

Module Device.
Import Client.

Definition old_bundle : Dir := [("main.lynx.bundle", "bundle 1.0.0")].
Definition new_bundle : Dir := [("main.lynx.bundle", "bundle 2.0.0")].

(** 2.0.0 is running and was never confirmed; 1.0.0 is recorded as the
    previous version and its bundle is in the backup directory. *)
Definition unconfirmed : Install :=
  mkInstall
    {[ KEY_CURRENT_VERSION := PString "2.0.0";
       KEY_PREVIOUS_VERSION := PString "1.0.0" ]}
    (Some new_bundle) None (Some old_bundle) ∅ [].

(** 1.0.0 is running and 2.0.0 has been staged. *)
Definition staged : Install :=
  mkInstall
    {[ KEY_CURRENT_VERSION := PString "1.0.0";
       KEY_PENDING_VERSION := PString "2.0.0" ]}
    (Some old_bundle) (Some new_bundle) None ∅ [].

(** An archive reader for the examples: the package is the bundle file. *)
Definition unzip_bundle (zip : Bytes) : Dir * bool :=
  ([("main.lynx.bundle", zip)], true).

Definition offer (h : option string) : UpdateResult :=
  mkUpdateResult true (Some "2.0.0")
    (Some "http://updates.example/api/download/app-android-2.0.0-2.zip")
    h 12 "" false None.

Definition fresh : Install :=
  mkInstall {[ KEY_CURRENT_VERSION := PString "1.0.0" ]}
    (Some old_bundle) None None ∅ [].

End Device.

Module Trees.
Import Delta.

(** The directory tree that holds exactly the listed files. *)
Definition tree_of (l : list (Path * Bytes)) : Tree :=
  mkTree (list_to_map l) (list_to_set (flat_map (fun e => parents e.1) l)).

(** One file of one byte. *)
Definition one_file : Tree := tree_of [(["a"], "x")].

(** The two trees of the example of the specification. *)
Definition v1 : Tree := tree_of [(["a"], "h1"); (["b"], "h2")].
Definition v2 : Tree := tree_of [(["a"], "h1"); (["b"], "h3"); (["c"], "h4")].

(** The new version ships a file called like the manifest. *)
Definition v2_with_manifest : Tree :=
  tree_of [(["a"], "h1"); (["diff-manifest.json"], "x")].

End Trees.

(* ===================================================================== *)
(** * The publish route of the server                                     *)
(* ===================================================================== *)

Module Publish.
Import Server.

(** One part of the multipart body, as [parseMultipart] returns it. *)
Record Part := mkPart {
  part_name : option string;
  part_filename : option string;
  part_data : Bytes
}.

(** [metadata[part.name] = ...] on the object literal [metadata]: the key
    [__proto__] stores nothing. *)
Definition metadata_set (m : gmap string string) (k v : string)
  : gmap string string :=
  if bool_decide (k = "__proto__") then m else <[k := v]> m.

(** What the loop over the parts has collected. *)
Record Form := mkForm {
  metadata : gmap string string;
  fileData : option Bytes;
  form_filename : option string
}.

Definition read_part (f : Form) (part : Part) : Form :=
  if Js.truthy_string (part_filename part)
  then mkForm (metadata f) (Some (part_data part)) (part_filename part)
  else
    match part_name part with
    | Some name =>
        if Js.truthy_string (Some name)
        then mkForm (metadata_set (metadata f) name (part_data part))
               (fileData f) (form_filename f)
        else f
    | None => f
    end.

Definition read_parts (parts : list Part) : Form :=
  foldl read_part (mkForm ∅ None None) parts.

(** A field as a template literal prints it. *)
Definition show (field : option string) : string :=
  match field with
  | Some s => s
  | None => "undefined"
  end.

(** [field || fallback] for a string field. *)
Definition or_else (field : option string) (fallback : string) : string :=
  match field with
  | Some s => if String.eqb s "" then fallback else s
  | None => fallback
  end.

Inductive Response :=
| MissingAuthentication       (* 401 *)
| NoFileUploaded              (* 400 *)
| Published (release : Release)
| Incomplete.                 (* see [publish] *)

Section Route.
(** [parseInt] on a string; [None] is [NaN]. *)
Variable parseInt : string -> option Z.

(** [parseInt(metadata.rollout) || 100]: a missing field reads as
    [parseInt(undefined)], which is [NaN]; [NaN] and 0 are falsy. *)
Definition stored_rollout (field : option string) : Z :=
  match match field with
        | Some s => parseInt s
        | None => None
        end with
  | Some 0 => 100
  | Some n => n
  | None => 100
  end.

(** The handler, from the parsed parts on.  [now_ms] is [Date.now()] and
    [now_iso] is [new Date().toISOString()].  When the form has no
    [version], [platform] or [hash] field the record the server stores lacks
    a field of [Release]; the package is written all the same, and that case
    is not followed further ([Incomplete]). *)
Definition publish (d : Data) (deploymentKey appKey : option string)
  (parts : list Part) (now_ms now_iso : string) : Response * Data :=
  if negb (Js.truthy_string deploymentKey) || negb (Js.truthy_string appKey)
  then (MissingAuthentication, d)
  else
    let form := read_parts parts in
    match fileData form with
    | None => (NoFileUploaded, d)
    | Some data =>
        let field k := metadata form !! k in
        let savedFilename :=
          show appKey ++ "-" ++ show (field "platform") ++ "-"
            ++ show (field "version") ++ "-" ++ now_ms ++ ".zip" in
        let d1 := mkData (releases d) (<[savedFilename := data]> (packages d)) in
        match field "version", field "platform", field "hash" with
        | Some v, Some p, Some h =>
            let release :=
              mkRelease v p savedFilename h (Z.of_nat (String.length data))
                (or_else (field "description") "")
                (match field "mandatory" with
                 | Some m => String.eqb m "true"
                 | None => false
                 end)
                (stored_rollout (field "rollout"))
                (Some (or_else (field "targetBinaryVersion") "*"))
                (Some false) now_iso (show deploymentKey) None in
            (Published release, saveRelease d1 (show deploymentKey) p release)
        | _, _, _ => (Incomplete, d1)
        end
    end.

End Route.

End Publish.

(* ===================================================================== *)
(** * The update check of the Android client                              *)
(* ===================================================================== *)

Module Pipeline.

(** The request [checkForUpdate] posts: the recorded current version (or
    [0.0.0]), the platform, and no [appVersion]. *)
Definition check_request (deploymentKey host : string) (st : Client.Install)
  : Server.CheckRequest :=
  Server.mkCheckRequest (Some deploymentKey) host
    (Client.getCurrentVersion st) "android" None.

(** What comes back: an answer of the server, or an exception with its
    message. *)
Inductive Reply :=
| Answered (response : Server.CheckResponse)
| NetworkFailure (message : option string).

(** The [UpdateResult] handed to the callback. *)
Definition checkForUpdate_result (reply : Reply) : Client.UpdateResult :=
  match reply with
  | Answered (Server.UpdateAvailable info) =>
      Client.mkUpdateResult true
        (Some (Server.u_version info)) (Some (Server.u_downloadUrl info))
        (Some (Server.u_hash info)) (Server.u_size info)
        (Server.u_description info) (Server.u_mandatory info) None
  | Answered Server.NoUpdate =>
      Client.mkUpdateResult false None None None 0 "" false None
  | Answered Server.MissingDeploymentKey =>
      Client.mkUpdateResult false None None None 0 "" false
        (Some "Server error: 401")
  | NetworkFailure message =>
      Client.mkUpdateResult false None None None 0 "" false message
  end.

End Pipeline.

(* ===================================================================== *)
(** * Auxiliary notions for the statements                                *)
(* ===================================================================== *)

(** The last character of a string. *)
Fixpoint last_char (s : string) : option ascii :=
  match s with
  | EmptyString => None
  | String c EmptyString => Some c
  | String _ rest => last_char rest
  end.


(** ** Further example data *)

Module Upload.
Import Publish.

(** The form the command-line tool posts for version 2.1.0, here without a
    [rollout] field. *)
Definition parts : list Part :=
  [ mkPart (Some "file") (Some "app-android-2.1.0.zip") "package 2.1.0";
    mkPart (Some "version") None "2.1.0";
    mkPart (Some "platform") None "android";
    mkPart (Some "hash") None "h210";
    mkPart (Some "description") None "";
    mkPart (Some "mandatory") None "false" ].

(** No field is read as a number in the example. *)
Definition no_number (s : string) : option Z := None.

Definition stored : Response * Server.Data :=
  publish no_number Scenario.scope (Some "key") (Some "app") parts
    "1700000000000" "t4".

Definition release : Server.Release :=
  Server.mkRelease "2.1.0" "android" "app-android-2.1.0-1700000000000.zip"
    "h210" 13 "" false 100 (Some "*") (Some false) "t4" "key" None.

End Upload.

(* ===================================================================== *)
(** * Sessions of the agent                                               *)
(* ===================================================================== *)

Module Session.
Import Client.





(** [syncUpdate]: the check, and the download when the update offered is
    mandatory; the boolean is the value the coroutine resumes with. *)
Definition syncUpdate {sha : Sha256} (unzip : Bytes -> Dir * bool)
  (reply : Pipeline.Reply) (transfer : Transfer) (st : Install)
  : bool * Install :=
  let result := Pipeline.checkForUpdate_result reply in
  if updateAvailable result && mandatory result
  then
    let '(outcome, st') := downloadUpdate unzip result transfer st in
    (match outcome with Installed => true | _ => false end, st')
  else (false, st).

End Session.

(** ** Example data for sessions *)

Module Faults.
Import Client.

(** An archive reader that fails after creating the bundle file. *)
Definition unzip_truncated (zip : Bytes) : Dir * bool :=
  ([("main.lynx.bundle", EmptyString)], false).

Definition offer_300 : UpdateResult :=
  mkUpdateResult true (Some "3.0.0")
    (Some "http://updates.example/api/download/app-android-3.0.0-3.zip")
    None 12 EmptyString false None.

End Faults.

Module Cycle.
Import Server.

Definition package : Bytes := "bundle 2.0.0".

(** A mandatory release whose recorded hash is the digest of its package
    (under the stand-in digest). *)
Definition r200 : Release :=
  mkRelease "2.0.0" "android" "app-android-2.0.0-2.zip"
    (@sha256_hex ToySha.sha package) 12 "second" true 100 (Some "*")
    (Some false) "t2" "key" None.

Definition scope : Data :=
  mkData {[ releasesFile "key" "android" := [r200] ]}
         {[ "app-android-2.0.0-2.zip" := package ]}.

End Cycle.

(* ===================================================================== *)
(** * Numbers: statements                                                 *)
(* ===================================================================== *)

Section DoubleFacts.
Import Double.

Lemma nearest_even_le (x : Q) (K : Z) :
  (x <= inject_Z K)%Q -> nearest_even x <= K.
Proof.
  intros Hx. unfold nearest_even.
  pose proof (Qfloor_le x) as Hf.
  assert (HfK : Qfloor x <= K).
  { apply Qfloor_resp_le in Hx. now rewrite Qfloor_Z in Hx. }
  destruct (Z.eq_dec (Qfloor x) K) as [E|E].
  - assert (Hfrac : (x - inject_Z (Qfloor x) ?= 1 # 2)%Q = Lt).
    { apply (proj1 (Qlt_alt _ _)). rewrite E in *. lra. }
    rewrite Hfrac. lia.
  - destruct (x - inject_Z (Qfloor x) ?= 1 # 2)%Q; [destruct (Z.even _)| |]; lia.
Qed.

Lemma nearest_even_ge (x : Q) (K : Z) :
  (inject_Z K <= x)%Q -> K <= nearest_even x.
Proof.
  intros Hx. unfold nearest_even.
  assert (HfK : K <= Qfloor x).
  { apply Qfloor_resp_le in Hx. now rewrite Qfloor_Z in Hx. }
  destruct (x - inject_Z (Qfloor x) ?= 1 # 2)%Q; [destruct (Z.even _)| |]; lia.
Qed.

Lemma round_proper (x y : Q) : (x == y)%Q -> round x = round y.
Proof. intros H. unfold round. now rewrite (Qred_complete x y H). Qed.

Lemma pow2_pos (e : Z) : (0 < 2 ^ e)%Q.
Proof. apply Qpower_0_lt. reflexivity. Qed.

Lemma round_nonneg (x : Q) : (0 <= x)%Q -> (0 <= round x)%Q.
Proof.
  intros Hx. unfold round.
  destruct (Qeq_bool (Qred x) 0); [apply Qle_refl|].
  rewrite Qred_correct.
  set (e := ulp_exponent (Qred x)).
  apply Qmult_le_0_compat; [|apply Qlt_le_weak, pow2_pos].
  change 0%Q with (inject_Z 0). rewrite <- Zle_Qle.
  apply nearest_even_ge. change (inject_Z 0) with 0%Q.
  apply Qle_shift_div_l; [apply pow2_pos|].
  rewrite Qmult_0_l, Qred_correct. exact Hx.
Qed.

Lemma pow2_inject (n : Z) : 0 <= n -> (inject_Z (2 ^ n) == 2 ^ n)%Q.
Proof. intros Hn. now rewrite Zpower_Qpower. Qed.

Lemma pow2_opp (e : Z) : ((2:Q) ^ e * 2 ^ (- e) == 1)%Q.
Proof.
  rewrite <- Qpower_plus by discriminate.
  now replace (e + - e) with 0 by lia.
Qed.

(** [2 ^ ilog2 x] is not above [x]. *)
Lemma ilog2_le (x : Q) : (0 < x)%Q -> (2 ^ ilog2 x <= x)%Q.
Proof.
  intros Hx. unfold ilog2.
  destruct (Qle_bool _ x) eqn:Hb; [now apply Qle_bool_iff|].
  destruct x as [a b]. cbn [Qnum Qden].
  assert (Ha : 0 < a) by (unfold Qlt in Hx; cbn in Hx; lia).
  destruct (Z.log2_spec a Ha) as [Hla _].
  destruct (Z.log2_spec (Z.pos b) eq_refl) as [_ Hlb].
  pose proof (Z.log2_nonneg a) as Hna.
  pose proof (Z.log2_nonneg (Z.pos b)) as Hnb.
  set (la := Z.log2 a) in *. set (lb := Z.log2 (Z.pos b)) in *.
  replace (la - lb - 1) with (la + - (lb + 1)) by lia.
  rewrite Qpower_plus by discriminate.
  rewrite Qpower_opp, <- (pow2_inject la), <- (pow2_inject (lb + 1)) by lia.
  rewrite (Qmake_Qdiv a b).
  assert (H1 : (inject_Z (2 ^ la) <= inject_Z a)%Q) by now rewrite <- Zle_Qle.
  assert (H2 : (inject_Z (Z.pos b) <= inject_Z (2 ^ (lb + 1)))%Q).
  { rewrite <- Zle_Qle. unfold Z.succ in Hlb. lia. }
  assert (H3 : (0 < inject_Z (Z.pos b))%Q) by reflexivity.
  assert (H4 : (0 < inject_Z (2 ^ la))%Q).
  { change 0%Q with (inject_Z 0). rewrite <- Zlt_Qlt. apply Z.pow_pos_nonneg; lia. }
  set (A := inject_Z (2 ^ la)) in *. set (B := inject_Z (2 ^ (lb + 1))) in *.
  set (a' := inject_Z a) in *. set (b' := inject_Z (Z.pos b)) in *.
  clearbody A B a' b'. clear -H1 H2 H3 H4.
  apply Qle_shift_div_l; [exact H3|].
  assert (H5 : (0 < B)%Q) by lra.
  apply Qle_trans with (A * / B * B)%Q.
  - apply Qmult_le_l; [|exact H2].
    apply Qmult_lt_0_compat; [exact H4|now apply Qinv_lt_0_compat].
  - rewrite <- Qmult_assoc, (Qmult_comm (/ B)), Qmult_inv_r by lra.
    now rewrite Qmult_1_r.
Qed.

(** Rounding never goes past an integer of at most 53 bits. *)
Lemma round_le_int (x : Q) (c : Z) :
  0 < c <= 2 ^ 52 -> (x <= inject_Z c)%Q -> (round x <= inject_Z c)%Q.
Proof.
  intros [Hc0 Hc] Hx. unfold round.
  assert (Hcpos : (0 <= inject_Z c)%Q).
  { change 0%Q with (inject_Z 0). rewrite <- Zle_Qle. lia. }
  destruct (Qeq_bool (Qred x) 0); [exact Hcpos|].
  rewrite Qred_correct.
  assert (Hx' : (Qred x <= inject_Z c)%Q) by now rewrite Qred_correct.
  set (y := Qred x) in *. clearbody y. clear x Hx.
  set (e := ulp_exponent y).
  destruct (Qlt_le_dec 0 y) as [Hpos|Hneg].
  - assert (He : e <= 0).
    { unfold e, ulp_exponent.
      assert (ilog2 (Qabs y) <= 52); [|lia].
      apply (Qpower_le_compat_l_inv 2); [|reflexivity].
      apply Qle_trans with (Qabs y); [apply ilog2_le|].
      - rewrite Qabs_pos by now apply Qlt_le_weak. exact Hpos.
      - rewrite Qabs_pos by now apply Qlt_le_weak.
        apply Qle_trans with (inject_Z c); [exact Hx'|].
        rewrite <- pow2_inject by lia. now rewrite <- Zle_Qle. }
    assert (Hint : (inject_Z (c * 2 ^ (- e)) == inject_Z c * 2 ^ (- e))%Q).
    { rewrite inject_Z_mult, pow2_inject by lia. reflexivity. }
    assert (HN : nearest_even (y / 2 ^ e) <= c * 2 ^ (- e)).
    { apply nearest_even_le. rewrite Hint.
      apply Qle_shift_div_r; [apply pow2_pos|].
      rewrite <- Qmult_assoc, (Qmult_comm (2 ^ (- e))), pow2_opp, Qmult_1_r.
      exact Hx'. }
    apply Qle_trans with (inject_Z (c * 2 ^ (- e)) * 2 ^ e)%Q.
    + apply Qmult_le_compat_r; [|apply Qlt_le_weak, pow2_pos].
      now rewrite <- Zle_Qle.
    + rewrite Hint, <- Qmult_assoc, (Qmult_comm (2 ^ (- e))), pow2_opp, Qmult_1_r.
      apply Qle_refl.
  - apply Qle_trans with 0%Q; [|exact Hcpos].
    assert (HN : nearest_even (y / 2 ^ e) <= 0).
    { apply nearest_even_le. change (inject_Z 0) with 0%Q.
      apply Qle_shift_div_r; [apply pow2_pos|]. now rewrite Qmult_0_l. }
    apply Qle_trans with (inject_Z 0 * 2 ^ e)%Q.
    + apply Qmult_le_compat_r; [|apply Qlt_le_weak, pow2_pos].
      now rewrite <- Zle_Qle.
    + change (inject_Z 0) with 0%Q. rewrite Qmult_0_l. apply Qle_refl.
Qed.

Lemma round_zero (x : Q) : (x == 0)%Q -> round x = 0%Q.
Proof. intros H. now rewrite (round_proper x 0 H). Qed.

(** Two products and a quotient, as the machine computes them. *)
Example draw_024_times_100 :
  Double.mul (Double.round (24 # 100)) 100 = 24%Q.
Proof. vm_compute. reflexivity. Qed.

Example quotient_17_40 :
  Double.mul (Double.sub 1 (Double.div 17 40)) 100
  = (8092405580431359 # 140737488355328)%Q.
Proof. vm_compute. reflexivity. Qed.

End DoubleFacts.

(* ===================================================================== *)
(** * The resolver: statements                                            *)
(* ===================================================================== *)

Section ResolverFacts.
Import Server.
Context {semver : SemverLib} {sha : Sha256}.

Lemma binary_mismatch_no_appVersion (r : Release) :
  binary_mismatch r None = false.
Proof. unfold binary_mismatch. now destruct (targetBinaryVersion r). Qed.

Lemma shouldReceive_zero (random : Q) :
  (0 <= random)%Q -> shouldReceive random 0 = false.
Proof.
  intros Hr. unfold shouldReceive.
  destruct (Qlt_le_dec (Double.mul random 100) (inject_Z 0)) as [Hlt|Hle];
    [|reflexivity].
  exfalso. apply (Qlt_not_le _ _ Hlt).
  change (inject_Z 0) with 0%Q. apply round_nonneg.
  apply Qmult_le_0_compat; [exact Hr | discriminate].
Qed.

(** The scan never looks at [disabled], [rollout] or [mandatory]: editing
    them (the PATCH route edits nothing else but [updatedAt]) changes the
    fields of the release selected, not which one is selected. *)
Lemma findApplicableRelease_patch (body : PatchBody) (now : string)
  (rs : list Release) (cv : string) (app : option string) :
  findApplicableRelease (apply_patch body now <$> rs) cv app
  = apply_patch body now <$> findApplicableRelease rs cv app.
Proof.
  induction rs as [|r rs IH]; [reflexivity|].
  rewrite fmap_cons. cbn [findApplicableRelease].
  change (is_current (apply_patch body now r) cv) with (is_current r cv).
  change (not_newer (apply_patch body now r) cv) with (not_newer r cv).
  change (binary_mismatch (apply_patch body now r) app)
    with (binary_mismatch r app).
  destruct (is_current r cv); [exact IH|].
  destruct (not_newer r cv); [exact IH|].
  destruct (binary_mismatch r app); [exact IH|reflexivity].
Qed.

End ResolverFacts.

(** The draw 0.24 does not receive a release rolled out to 24 percent: the
    product is the [Number] 24. *)
Example shouldReceive_024_24 :
  Server.shouldReceive (Double.round (24 # 100)) 24 = false.
Proof. vm_compute. reflexivity. Qed.

(** C1 (as the code has it).  In the example scope, a client on 1.0.0 is
    offered 2.0.0 whatever the random draw; once 2.0.0 is patched to
    [disabled: true] the same request is answered "no update": the scan
    still selects 2.0.0, and the handler then refuses it. *)
Theorem C1_example_resolution (random : Q) :
  (exists info,
      @Server.check_update PlainSemver.lib ToySha.sha
        Scenario.scope random Scenario.request = Server.UpdateAvailable info
      /\ Server.u_version info = "2.0.0")
  /\ @Server.findApplicableRelease PlainSemver.lib
       (Server.getReleasesForKey Scenario.patched_scope "key" "android")
       "1.0.0" None
     = Some (Server.apply_patch Scenario.disable "t3" Scenario.r200)
  /\ @Server.check_update PlainSemver.lib ToySha.sha
       Scenario.patched_scope random Scenario.request = Server.NoUpdate.
Proof.
  split; [|split].
  - eexists; split; reflexivity.
  - reflexivity.
  - reflexivity.
Qed.

(** C1, the sentence of the specification refuted: after the patch the
    request is not answered with 1.5.0. *)
Lemma C1_disabled_not_skipped :
  ~ (exists info,
        @Server.check_update PlainSemver.lib ToySha.sha
          Scenario.patched_scope (1 # 2) Scenario.request
        = Server.UpdateAvailable info
        /\ Server.u_version info = "1.5.0").
Proof. intros [info [H _]]. vm_compute in H. discriminate H. Qed.

(** C5 (as the code has it).  When the request carries no [appVersion] the
    target-binary test is not made: the scan returns the first release whose
    version differs from the current one and is not older or equal under
    semver (when both parse), whatever its [targetBinaryVersion]. *)
Theorem C5_no_appVersion_no_targeting {semver : SemverLib}
  (rs : list Server.Release) (currentVersion : string) :
  Server.findApplicableRelease rs currentVersion None
  = List.find (Server.version_admits currentVersion) rs.
Proof.
  induction rs as [|r rs IH]; [reflexivity|].
  simpl. unfold Server.version_admits at 1.
  destruct (Server.is_current r currentVersion); [exact IH|].
  destruct (Server.not_newer r currentVersion); [exact IH|].
  now rewrite binary_mismatch_no_appVersion.
Qed.

(** C5, the sentence of the specification refuted: a release aimed at
    binaries [>=3.0.0] is selected for a request without [appVersion], and
    the handler offers it. *)
Lemma C5_targeted_release_returned :
  Server.targetBinaryVersion Scenario.targeted = Some ">=3.0.0"
  /\ Server.appVersion Scenario.request = None
  /\ @Server.findApplicableRelease PlainSemver.lib
       [Scenario.targeted] "1.0.0" None = Some Scenario.targeted
  /\ exists info,
       @Server.check_update PlainSemver.lib ToySha.sha
         Scenario.targeted_scope (1 # 2) Scenario.request
       = Server.UpdateAvailable info
       /\ Server.u_version info = Server.version Scenario.targeted.
Proof.
  split; [reflexivity|]. split; [reflexivity|]. split; [reflexivity|].
  eexists. split; reflexivity.
Qed.

(** C6.  Let [r] be the release the scan selects.  If its rollout is 0 the
    answer is "no update" for every draw; if its rollout is 100 and it is
    not disabled, the answer offers [r] for every draw. *)
Theorem C6_rollout_bounds {semver : SemverLib} {sha : Sha256}
  (d : Server.Data) (random : Q) (req : Server.CheckRequest)
  (key : string) (r : Server.Release) :
  (0 <= random)%Q -> (random < 1)%Q ->
  Server.header_deployment_key req = Some key ->
  key <> "" ->
  Server.findApplicableRelease
    (Server.getReleasesForKey d key (Server.req_platform req))
    (Server.currentVersion req) (Server.appVersion req) = Some r ->
  (Server.rollout r = 0 -> Server.check_update d random req = Server.NoUpdate)
  /\ (Server.rollout r = 100 ->
      Js.truthy_bool (Server.disabled r) = false ->
      exists info,
        Server.check_update d random req = Server.UpdateAvailable info
        /\ Server.u_version info = Server.version r).
Proof.
  intros H0 H1 Hkey Hne Hsel.
  assert (Htruthy : Js.truthy_string (Some key) = true).
  { simpl. destruct (String.eqb_spec key ""); [contradiction|reflexivity]. }
  unfold Server.check_update. rewrite Hkey, Htruthy. simpl negb. cbv iota.
  destruct (Server.getReleasesForKey d key (Server.req_platform req))
    as [|r0 rs] eqn:Hrs; [discriminate Hsel|].
  rewrite Hsel. split.
  - intros Hz. rewrite Hz. simpl Z.ltb.
    now rewrite (shouldReceive_zero random H0).
  - intros Hfull Hen. rewrite Hfull, Hen. simpl.
    destruct (Server.findDiffPackage d key (Server.req_platform req)
                (Server.currentVersion req) (Server.version r));
      eexists; split; reflexivity.
Qed.

(** C6 on the example scopes: a release at rollout 0 and one at rollout
    100, with the draw 1/2. *)
Lemma C6_rollout_bounds_witness :
  @Server.check_update PlainSemver.lib ToySha.sha
    Scenario.closed_scope (1 # 2) Scenario.request = Server.NoUpdate
  /\ exists info,
       @Server.check_update PlainSemver.lib ToySha.sha
         Scenario.scope (1 # 2) Scenario.request = Server.UpdateAvailable info
       /\ Server.u_version info = "2.0.0".
Proof.
  split.
  - apply (@C6_rollout_bounds PlainSemver.lib ToySha.sha
             Scenario.closed_scope (1 # 2) Scenario.request "key"
             Scenario.closed);
      [discriminate | reflexivity | reflexivity | discriminate
      | reflexivity | reflexivity].
  - apply (@C6_rollout_bounds PlainSemver.lib ToySha.sha
             Scenario.scope (1 # 2) Scenario.request "key" Scenario.r200);
      [discriminate | reflexivity | reflexivity | discriminate
      | reflexivity | reflexivity | reflexivity].
Defined.

(* ===================================================================== *)
(** * The client agent: statements                                        *)
(* ===================================================================== *)

Section AgentFacts.
Import Client.

Lemma getString_insert_eq (p : gmap string PrefValue) (k v : string) :
  getString (<[k := PString v]> p) k = Some v.
Proof. unfold getString. now rewrite lookup_insert_eq. Qed.

Lemma getString_insert_ne (p : gmap string PrefValue) (k k' : string)
  (x : PrefValue) :
  k <> k' -> getString (<[k := x]> p) k' = getString p k'.
Proof. intros Hne. unfold getString. now rewrite lookup_insert_ne. Qed.

Lemma getString_delete_eq (p : gmap string PrefValue) (k : string) :
  getString (delete k p) k = None.
Proof. unfold getString. now rewrite lookup_delete_eq. Qed.

Lemma getString_delete_ne (p : gmap string PrefValue) (k k' : string) :
  k <> k' -> getString (delete k p) k' = getString p k'.
Proof. intros Hne. unfold getString. now rewrite lookup_delete_ne. Qed.

(** A launch with nothing staged changes nothing. *)
Lemma init_nothing_pending (st : Install) :
  getString (prefs st) KEY_PENDING_VERSION = None -> init st = st.
Proof. intros H. unfold init, applyPendingUpdate. now rewrite H. Qed.

Lemma run_app (l k : list (Install -> Install)) (st : Install) :
  run (l ++ k) st = run k (run l st).
Proof. apply foldl_app. Qed.

(** While the files of the current directory are being deleted, nothing
    else changes. *)
Lemma run_delete_files (names : list string) (st : Install) :
  prefs (run (delete_bundle_file <$> names) st) = prefs st
  /\ lynx_pending (run (delete_bundle_file <$> names) st) = lynx_pending st
  /\ delete_bundles (run (delete_bundle_file <$> names) st) = delete_bundles st.
Proof.
  revert st. induction names as [|n names IH]; intros st; [easy|].
  change (run (delete_bundle_file <$> n :: names) st)
    with (run (delete_bundle_file <$> names) (delete_bundle_file n st)).
  destruct (IH (delete_bundle_file n st)) as (-> & -> & ->). easy.
Qed.

Lemma run_delete_bundles (st : Install) :
  run (delete_bundles_steps st) st = delete_bundles st.
Proof.
  unfold delete_bundles_steps. rewrite run_app.
  change (run [delete_bundles] ?s) with (delete_bundles s).
  apply run_delete_files.
Qed.

(** What [applyPendingUpdate] does when an update is staged. *)
Lemma applyPendingUpdate_staged (st : Install) (v : string) (d : Dir) :
  getString (prefs st) KEY_PENDING_VERSION = Some v ->
  lynx_pending st = Some d ->
  applyPendingUpdate st
  = mkInstall
      (delete KEY_PENDING_VERSION (<[KEY_CURRENT_VERSION := PString v]> (prefs st)))
      (Some d) None (lynx_bundles_backup st) (cache st) (reports st).
Proof.
  intros Hv Hd. unfold applyPendingUpdate. rewrite Hv, Hd.
  unfold apply_steps. rewrite run_app, run_delete_bundles. cbn.
  unfold rename_pending_to_bundles. cbn. now rewrite Hd.
Qed.


(** [applyPendingUpdate] is idempotent. *)
Lemma applyPendingUpdate_idem (st : Install) :
  applyPendingUpdate (applyPendingUpdate st) = applyPendingUpdate st.
Proof.
  destruct (getString (prefs st) KEY_PENDING_VERSION) as [v|] eqn:Hv.
  - destruct (lynx_pending st) as [d|] eqn:Hd.
    + rewrite (applyPendingUpdate_staged st v d Hv Hd).
      unfold applyPendingUpdate at 1. simpl.
      now rewrite getString_delete_eq.
    + unfold applyPendingUpdate. rewrite Hv, Hd. now rewrite Hv, Hd.
  - unfold applyPendingUpdate. rewrite Hv. now rewrite Hv.
Qed.

(** Three calls of the private [checkAutoRollback] would bring the device of
    the example back to 1.0.0; the third call is the one that rolls back. *)
Lemma checkAutoRollback_three_launches :
  let s1 := checkAutoRollback Device.unconfirmed in
  let s2 := checkAutoRollback s1 in
  let s3 := checkAutoRollback s2 in
  getCurrentVersion s1 = "2.0.0" /\ getCurrentVersion s2 = "2.0.0"
  /\ getCurrentVersion s3 = "1.0.0"
  /\ lynx_bundles s3 = Some Device.old_bundle.
Proof. vm_compute. repeat split. Qed.

End AgentFacts.

(** C2, evaluated on the code.  On a device running an unconfirmed 2.0.0
    with a backup of 1.0.0, three launches in a row leave everything as it
    was: [init] applies pending updates and nothing else, so the unconfirmed
    version keeps running and no rollback takes place. *)
Theorem C2_three_launches_no_rollback :
  Client.init (Client.init (Client.init Device.unconfirmed)) = Device.unconfirmed
  /\ Client.getCurrentVersion
       (Client.init (Client.init (Client.init Device.unconfirmed))) = "2.0.0"
  /\ Client.getBoolean (Client.prefs Device.unconfirmed)
       (Client.confirmed_key "2.0.0") false = false
  /\ Client.lynx_bundles_backup Device.unconfirmed = Some Device.old_bundle.
Proof.
  assert (H : Client.init Device.unconfirmed = Device.unconfirmed)
    by (apply init_nothing_pending; reflexivity).
  rewrite !H. repeat split; reflexivity.
Qed.

(** C3 (as the code has it).  When an update is staged, the process can
    stop while the files of the current directory are being deleted, once
    that directory is gone, once the staged directory is renamed, or once
    the version record is written.  In each of these states, either the
    current directory exists, or the staged directory and its version record
    are intact; and the next launch ends with the staged bundle in the
    current directory. *)
Theorem C3_apply_restartable (st : Client.Install) (v : string)
  (d : Client.Dir) :
  Client.getString (Client.prefs st) Client.KEY_PENDING_VERSION = Some v ->
  Client.lynx_pending st = Some d ->
  last (Client.applyPendingUpdate_states st) = Some (Client.applyPendingUpdate st)
  /\ forall s, s ∈ Client.applyPendingUpdate_states st ->
       Client.lynx_bundles (Client.init s) = Some d
       /\ (Client.lynx_bundles s = None ->
           Client.lynx_pending s = Some d
           /\ Client.getString (Client.prefs s) Client.KEY_PENDING_VERSION
              = Some v).
Proof.
  intros Hv Hd.
  unfold Client.applyPendingUpdate_states, Client.applyPendingUpdate.
  rewrite Hv, Hd.
  set (steps := Client.apply_steps v st). split.
  - rewrite seq_S, fmap_app. cbn [fmap list_fmap]. rewrite last_snoc.
    now rewrite take_ge.
  - intros s (n & -> & Hn)%list_elem_of_fmap.
    apply elem_of_seq in Hn.
    set (names := (default [] (Client.lynx_bundles st)).*1) in *.
    assert (Hsteps : steps
              = ((Client.delete_bundle_file <$> names)
                   ++ [Client.delete_bundles; Client.rename_pending_to_bundles;
                       Client.commit_applied v])%list).
    { unfold steps, Client.apply_steps, Client.delete_bundles_steps.
      now rewrite <- app_assoc. }
    assert (Hlen : length steps = (length names + 3)%nat).
    { rewrite Hsteps, length_app, length_fmap. reflexivity. }
    destruct (decide (n <= length names)%nat) as [Hle|Hgt].
    + (* some files of the current directory are deleted *)
      rewrite Hsteps, take_app_le by (now rewrite length_fmap).
      rewrite <- fmap_take.
      destruct (run_delete_files (take n names) st) as (Hp & Hpd & _).
      split.
      * unfold Client.init.
        rewrite (applyPendingUpdate_staged _ v d); [reflexivity| |].
        -- now rewrite Hp.
        -- now rewrite Hpd.
      * intros _. now rewrite Hp, Hpd.
    + (* the current directory is gone *)
      assert (Hcases : n = (length names + 1)%nat \/ n = (length names + 2)%nat
                       \/ n = (length names + 3)%nat) by lia.
      rewrite Hsteps, take_app, length_fmap, run_app.
      rewrite (take_ge (Client.delete_bundle_file <$> names))
        by (rewrite length_fmap; lia).
      destruct (run_delete_files names st) as (Hp & Hpd & Hdb).
      destruct Hcases as [-> | [-> | ->]].
      * replace (length names + 1 - length names)%nat with 1%nat by lia.
        change (Client.run (take 1 [?a; ?b; ?c]) ?s) with (a s).
        rewrite Hdb. split; [|now intros _].
        unfold Client.init.
        now rewrite (applyPendingUpdate_staged (Client.delete_bundles st) v d Hv Hd).
      * replace (length names + 2 - length names)%nat with 2%nat by lia.
        change (Client.run (take 2 [?a; ?b; ?c]) ?s) with (b (a s)).
        rewrite Hdb. unfold Client.rename_pending_to_bundles. cbn.
        rewrite Hd. cbn. split; [|discriminate].
        unfold Client.init, Client.applyPendingUpdate. cbn. now rewrite Hv.
      * replace (length names + 3 - length names)%nat with 3%nat by lia.
        change (Client.run (take 3 [?a; ?b; ?c]) ?s) with (c (b (a s))).
        rewrite Hdb. unfold Client.rename_pending_to_bundles. cbn.
        rewrite Hd. cbn. split; [|discriminate].
        unfold Client.init, Client.applyPendingUpdate. cbn.
        now rewrite getString_delete_eq.
Qed.

(** C3 on the device with 2.0.0 staged over 1.0.0. *)
Lemma C3_apply_restartable_witness :
  last (Client.applyPendingUpdate_states Device.staged)
  = Some (Client.applyPendingUpdate Device.staged)
  /\ forall s, s ∈ Client.applyPendingUpdate_states Device.staged ->
       Client.lynx_bundles (Client.init s) = Some Device.new_bundle
       /\ (Client.lynx_bundles s = None ->
           Client.lynx_pending s = Some Device.new_bundle
           /\ Client.getString (Client.prefs s) Client.KEY_PENDING_VERSION
              = Some "2.0.0").
Proof.
  apply (C3_apply_restartable Device.staged "2.0.0" Device.new_bundle);
    reflexivity.
Defined.

(** C3, the sentence of the specification refuted: one of the states the
    process can stop in has no current directory (the bundle is then loaded
    from the assets), and the completed call has made no backup. *)
Lemma C3_current_missing_midway :
  Client.delete_bundles Device.staged
    ∈ Client.applyPendingUpdate_states Device.staged
  /\ Client.lynx_bundles (Client.delete_bundles Device.staged) = None
  /\ Client.shouldLoadFromFile (Client.delete_bundles Device.staged)
       "main.lynx.bundle" = false
  /\ Client.lynx_bundles_backup (Client.applyPendingUpdate Device.staged) = None.
Proof.
  split; [|repeat split].
  apply list_elem_of_In. right. right. left. reflexivity.
Qed.

(** What [clearUpdates] does on every device: the current and the staged
    directory are gone, the preferences are empty, the reported version is
    the default one, and the backup directory is what it was. *)
Lemma clearUpdates_effect (st : Client.Install) :
  Client.lynx_bundles (Client.clearUpdates st) = None
  /\ Client.lynx_pending (Client.clearUpdates st) = None
  /\ Client.prefs (Client.clearUpdates st) = ∅
  /\ Client.getCurrentVersion (Client.clearUpdates st) = "0.0.0"
  /\ Client.lynx_bundles_backup (Client.clearUpdates st)
     = Client.lynx_bundles_backup st.
Proof. repeat split. Qed.

Section SessionFacts.
Import Client.
Context {sha : Sha256}.








End SessionFacts.


(** C9.  After a successful [installUpdate] and one [applyPendingUpdate],
    nothing is staged any more (neither the directory nor the version
    record), and a second [applyPendingUpdate] returns the state unchanged:
    same current directory, same recorded current version. *)
Theorem C9_second_apply_is_noop
  (unzip : Bytes -> Client.Dir * bool) (zipFile : Bytes) (v : string)
  (st st1 : Client.Install) :
  Client.installUpdate unzip zipFile v st = (true, st1) ->
  let st2 := Client.applyPendingUpdate st1 in
  Client.lynx_pending st2 = None
  /\ Client.getString (Client.prefs st2) Client.KEY_PENDING_VERSION = None
  /\ Client.applyPendingUpdate st2 = st2
  /\ Client.lynx_bundles (Client.applyPendingUpdate st2) = Client.lynx_bundles st2
  /\ Client.getCurrentVersion (Client.applyPendingUpdate st2)
     = Client.getCurrentVersion st2.
Proof.
  intros Hinst st2. unfold Client.installUpdate in Hinst.
  destruct (unzip zipFile) as [extracted ok].
  destruct ok; [|discriminate Hinst].
  injection Hinst as <-.
  assert (Hidem : Client.applyPendingUpdate st2 = st2)
    by apply applyPendingUpdate_idem.
  rewrite Hidem. subst st2.
  rewrite (applyPendingUpdate_staged _ v extracted);
    [|apply getString_insert_eq|reflexivity].
  cbn. rewrite getString_delete_eq. repeat split.
Qed.

(** C9 on a device running 1.0.0 that stages 2.0.0. *)
Lemma C9_second_apply_is_noop_witness :
  let st2 :=
    Client.applyPendingUpdate
      (Client.installUpdate Device.unzip_bundle "bundle 2.0.0" "2.0.0"
         Device.fresh).2 in
  Client.lynx_pending st2 = None
  /\ Client.getString (Client.prefs st2) Client.KEY_PENDING_VERSION = None
  /\ Client.applyPendingUpdate st2 = st2
  /\ Client.lynx_bundles (Client.applyPendingUpdate st2) = Client.lynx_bundles st2
  /\ Client.getCurrentVersion (Client.applyPendingUpdate st2)
     = Client.getCurrentVersion st2.
Proof.
  apply (C9_second_apply_is_noop Device.unzip_bundle
           "bundle 2.0.0" "2.0.0" Device.fresh).
  reflexivity.
Defined.

(** C10.  For an offer that is available and has a download address, and a
    transfer that completed:
    - without a hash in the offer, the package goes to [installUpdate]
      whatever its digest is;
    - the outcome is "Hash verification failed" exactly when the offer
      carries a hash that differs from the digest of the received bytes;
    - in that case the staged directory and the preferences are untouched
      and the temporary file is deleted. *)
Theorem C10_hash_checked_only_if_present {sha : Sha256}
  (unzip : Bytes -> Client.Dir * bool) (r : Client.UpdateResult)
  (url : string) (body : Bytes) (st : Client.Install) :
  Client.updateAvailable r = true ->
  Client.downloadUrl r = Some url ->
  let result := Client.downloadUpdate unzip r (Client.Completed body) st in
  (Client.hash r = None ->
   forall v, Client.version r = Some v ->
     let staged :=
       Client.installUpdate unzip body v
         (Client.with_cache st (<[Client.tempFile r := body]> (Client.cache st))) in
     result.1 = (if staged.1 then Client.Installed else Client.InstallationFailed)
     /\ Client.lynx_pending result.2 = Client.lynx_pending staged.2
     /\ Client.prefs result.2 = Client.prefs staged.2)
  /\ (result.1 = Client.HashVerificationFailed <->
      exists h, Client.hash r = Some h /\ Client.calculateHash body <> h)
  /\ (result.1 = Client.HashVerificationFailed ->
      Client.lynx_pending result.2 = Client.lynx_pending st
      /\ Client.prefs result.2 = Client.prefs st
      /\ Client.cache result.2 !! Client.tempFile r = None).
Proof.
  intros Hav Hurl result. subst result.
  unfold Client.downloadUpdate. rewrite Hav, Hurl. cbn [negb orb].
  split; [|split].
  - intros Hnone v Hv. rewrite Hnone, Hv.
    destruct (Client.installUpdate unzip body v _) as [ok st2].
    repeat split.
  - destruct (Client.hash r) as [h|].
    + destruct (String.eqb_spec (Client.calculateHash body) h) as [Heq|Hne]; cbn [negb].
      * split.
        -- destruct (Client.version r);
             [destruct (Client.installUpdate unzip body _ _) as [[] ?]|];
             discriminate.
        -- intros [h' [[= <-] Hd]]. contradiction.
      * split; [intros _; now exists h | reflexivity].
    + split.
      * destruct (Client.version r);
          [destruct (Client.installUpdate unzip body _ _) as [[] ?]|];
          discriminate.
      * intros [h' [[=] _]].
  - destruct (Client.hash r) as [h|].
    + destruct (String.eqb_spec (Client.calculateHash body) h) as [Heq|Hne]; cbn [negb].
      * destruct (Client.version r);
          [destruct (Client.installUpdate unzip body _ _) as [[] ?]|];
          discriminate.
      * intros _. cbn. repeat split. apply lookup_delete_eq.
    + destruct (Client.version r);
        [destruct (Client.installUpdate unzip body _ _) as [[] ?]|];
        discriminate.
Qed.

(** C10 on an offer without a hash: bytes that are not the published
    package are staged. *)
Lemma C10_hash_checked_only_if_present_witness :
  let result :=
    @Client.downloadUpdate ToySha.sha Device.unzip_bundle (Device.offer None)
      (Client.Completed "tampered") Device.fresh in
  result.1 = Client.Installed
  /\ Client.lynx_pending result.2 = Some [("main.lynx.bundle", "tampered")]
  /\ Client.getString (Client.prefs result.2) Client.KEY_PENDING_VERSION
     = Some "2.0.0".
Proof.
  pose proof (@C10_hash_checked_only_if_present ToySha.sha Device.unzip_bundle
                (Device.offer None)
                "http://updates.example/api/download/app-android-2.0.0-2.zip"
                "tampered" Device.fresh eq_refl eq_refl) as [H _].
  specialize (H eq_refl "2.0.0" eq_refl).
  destruct H as [H1 [H2 H3]].
  cbv zeta. rewrite H1, H2, H3. repeat split.
Defined.

(* ===================================================================== *)
(** * The delta engine: statements                                        *)
(* ===================================================================== *)

Section DeltaFacts.
Import Delta.
Context {sha : Sha256}.

Lemma hash_nonempty (b : Bytes) : String.eqb (sha256_hex b) "" = false.
Proof.
  destruct (String.eqb_spec (sha256_hex b) "") as [E|]; [|reflexivity].
  pose proof (sha256_hex_length b) as L. rewrite E in L. discriminate L.
Qed.

Lemma filter_none {A} (P : A -> Prop) `{forall x, Decision (P x)} (l : list A) :
  (forall x, x ∈ l -> ~ P x) -> filter P l = [].
Proof.
  induction l as [|a l IH]; intros Hl; [reflexivity|].
  rewrite filter_cons_False by (apply Hl; left).
  apply IH. intros x Hx. apply Hl. now right.
Qed.

(** Every entry of the table [scanDirectory] builds is the digest of a
    file. *)
Lemma scanDirectory_digest (t : Tree) (k : Path) (h : string) :
  scanDirectory t !! k = Some h -> exists b, h = sha256_hex b.
Proof.
  unfold scanDirectory. revert k h.
  apply (map_fold_weak_ind
           (fun acc (m : gmap Path Bytes) =>
              forall k h, acc !! k = Some h -> exists b, h = sha256_hex b)).
  - intros k h. rewrite lookup_empty. discriminate.
  - intros i x m acc Hi IH k h. unfold table_set, calculateFileHash.
    destruct (bool_decide _); [apply IH|].
    destruct (decide (relativePath [] i = k)) as [->|Hne].
    + rewrite lookup_insert_eq. intros [= <-]. now exists x.
    + rewrite lookup_insert_ne by exact Hne. apply IH.
Qed.

(** A key of the table is looked up in the table itself: the entry is
    found, it is truthy and equal to itself. *)
Lemma classify_self (t : Tree) (p : Path) (h : string) :
  scanDirectory t !! p = Some h -> classify (scanDirectory t) p h = Unchanged.
Proof.
  intros Hp. destruct (scanDirectory_digest t p h Hp) as [b ->].
  unfold classify, table_get. rewrite Hp. simpl.
  rewrite hash_nonempty. simpl. now rewrite String.eqb_refl.
Qed.

Lemma generateDiff_same_tree (t : Tree) :
  added (generateDiff t t) = [] /\ modified (generateDiff t t) = [].
Proof.
  unfold generateDiff. simpl. split.
  - rewrite filter_none; [reflexivity|].
    intros [p h] Hin%elem_of_map_to_list. simpl.
    now rewrite (classify_self t p h Hin).
  - rewrite filter_none; [reflexivity|].
    intros [p h] Hin%elem_of_map_to_list. simpl.
    now rewrite (classify_self t p h Hin).
Qed.

(** A package of 40 bytes of which 17 are sent: the exact percentage is
    57.5, the [Number] computed lies just below, and 57 is reported. *)
Example savedPercentOf_40_17 : savedPercentOf 40 17 = 57.
Proof. vm_compute. reflexivity. Qed.

Lemma savedPercentOf_nothing_sent (full : Z) :
  savedPercentOf full 0 = if 0 <? full then 100 else 0.
Proof.
  unfold savedPercentOf. destruct (0 <? full); [|reflexivity].
  unfold Double.div. rewrite (round_zero (inject_Z 0 / inject_Z full)).
  - reflexivity.
  - unfold Qdiv. change (inject_Z 0) with 0%Q. now rewrite Qmult_0_l.
Qed.

End DeltaFacts.

(** C8 (as the code has it).  When the two trees are the same tree, no path
    is added or modified, nothing is counted in [diffSize], and the
    percentage reported is 100 as soon as the tree holds one byte; it is 0
    only when [fullSize] is 0. *)
Theorem C8_same_tree_saved_percent {sha : Sha256} (t : Delta.Tree)
  (timestamp : string) :
  let info := (Delta.createDiffPackage t t timestamp).1 in
  Delta.added (Delta.diff info) = []
  /\ Delta.modified (Delta.diff info) = []
  /\ Delta.diffSize info = 0
  /\ Delta.savedPercent info = if 0 <? Delta.fullSize info then 100 else 0.
Proof.
  destruct (generateDiff_same_tree t) as [Ha Hm].
  cbv zeta. unfold Delta.createDiffPackage. simpl.
  repeat split; try assumption.
  - rewrite filter_none; [reflexivity|].
    intros p _. unfold Delta.in_diff. rewrite Ha, Hm.
    rewrite !bool_decide_eq_false_2 by apply not_elem_of_nil. discriminate.
  - rewrite filter_none.
    + apply savedPercentOf_nothing_sent.
    + intros p _. unfold Delta.in_diff. rewrite Ha, Hm.
      rewrite !bool_decide_eq_false_2 by apply not_elem_of_nil. discriminate.
Qed.

(** C8, the sentence of the specification refuted: for a tree of one file of
    one byte compared with itself, the percentage reported is 100. *)
Lemma C8_same_tree_reports_100 :
  let info :=
    (@Delta.createDiffPackage ToySha.sha Trees.one_file Trees.one_file "t").1 in
  Delta.added (Delta.diff info) = []
  /\ Delta.modified (Delta.diff info) = []
  /\ Delta.savedPercent info = 100
  /\ Delta.savedPercent info <> 0.
Proof. vm_compute. repeat split. discriminate. Qed.

(* --------------------------------------------------------------------- *)
(** ** Reconstruction                                                     *)
(* --------------------------------------------------------------------- *)

Section ReconstructionFacts.
Import Delta.
Context {sha : Sha256}.

Lemma parents_spec (p q : Path) :
  q ∈ parents p <-> q <> [] /\ q <> p /\ q `prefix_of` p.
Proof.
  revert q. induction p as [|x p IH]; intros q; simpl.
  - rewrite elem_of_nil. split; [tauto|].
    intros (Hne & _ & Hpre). now apply prefix_nil_inv in Hpre.
  - destruct p as [|y p'].
    + rewrite elem_of_nil. split; [tauto|].
      intros (Hne & Hneq & [k Hk]).
      destruct q as [|a [|b q]]; [congruence| |discriminate].
      injection Hk as ->. congruence.
    + rewrite elem_of_cons, list_elem_of_fmap. split.
      * intros [->|[q' [-> Hq']]].
        -- repeat split; [discriminate|discriminate|].
           now exists (y :: p').
        -- apply IH in Hq' as (Hne & Hneq & Hpre).
           repeat split; [discriminate|congruence|now apply prefix_cons].
      * intros (Hne & Hneq & Hpre).
        destruct q as [|a q]; [congruence|].
        pose proof (prefix_cons_inv_1 _ _ _ _ Hpre) as ->.
        apply prefix_cons_inv_2 in Hpre.
        destruct q as [|b q]; [now left|right].
        exists (b :: q). split; [reflexivity|].
        apply IH. repeat split; [discriminate|congruence|exact Hpre].
Qed.

Lemma wf_file (t : Tree) (p : Path) :
  wf t -> is_Some (files t !! p) ->
  p <> [] /\ (p ∉ dirs t) /\ forall q, q ∈ parents p -> q ∈ dirs t.
Proof.
  intros [Hf _] [b Hb]. destruct (Hf p b Hb) as (H1 & H2 & H3).
  repeat split; [exact H1|exact H2|].
  now apply Forall_forall.
Qed.

Lemma wf_dir (t : Tree) (d : Path) :
  wf t -> d ∈ dirs t -> d <> [] /\ forall q, q ∈ parents d -> q ∈ dirs t.
Proof.
  intros [_ Hd] Hin. destruct (Hd d Hin) as (H1 & H2).
  split; [exact H1|]. now apply Forall_forall.
Qed.

(** Removing a path that is not a directory removes at most the file at
    that path. *)
Lemma remove_not_dir (t : Tree) (p : Path) :
  wf t -> p <> [] -> p ∉ dirs t ->
  remove t p = mkTree (delete p (files t)) (dirs t).
Proof.
  intros Hwf Hne Hnd. unfold remove. f_equal.
  - apply map_eq. intros q.
    destruct (decide (p = q)) as [->|Hpq].
    + rewrite lookup_delete_eq. apply map_lookup_filter_None. right.
      intros b _ Hno. now apply Hno.
    + rewrite lookup_delete_ne by exact Hpq.
      destruct (files t !! q) as [b|] eqn:Hq.
      * apply map_lookup_filter_Some. split; [exact Hq|]. simpl.
        intros Hpre.
        destruct (wf_file t q Hwf (mk_is_Some _ _ Hq)) as (_ & _ & Hpar).
        apply Hnd, Hpar, parents_spec. now repeat split.
      * apply map_lookup_filter_None. now left.
  - apply set_eq. intros d. rewrite elem_of_filter. split; [tauto|].
    intros Hd. split; [|exact Hd]. intros Hpre.
    destruct (decide (p = d)) as [->|Hpd]; [contradiction|].
    destruct (wf_dir t d Hwf Hd) as (_ & Hpar).
    apply Hnd, Hpar, parents_spec. now repeat split.
Qed.

Lemma wf_delete (t : Tree) (p : Path) :
  wf t -> wf (mkTree (delete p (files t)) (dirs t)).
Proof.
  intros [Hf Hd]. split; [|exact Hd].
  intros q b Hq. simpl in *.
  apply lookup_delete_Some in Hq as [_ Hq]. exact (Hf q b Hq).
Qed.

(** The first loop of [applyDiffPackage], when every path to delete is
    not a directory. *)
Lemma remove_all (D : list Path) (t : Tree) :
  wf t -> (forall p, p ∈ D -> p <> [] /\ (p ∉ dirs t)) ->
  let t' := foldl remove t D in
  wf t' /\ dirs t' = dirs t
  /\ forall q, files t' !! q
               = if decide (q ∈ D) then None else files t !! q.
Proof.
  revert t. induction D as [|p D IH]; intros t Hwf HD; simpl.
  - split; [exact Hwf|]. split; [reflexivity|]. intros q.
    destruct (decide (q ∈ [])) as [H|_]; [now apply elem_of_nil in H|reflexivity].
  - destruct (HD p) as [Hne Hnd]; [left|].
    rewrite (remove_not_dir t p Hwf Hne Hnd).
    destruct (IH (mkTree (delete p (files t)) (dirs t))) as (Hwf' & Hdirs & Hfiles).
    + now apply wf_delete.
    + intros p' Hp'. apply HD. now right.
    + split; [exact Hwf'|]. split; [exact Hdirs|].
      intros q. rewrite Hfiles. simpl.
      destruct (decide (q ∈ D)) as [HqD|HqD].
      * rewrite decide_True by (now right). reflexivity.
      * destruct (decide (q = p)) as [->|Hqp].
        -- rewrite decide_True by left. apply lookup_delete_eq.
        -- rewrite decide_False by (rewrite elem_of_cons; tauto).
           now apply lookup_delete_ne.
Qed.

(** *** Ordinary names *)

Lemma normalize_onto_plain (kept segments : list string) :
  Forall (fun s => s <> "" /\ s <> "." /\ s <> "..") segments ->
  normalize_onto kept segments = (rev kept ++ segments)%list.
Proof.
  revert kept. induction segments as [|s rest IH]; intros kept Hs; simpl.
  - now rewrite app_nil_r.
  - apply Forall_cons in Hs as [(H1 & H2 & H3) Hrest].
    rewrite bool_decide_eq_false_2 by tauto.
    rewrite bool_decide_eq_false_2 by exact H3.
    rewrite IH by exact Hrest. simpl. now rewrite <- app_assoc.
Qed.

Lemma bind_cut (l : list string) : Forall ordinary l -> l ≫= cut = l.
Proof.
  induction 1 as [|s l (_ & _ & _ & Hs) _ IH]; [reflexivity|].
  rewrite bind_cons, Hs, IH. reflexivity.
Qed.

Lemma relativePath_ordinary (basePath names : Path) :
  Forall ordinary basePath -> Forall ordinary names ->
  relativePath basePath names = (basePath ++ names)%list.
Proof.
  revert basePath. induction names as [|name rest IH]; intros basePath Hb Hn.
  - simpl. now rewrite app_nil_r.
  - apply Forall_cons in Hn as [Hname Hrest].
    assert (Hall : Forall ordinary (basePath ++ [name])).
    { apply Forall_app. split; [exact Hb|]. now constructor. }
    simpl. unfold normalize. rewrite normalize_onto_plain; cycle 1.
    { eapply Forall_impl; [exact Hall|]. intros s (? & ? & ? & _). tauto. }
    simpl. rewrite bind_cut by exact Hall.
    rewrite IH by assumption. now rewrite <- app_assoc.
Qed.

Lemma canonical_ordinary (p : Path) :
  p <> [] -> Forall ordinary p -> canonical p.
Proof.
  intros Hne Hp. split; [exact Hne|].
  eapply Forall_impl; [exact Hp|]. intros s (? & ? & ? & _). tauto.
Qed.

(** [fs.stat] on the path of a file, and on a key it finds a file at. *)
Lemma stat_file (t : Tree) (p : Path) (b : Bytes) :
  ordinary_names t -> files t !! p = Some b -> stat t p = RegularFile b.
Proof.
  intros Hn Hb. destruct (Hn p b Hb) as [Hne Hp].
  unfold stat. rewrite decide_True by now apply canonical_ordinary.
  now rewrite Hb.
Qed.

Lemma stat_regular (t : Tree) (k : Path) (b : Bytes) :
  stat t k = RegularFile b -> canonical k /\ files t !! k = Some b.
Proof.
  unfold stat. destruct (decide (canonical k)) as [Hk|]; [|discriminate].
  destruct (files t !! k) as [b'|]; [|destruct (decide _); discriminate].
  intros [= ->]. now split.
Qed.

(** The table [scanDirectory] builds from ordinary names: the digest of
    every file under its path, except for a file whose path is
    [__proto__]. *)
Lemma scanDirectory_lookup (t : Tree) (p : Path) :
  ordinary_names t ->
  scanDirectory t !! p
  = if decide (p = ["__proto__"]) then None
    else sha256_hex <$> files t !! p.
Proof.
  unfold scanDirectory, ordinary_names. revert p.
  apply (map_fold_weak_ind
           (fun acc (m : gmap Path Bytes) =>
              forall p, map_Forall (fun p _ => p <> [] /\ Forall ordinary p) m ->
                acc !! p = if decide (p = ["__proto__"]) then None
                           else sha256_hex <$> m !! p)).
  - intros p _. rewrite !lookup_empty. now destruct (decide _).
  - intros i x m acc Hi IH p Hall.
    apply map_Forall_insert in Hall as [[_ Hord] Hall]; [|exact Hi].
    rewrite (relativePath_ordinary [] i) by (constructor || exact Hord).
    simpl. unfold table_set, calculateFileHash.
    destruct (bool_decide_reflect (i = ["__proto__"])) as [->|Hne].
    + rewrite (IH p Hall).
      destruct (decide (p = ["__proto__"])) as [->|Hp]; [reflexivity|].
      now rewrite lookup_insert_ne by congruence.
    + destruct (decide (i = p)) as [->|Hip].
      * rewrite !lookup_insert_eq. now rewrite decide_False by exact Hne.
      * rewrite !lookup_insert_ne by exact Hip. now apply IH.
Qed.

Lemma scan_entries (t : Tree) (p : Path) (h : string) :
  ordinary_names t ->
  (p, h) ∈ map_to_list (scanDirectory t)
  <-> p <> ["__proto__"]
      /\ exists b, files t !! p = Some b /\ h = sha256_hex b.
Proof.
  intros Hn. rewrite elem_of_map_to_list, (scanDirectory_lookup t p Hn).
  destruct (decide (p = ["__proto__"])) as [->|Hp].
  - split; [discriminate|]. now intros [? _].
  - destruct (files t !! p) as [b|]; simpl.
    + split.
      * intros [= <-]. split; [exact Hp|]. now exists b.
      * intros [_ (b' & [= <-] & ->)]. reflexivity.
    + split; [discriminate|]. intros [_ (b' & [=] & _)].
Qed.

(** What a key that is not in a table reads as. *)
Lemma inherited_spec (p : Path) :
  table_get ∅ p = Js.Inherited
  <-> exists name, p = [name] /\ name ∈ Js.object_prototype_members.
Proof.
  unfold table_get. rewrite lookup_empty.
  destruct p as [|name [|? ?]].
  - split; [discriminate|]. intros (? & [=] & _).
  - destruct (bool_decide_reflect (name ∈ Js.object_prototype_members)) as [H|H].
    + split; [|reflexivity]. intros _. now exists name.
    + split; [discriminate|]. intros (? & [= <-] & ?). contradiction.
  - split; [discriminate|]. intros (? & [=] & _).
Qed.

Lemma not_inherited_spec (p : Path) :
  table_get ∅ p <> Js.Inherited -> table_get ∅ p = Js.Undefined.
Proof.
  unfold table_get. rewrite lookup_empty.
  destruct p as [|name [|? ?]]; try reflexivity.
  now destruct (bool_decide _).
Qed.

Lemma table_get_scan (t : Tree) (p : Path) :
  ordinary_names t -> p <> ["__proto__"] ->
  table_get (scanDirectory t) p
  = match files t !! p with
    | Some b => Js.Str (sha256_hex b)
    | None => table_get ∅ p
    end.
Proof.
  intros Hn Hp. unfold table_get at 1.
  rewrite (scanDirectory_lookup t p Hn), decide_False by exact Hp.
  destruct (files t !! p) as [b|]; simpl; [reflexivity|].
  unfold table_get. now rewrite lookup_empty.
Qed.

(** A key is left out of the package exactly when the old tree has a file
    of the same content hash there. *)
Lemma classify_unchanged (oldDir : Tree) (p : Path) (h : string) :
  ordinary_names oldDir -> p <> ["__proto__"] ->
  classify (scanDirectory oldDir) p h = Unchanged
  <-> sha256_hex <$> files oldDir !! p = Some h.
Proof.
  intros Hn Hp. unfold classify. rewrite (table_get_scan oldDir p Hn Hp).
  destruct (files oldDir !! p) as [a|]; simpl.
  - rewrite hash_nonempty. simpl.
    destruct (String.eqb_spec (sha256_hex a) h) as [->|Hne]; simpl.
    + split; reflexivity.
    + split; [discriminate|]. intros [= E]. contradiction.
  - split; [|discriminate].
    unfold table_get. rewrite lookup_empty.
    destruct p as [|name [|? ?]]; simpl; try discriminate.
    destruct (bool_decide _); simpl; discriminate.
Qed.

Section Diff.
Variables oldDir newDir : Tree.
Hypothesis names_old : ordinary_names oldDir.
Hypothesis names_new : ordinary_names newDir.

Lemma picked (c : Change) (p : Path) :
  p ∈ (filter (fun e => classify (scanDirectory oldDir) e.1 e.2 = c)
              (map_to_list (scanDirectory newDir))).*1
  <-> p <> ["__proto__"]
      /\ exists b, files newDir !! p = Some b
                   /\ classify (scanDirectory oldDir) p (sha256_hex b) = c.
Proof.
  rewrite list_elem_of_fmap. split.
  - intros [[p' h] [-> [Hc Hin]%list_elem_of_filter]]. simpl in *.
    apply (scan_entries newDir p' h names_new) in Hin as [Hp [b [Hb ->]]].
    split; [exact Hp|]. now exists b.
  - intros [Hp [b [Hb Hc]]]. exists (p, sha256_hex b). split; [reflexivity|].
    apply list_elem_of_filter. split; [exact Hc|].
    apply (scan_entries newDir p _ names_new). split; [exact Hp|]. now exists b.
Qed.

(** The paths the package ships. *)
Lemma changed_spec (p : Path) :
  p ∈ (added (generateDiff oldDir newDir)
         ++ modified (generateDiff oldDir newDir))%list
  <-> p <> ["__proto__"]
      /\ exists b, files newDir !! p = Some b
                   /\ sha256_hex <$> files oldDir !! p <> Some (sha256_hex b).
Proof.
  unfold generateDiff. cbn [added modified]. rewrite elem_of_app, !picked.
  split.
  - intros [[Hp [b [Hb Hc]]]|[Hp [b [Hb Hc]]]];
      (split; [exact Hp|]; exists b; split; [exact Hb|]);
      intros Hu%(classify_unchanged oldDir p _ names_old Hp); congruence.
  - intros [Hp [b [Hb Hc]]].
    destruct (classify (scanDirectory oldDir) p (sha256_hex b)) eqn:E.
    + left. split; [exact Hp|]. now exists b.
    + right. split; [exact Hp|]. now exists b.
    + now apply (classify_unchanged oldDir p _ names_old Hp) in E.
Qed.

(** The paths the manifest lists as deleted. *)
Lemma deleted_spec (p : Path) :
  p ∈ deleted (generateDiff oldDir newDir)
  <-> p <> ["__proto__"] /\ is_Some (files oldDir !! p)
      /\ files newDir !! p = None /\ table_get ∅ p = Js.Undefined.
Proof.
  unfold generateDiff. cbn [deleted].
  rewrite list_elem_of_filter, list_elem_of_fmap. split.
  - intros [Ht [[p' h] [-> Hin]]]. simpl in *.
    apply (scan_entries oldDir p' h names_old) in Hin as [Hp [a [Ha ->]]].
    rewrite (table_get_scan newDir p' names_new Hp) in Ht.
    split; [exact Hp|]. split; [now exists a|].
    destruct (files newDir !! p') as [b|].
    + simpl in Ht. now rewrite hash_nonempty in Ht.
    + split; [reflexivity|]. apply not_inherited_spec.
      intros E. now rewrite E in Ht.
  - intros (Hp & [a Ha] & Hnew & Hin). split.
    + rewrite (table_get_scan newDir p names_new Hp), Hnew, Hin. reflexivity.
    + exists (p, sha256_hex a). split; [reflexivity|].
      apply (scan_entries oldDir p _ names_old). split; [exact Hp|]. now exists a.
Qed.

End Diff.

(** The entries [archive.file] adds for a list of keys. *)
Lemma archived (newDir : Tree) (l : list Path) (e : Entry) :
  e ∈ flat_map (archive_file newDir) l
  <-> exists p b, e = FileEntry p b /\ p ∈ l /\ stat newDir p = RegularFile b.
Proof.
  rewrite list_elem_of_In, in_flat_map. split.
  - intros [p [Hp Hin]]. unfold archive_file in Hin.
    destruct (stat newDir p) as [b| | |] eqn:Hb; try contradiction.
    destruct Hin as [<-|[]]. exists p, b.
    split; [reflexivity|]. split; [now apply list_elem_of_In|exact Hb].
  - intros (p & b & -> & Hp & Hb). exists p. split; [now apply list_elem_of_In|].
    unfold archive_file. rewrite Hb. now left.
Qed.

Lemma find_nothing {A} (f : A -> bool) (l : list A) :
  (forall x, x ∈ l -> f x = false) -> List.find f l = None.
Proof.
  induction l as [|a l IH]; intros Hl; [reflexivity|].
  simpl. rewrite (Hl a) by left. apply IH. intros x Hx. apply Hl. now right.
Qed.

(** The build completes on ordinary names. *)
Lemma createDiffPackage_built (oldDir newDir : Tree) (timestamp : string) :
  ordinary_names newDir ->
  createDiffPackage_outcome oldDir newDir timestamp
  = Built (createDiffPackage oldDir newDir timestamp).1
          (createDiffPackage oldDir newDir timestamp).2.
Proof.
  intros Hn. unfold createDiffPackage_outcome.
  assert (Hreg : forall k, k ∈ (map_to_list (scanDirectory newDir)).*1 ->
            exists b, stat newDir k = RegularFile b).
  { intros k [[k' h] [-> Hin]]%list_elem_of_fmap.
    apply (scan_entries newDir k' h Hn) in Hin as [_ (b & Hb & _)].
    exists b. now apply stat_file. }
  rewrite find_nothing; cycle 1.
  { intros k [b Hb]%Hreg. unfold missing. now rewrite Hb. }
  rewrite find_nothing; cycle 1.
  { intros k [b Hb]%Hreg. unfold unreadable. now rewrite Hb. }
  now destruct (createDiffPackage oldDir newDir timestamp).
Qed.

(** A package that was built is the one [createDiffPackage] describes, and
    every key of the new table was read as a regular file. *)
Lemma createDiffPackage_outcome_Built (oldDir newDir : Tree)
  (timestamp : string) (info : PackageInfo) (zip : Zip) :
  createDiffPackage_outcome oldDir newDir timestamp = Built info zip ->
  createDiffPackage oldDir newDir timestamp = (info, zip)
  /\ forall k, k ∈ (map_to_list (scanDirectory newDir)).*1 ->
       exists b, stat newDir k = RegularFile b.
Proof.
  unfold createDiffPackage_outcome.
  destruct (List.find (missing newDir) _); [discriminate|].
  destruct (List.find (unreadable newDir) _) eqn:Hfind; [discriminate|].
  destruct (createDiffPackage oldDir newDir timestamp) as [info' zip'].
  intros [= <- <-]. split; [reflexivity|].
  intros k Hk%list_elem_of_In.
  pose proof (find_none _ _ Hfind k Hk) as Hu. unfold unreadable in Hu.
  destruct (stat newDir k) as [b| | |]; try discriminate. now exists b.
Qed.

(** The first loop of [applyDiffPackage] on canonical keys. *)
Lemma remove_deleted_canonical (ks : list Path) (t : Tree) :
  Forall canonical ks -> remove_deleted t ks = inl (foldl remove t ks).
Proof.
  revert t. induction ks as [|k ks IH]; intros t Hks; [reflexivity|].
  apply Forall_cons in Hks as [Hk Hks].
  simpl. rewrite decide_True by exact Hk. now apply IH.
Qed.

Lemma remove_deleted_inl (ks : list Path) (t t' : Tree) :
  remove_deleted t ks = inl t' ->
  Forall canonical ks /\ t' = foldl remove t ks.
Proof.
  revert t. induction ks as [|k ks IH]; intros t; simpl.
  - intros [= <-]. now split.
  - destruct (decide (canonical k)) as [Hk|]; [|discriminate].
    intros [Hks ->]%IH. split; [now constructor|reflexivity].
Qed.

(** The second loop of [applyDiffPackage] on entries that hold files of
    [newDir], started on a tree whose directories are not files of
    [newDir] and whose files are not directories of [newDir]: every write
    succeeds. *)
Lemma extract_files (newDir : Tree) (body : Zip) :
  wf newDir -> ordinary_names newDir ->
  forall t : Tree,
  (forall e, e ∈ body ->
     exists p b, e = FileEntry p b /\ p <> manifest_name
                 /\ files newDir !! p = Some b) ->
  (forall p, is_Some (files newDir !! p) -> p ∉ dirs t) ->
  (forall q, is_Some (files t !! q) -> q ∉ dirs newDir) ->
  exists t', extract t body = inl t'
    /\ forall q, files t' !! q
                 = if decide (q ∈ entryName <$> body) then files newDir !! q
                   else files t !! q.
Proof.
  intros Hwf Hn. induction body as [|e body IH]; intros t Hbody I1 I2.
  - exists t. split; [reflexivity|]. intros q.
    destruct (decide (q ∈ [])) as [H|_]; [now apply elem_of_nil in H|reflexivity].
  - destruct (Hbody e) as (p & b & -> & Hman & Hb); [left|].
    destruct (wf_file newDir p Hwf (mk_is_Some _ _ Hb)) as (Hne & Hnd & Hpar).
    simpl extract. rewrite bool_decide_eq_false_2 by exact Hman.
    rewrite decide_True
      by (destruct (Hn p b Hb); now apply canonical_ordinary).
    unfold ensureDir_parent. rewrite bool_decide_eq_false_2; cycle 1.
    { rewrite Exists_exists. intros (q & Hq & Hsome).
      exact (I2 q Hsome (Hpar q Hq)). }
    unfold writeFile. simpl. rewrite bool_decide_eq_false_2; cycle 1.
    { intros [Hnil|Hin]; [contradiction|].
      apply elem_of_union in Hin as [Hin|Hin]; [exact (I1 p (mk_is_Some _ _ Hb) Hin)|].
      apply elem_of_list_to_set, parents_spec in Hin. tauto. }
    destruct (IH (mkTree (<[p:=b]> (files t)) (dirs t ∪ list_to_set (parents p))))
      as (t' & Hext & Hfiles).
    + intros e' Hin. apply Hbody. now right.
    + intros p' Hp'. simpl. intros [Hin|Hin]%elem_of_union.
      * exact (I1 p' Hp' Hin).
      * apply elem_of_list_to_set in Hin.
        destruct (wf_file newDir p' Hwf Hp') as (_ & Hnd' & _).
        exact (Hnd' (Hpar p' Hin)).
    + intros q. simpl. destruct (decide (p = q)) as [<-|Hpq].
      * intros _. exact Hnd.
      * rewrite lookup_insert_ne by exact Hpq. apply I2.
    + exists t'. split; [exact Hext|]. intros q. rewrite Hfiles. simpl.
      destruct (decide (q ∈ entryName <$> body)) as [Hq|Hq].
      * rewrite decide_True by (now right). reflexivity.
      * destruct (decide (q = p)) as [->|Hqp].
        -- rewrite decide_True by left. now rewrite lookup_insert_eq.
        -- rewrite decide_False by (rewrite elem_of_cons; tauto).
           now rewrite lookup_insert_ne by congruence.
Qed.

(** Entries named like the manifest are never extracted: whatever the
    archive holds, the file at that path is left as it was. *)
Lemma extract_skips_manifest_name (zip : Zip) (t t' : Tree) :
  extract t zip = inl t' ->
  files t' !! manifest_name = files t !! manifest_name.
Proof.
  revert t. induction zip as [|[m|p b] zip IH]; intros t; simpl.
  - now intros [= ->].
  - apply IH.
  - destruct (bool_decide_reflect (p = manifest_name)) as [->|Hne]; [apply IH|].
    destruct (decide (canonical p)); [|discriminate].
    unfold ensureDir_parent. destruct (bool_decide _); [discriminate|].
    unfold writeFile. simpl. destruct (bool_decide _); [discriminate|].
    intros Hext. rewrite (IH _ Hext). simpl.
    now rewrite lookup_insert_ne.
Qed.

End ReconstructionFacts.

(** C4 (as the code has it).  Take two directory trees (empty or not) in
    which no file or directory name on the way to a file contains a
    backslash, such that
    - the file of the new tree named like the manifest, if there is one,
      has the content hash it has in the old tree;
    - a top-level file named [__proto__] has the same content hash in both
      trees or is in neither, and every top-level file of the old tree
      named like another member of [Object.prototype] is a file of the new
      tree too;
    - no file of the new tree sits where the old tree has a directory.
    Then the build of the package completes, applying the package to the
    old tree succeeds, and the result has the file paths and the content
    hashes of the new tree. *)
Theorem C4_reconstruction {sha : Sha256}
  (parse_raw : Bytes -> option Delta.Manifest)
  (oldDir newDir : Delta.Tree) (timestamp : string) :
  Delta.wf oldDir -> Delta.wf newDir ->
  Delta.ordinary_names oldDir -> Delta.ordinary_names newDir ->
  Delta.manifest_name_unchanged oldDir newDir ->
  Delta.prototype_safe oldDir newDir ->
  Delta.no_file_over_dir oldDir newDir ->
  Delta.reconstructs parse_raw oldDir newDir timestamp.
Proof.
  intros Hwfo Hwfn Hno Hnn Hman [Hproto Hmembers] Hover.
  unfold Delta.reconstructs.
  rewrite (createDiffPackage_built oldDir newDir timestamp Hnn).
  exists (Delta.createDiffPackage oldDir newDir timestamp).1,
         (Delta.createDiffPackage oldDir newDir timestamp).2.
  set (d := Delta.generateDiff oldDir newDir).
  set (m := Delta.mkManifest "diff" (Delta.added d) (Delta.modified d)
              (Delta.deleted d) timestamp).
  set (body := flat_map (Delta.archive_file newDir)
                 (Delta.added d ++ Delta.modified d)).
  assert (Hzip : (Delta.createDiffPackage oldDir newDir timestamp).2
                 = Delta.ManifestEntry m :: body) by reflexivity.
  (* a path the old tree has and the new one lacks is listed as deleted *)
  assert (Hgone : forall q, q <> ["__proto__"] ->
            is_Some (Delta.files oldDir !! q) ->
            Delta.files newDir !! q = None -> q ∈ Delta.deleted d).
  { intros q Hq Hold Hnew.
    apply (deleted_spec oldDir newDir Hno Hnn).
    split; [exact Hq|]. split; [exact Hold|]. split; [exact Hnew|].
    apply not_inherited_spec. intros (name & -> & Hin)%inherited_spec.
    rewrite Forall_forall in Hmembers.
    destruct (Hmembers name Hin Hold) as [b Hb]. congruence. }
  assert (Hbody : forall e, e ∈ body ->
            exists p b, e = Delta.FileEntry p b /\ p <> Delta.manifest_name
                        /\ Delta.files newDir !! p = Some b).
  { intros e (p & b & -> & Hp & [_ Hb]%stat_regular)%archived. exists p, b.
    split; [reflexivity|]. split; [|exact Hb]. intros ->.
    apply (changed_spec oldDir newDir Hno Hnn) in Hp as [_ (b' & Hb' & Hne)].
    destruct Hman as [Hnone|Hsame]; [congruence|].
    apply Hne. rewrite Hsame, Hb'. reflexivity. }
  assert (Hnames : forall q, q ∈ Delta.entryName <$> body
                             <-> q ∈ (Delta.added d ++ Delta.modified d)%list).
  { intros q. rewrite list_elem_of_fmap. split.
    - intros [e [-> (p & b & -> & Hp & _)%archived]]. exact Hp.
    - intros Hq. pose proof Hq as [_ (b & Hb & _)]%(changed_spec oldDir newDir Hno Hnn).
      exists (Delta.FileEntry q b). split; [reflexivity|].
      apply archived. exists q, b. split; [reflexivity|]. split; [exact Hq|].
      now apply stat_file. }
  assert (Hget : Delta.getEntry (Delta.ManifestEntry m :: body)
                   Delta.manifest_name = Some (Delta.ManifestEntry m)).
  { unfold Delta.getEntry. rewrite filter_cons_True by reflexivity.
    rewrite filter_none; [reflexivity|].
    intros e Hin Heq. apply Hbody in Hin as (p & b & -> & Hne & _).
    exact (Hne Heq). }
  assert (Hrem : Delta.remove_deleted oldDir (Delta.deleted d)
                 = inl (foldl Delta.remove oldDir (Delta.deleted d))).
  { apply remove_deleted_canonical, Forall_forall.
    intros p (_ & [a Ha] & _)%(deleted_spec oldDir newDir Hno Hnn).
    destruct (Hno p a Ha). now apply canonical_ordinary. }
  destruct (remove_all (Delta.deleted d) oldDir Hwfo) as (Hwf1 & Hd1 & Hf1).
  { intros p (_ & Hs & _)%(deleted_spec oldDir newDir Hno Hnn).
    destruct (wf_file oldDir p Hwfo Hs) as (? & ? & _). now split. }
  (* what is left of the old tree after the deletions is in the new tree *)
  assert (Hkept : forall q a,
            Delta.files oldDir !! q = Some a -> q ∉ Delta.deleted d ->
            is_Some (Delta.files newDir !! q)).
  { intros q a Ha Hnd.
    destruct (Delta.files newDir !! q) as [b|] eqn:Hb; [now exists b|].
    destruct (decide (q = ["__proto__"])) as [->|Hq].
    - rewrite Ha, Hb in Hproto. discriminate Hproto.
    - destruct Hnd. apply Hgone; [exact Hq|now exists a|exact Hb]. }
  destruct (extract_files newDir body Hwfn Hnn
              (foldl Delta.remove oldDir (Delta.deleted d)) Hbody)
    as (t' & Hext & Hfiles).
  { intros p [b Hb]. rewrite Hd1. exact (Hover p b Hb). }
  { intros q. rewrite Hf1.
    destruct (decide (q ∈ Delta.deleted d)) as [_|Hnd]; [now intros [? ?]|].
    intros [a Ha]. destruct (Hkept q a Ha Hnd) as [b Hb].
    destruct (wf_file newDir q Hwfn (mk_is_Some _ _ Hb)) as (_ & H & _).
    exact H. }
  exists t', m. split; [reflexivity|]. split.
  { rewrite Hzip. unfold Delta.applyDiffPackage. rewrite Hget.
    cbn [Delta.m_deleted m].
    rewrite Hrem. cbn [Delta.extract]. now rewrite Hext. }
  unfold Delta.content_identical. apply map_eq. intros q.
  rewrite !lookup_fmap, Hfiles.
  destruct (decide (q ∈ Delta.entryName <$> body)) as [_|Hq]; [reflexivity|].
  rewrite Hnames in Hq. rewrite Hf1.
  destruct (decide (q ∈ Delta.deleted d)) as [Hdel|Hnd].
  - apply (deleted_spec oldDir newDir Hno Hnn) in Hdel as (_ & _ & -> & _).
    reflexivity.
  - destruct (decide (q = ["__proto__"])) as [->|Hproto']; [exact Hproto|].
    destruct (Delta.files newDir !! q) as [b|] eqn:Hb.
    + destruct (decide (sha256_hex <$> Delta.files oldDir !! q
                        = Some (sha256_hex b))) as [E|E]; [exact E|].
      destruct Hq. apply (changed_spec oldDir newDir Hno Hnn).
      split; [exact Hproto'|]. now exists b.
    + destruct (Delta.files oldDir !! q) as [a|] eqn:Ha; [|reflexivity].
      destruct (Hkept q a Ha Hnd) as [b' Hb']. congruence.
Qed.

Ltac by_computation :=
  apply (bool_decide_unpack _); vm_compute; exact I.

(** C4 on the two trees of the example of the specification. *)
Lemma C4_reconstruction_witness :
  @Delta.reconstructs ToySha.sha (fun _ => None) Trees.v1 Trees.v2 "t".
Proof.
  apply (@C4_reconstruction ToySha.sha (fun _ => None) Trees.v1 Trees.v2 "t").
  - by_computation.
  - by_computation.
  - unfold Delta.ordinary_names. by_computation.
  - unfold Delta.ordinary_names. by_computation.
  - left. reflexivity.
  - split; [reflexivity|]. by_computation.
  - unfold Delta.no_file_over_dir. by_computation.
Defined.

(** Deleting paths never brings a file into being. *)
Lemma remove_all_None (D : list Delta.Path) (t : Delta.Tree) (q : Delta.Path) :
  Delta.files t !! q = None -> Delta.files (foldl Delta.remove t D) !! q = None.
Proof.
  revert t. induction D as [|p D IH]; intros t Hq; [exact Hq|].
  simpl. apply IH. unfold Delta.remove. simpl.
  apply map_lookup_filter_None. now left.
Qed.

(** A file of the new tree named like the manifest that the old tree does
    not have never reaches the output, whatever [JSON.parse] makes of its
    bytes. *)
Lemma manifest_named_file_lost {sha : Sha256}
  (parse_raw : Bytes -> option Delta.Manifest)
  (oldDir newDir : Delta.Tree) (timestamp : string) :
  Delta.files oldDir !! Delta.manifest_name = None ->
  is_Some (Delta.files newDir !! Delta.manifest_name) ->
  ~ Delta.reconstructs parse_raw oldDir newDir timestamp.
Proof.
  intros Hold [b Hnew] (info & zip & output & manifest & _ & Happ & Hsame).
  unfold Delta.applyDiffPackage in Happ.
  destruct (Delta.getEntry _ _) as [entry|]; [|discriminate Happ].
  destruct (match entry with
            | Delta.ManifestEntry m => Some m
            | Delta.FileEntry _ data => parse_raw data
            end) as [m|]; [|discriminate Happ].
  destruct (Delta.remove_deleted _ _) as [out1|] eqn:Hrem; [|discriminate Happ].
  apply remove_deleted_inl in Hrem as [_ ->].
  destruct (Delta.extract _ _) as [out|] eqn:Hext; [|discriminate Happ].
  injection Happ as <- _.
  apply extract_skips_manifest_name in Hext.
  rewrite (remove_all_None _ _ _ Hold) in Hext.
  unfold Delta.content_identical in Hsame.
  apply (f_equal (fun f => f !! Delta.manifest_name)) in Hsame.
  rewrite !lookup_fmap, Hext, Hnew in Hsame. discriminate Hsame.
Qed.

(** The other ways a tree is not reconstructed, on small trees: a
    directory replaced by a file, a deleted file named like a member of
    [Object.prototype], and a file with a backslash in its name, which the
    build looks for under another path. *)
Example directory_replaced_by_file :
  exists info zip,
    @Delta.createDiffPackage_outcome ToySha.sha
      (Trees.tree_of [(["a"; "x"], "h1")]) (Trees.tree_of [(["a"], "h2")]) "t"
    = Delta.Built info zip
    /\ Delta.applyDiffPackage (fun _ => None)
         (Trees.tree_of [(["a"; "x"], "h1")]) zip
       = Delta.Failed (Delta.WriteError ["a"]).
Proof. eexists _, _. split; vm_compute; reflexivity. Qed.

Example file_named_constructor_not_deleted :
  Delta.deleted
    (@Delta.generateDiff ToySha.sha
       (Trees.tree_of [(["a"], "h1"); (["constructor"], "h2")])
       (Trees.tree_of [(["a"], "h1")]))
  = [].
Proof. vm_compute. reflexivity. Qed.

Example file_named_with_backslash_rejected :
  @Delta.scanDirectory ToySha.sha (Trees.tree_of [(["a\b"], "h1")])
  = {[ ["a"; "b"] := @sha256_hex ToySha.sha "h1" ]}
  /\ @Delta.createDiffPackage_outcome ToySha.sha
       (Trees.tree_of []) (Trees.tree_of [(["a\b"], "h1")]) "t"
     = Delta.Rejected ["a"; "b"].
Proof. split; vm_compute; reflexivity. Qed.

(** C4, the sentence of the specification refuted: both trees are well
    formed and not empty, the new one holds a file named
    [diff-manifest.json] that the old one does not have, and applying the
    package does not give back the new tree, whatever [JSON.parse] makes of
    that file. *)
Lemma C4_manifest_name_not_reconstructed :
  Delta.wf Trees.v1 /\ Delta.wf Trees.v2_with_manifest
  /\ Delta.files Trees.v1 <> ∅ /\ Delta.files Trees.v2_with_manifest <> ∅
  /\ ~ (exists parse_raw,
          @Delta.reconstructs ToySha.sha parse_raw
            Trees.v1 Trees.v2_with_manifest "t").
Proof.
  split; [by_computation|].
  split; [by_computation|].
  split; [by_computation|].
  split; [by_computation|].
  intros [parse_raw H]. revert H.
  apply manifest_named_file_lost; [reflexivity|].
  now exists "x".
Qed.

(* ===================================================================== *)
(** * Further statements: the server                                      *)
(* ===================================================================== *)

Section ScanFacts.
Import Server.
Context {semver : SemverLib}.

(** What the scan has checked on the release it returns. *)
Lemma findApplicableRelease_Some (rs : list Release) (cv : string)
  (app : option string) (r : Release) :
  findApplicableRelease rs cv app = Some r ->
  r ∈ rs /\ is_current r cv = false /\ not_newer r cv = false
  /\ binary_mismatch r app = false.
Proof.
  induction rs as [|r0 rs IH]; [discriminate|].
  cbn [findApplicableRelease].
  destruct (is_current r0 cv) eqn:E1;
    [intros H; destruct (IH H) as (? & ?); split; [now right|assumption]|].
  destruct (not_newer r0 cv) eqn:E2;
    [intros H; destruct (IH H) as (? & ?); split; [now right|assumption]|].
  destruct (binary_mismatch r0 app) eqn:E3;
    [intros H; destruct (IH H) as (? & ?); split; [now right|assumption]|].
  intros [= <-]. split; [left|easy].
Qed.

Lemma patch_first_scan (v : string) (body : PatchBody) (now : string)
  (rs rs' : list Release) (r' : Release) (cv : string) (app : option string) :
  patch_first v (apply_patch body now) rs = Some (r', rs') ->
  version <$> findApplicableRelease rs' cv app
  = version <$> findApplicableRelease rs cv app.
Proof.
  revert rs' r'. induction rs as [|r rs IH]; intros rs' r'; [discriminate|].
  cbn [patch_first].
  destruct (String.eqb (version r) v).
  - intros [= <- <-]. cbn [findApplicableRelease].
    change (is_current (apply_patch body now r) cv) with (is_current r cv).
    change (not_newer (apply_patch body now r) cv) with (not_newer r cv).
    change (binary_mismatch (apply_patch body now r) app)
      with (binary_mismatch r app).
    now destruct (is_current r cv), (not_newer r cv), (binary_mismatch r app).
  - destruct (patch_first v (apply_patch body now) rs) as [[r1 rs1]|] eqn:E;
      [|discriminate].
    intros [= <- <-]. cbn [findApplicableRelease].
    destruct (is_current r cv); [now apply (IH rs1 r1)|].
    destruct (not_newer r cv); [now apply (IH rs1 r1)|].
    destruct (binary_mismatch r app); [now apply (IH rs1 r1)|reflexivity].
Qed.

Lemma patch_first_shape (v : string) (f : Release -> Release)
  (rs rs' : list Release) (r' : Release) :
  (forall r, version (f r) = version r) ->
  patch_first v f rs = Some (r', rs') ->
  version <$> rs' = version <$> rs /\ version r' = v /\ r' ∈ rs'
  /\ exists r, r ∈ rs /\ r' = f r.
Proof.
  intros Hf. revert rs' r'. induction rs as [|r rs IH]; intros rs' r'; [discriminate|].
  cbn [patch_first]. destruct (String.eqb_spec (version r) v) as [E|E].
  - intros [= <- <-].
    split; [rewrite !fmap_cons; f_equal; apply Hf|].
    split; [now rewrite Hf|]. split; [left|].
    exists r. split; [left|reflexivity].
  - destruct (patch_first v f rs) as [[r1 rs1]|] eqn:E'; [|discriminate].
    intros [= <- <-]. destruct (IH rs1 r1 eq_refl) as (H1 & H2 & H3 & r0 & H4 & H5).
    split; [rewrite !fmap_cons; f_equal; exact H1|].
    split; [exact H2|]. split; [now right|].
    exists r0. split; [now right|exact H5].
Qed.

Lemma patch_first_None (v : string) (f : Release -> Release) (rs : list Release) :
  patch_first v f rs = None <-> v ∉ version <$> rs.
Proof.
  induction rs as [|r rs IH]; cbn [patch_first].
  - split; [intros _; apply not_elem_of_nil|reflexivity].
  - rewrite fmap_cons, not_elem_of_cons.
    destruct (String.eqb_spec (version r) v) as [E|E].
    + split; [discriminate|]. intros [H _]. congruence.
    + destruct (patch_first v f rs) as [[r1 rs1]|].
      * split; [discriminate|]. intros [_ H]. now apply IH in H.
      * split; [|reflexivity]. intros _. split; [congruence|now apply IH].
Qed.

End ScanFacts.

(** X1.  Whatever the handler offers is a release stored in the scope of the
    request; its version is not the client's current version, it is not
    disabled, and either its rollout is 100 or more or the draw fell below
    it. *)
Theorem X1_offer_is_sound {semver : SemverLib} {sha : Sha256}
  (d : Server.Data) (random : Q) (req : Server.CheckRequest)
  (info : Server.UpdateInfo) :
  Server.check_update d random req = Server.UpdateAvailable info ->
  exists key r,
    Server.header_deployment_key req = Some key
    /\ r ∈ Server.getReleasesForKey d key (Server.req_platform req)
    /\ Server.u_version info = Server.version r
    /\ Server.version r <> Server.currentVersion req
    /\ Js.truthy_bool (Server.disabled r) = false
    /\ (100 <= Server.rollout r
        \/ Server.shouldReceive random (Server.rollout r) = true).
Proof.
  unfold Server.check_update.
  destruct (Server.header_deployment_key req) as [key|]; [|discriminate].
  destruct (negb (Js.truthy_string (Some key))); [discriminate|].
  destruct (Server.getReleasesForKey d key (Server.req_platform req))
    as [|r0 rs] eqn:Hrs; [discriminate|].
  destruct (Server.findApplicableRelease (r0 :: rs) _ _) as [r|] eqn:Hsel;
    [|discriminate].
  apply findApplicableRelease_Some in Hsel as (Hin & Hcur & _ & _).
  destruct ((Server.rollout r <? 100)
            && negb (Server.shouldReceive random (Server.rollout r))) eqn:Hgate;
    [discriminate|].
  destruct (Js.truthy_bool (Server.disabled r)) eqn:Hdis; [discriminate|].
  intros Hinfo. exists key, r.
  split; [reflexivity|]. split; [rewrite Hrs; exact Hin|].
  split; [destruct (Server.findDiffPackage _ _ _ _ _);
          injection Hinfo as <-; reflexivity|].
  split.
  { unfold Server.is_current in Hcur.
    now destruct (String.eqb_spec (Server.version r) (Server.currentVersion req)). }
  split; [exact Hdis|].
  apply andb_false_iff in Hgate as [H|H].
  - left. apply Z.ltb_ge in H. exact H.
  - right. now destruct (Server.shouldReceive random (Server.rollout r)).
Qed.

Lemma X1_offer_is_sound_witness :
  exists key r,
    Server.header_deployment_key Scenario.request = Some key
    /\ r ∈ Server.getReleasesForKey Scenario.scope key "android"
    /\ "2.0.0" = Server.version r
    /\ Server.version r <> "1.0.0"
    /\ Js.truthy_bool (Server.disabled r) = false
    /\ (100 <= Server.rollout r
        \/ Server.shouldReceive (1 # 2) (Server.rollout r) = true).
Proof.
  exact (@X1_offer_is_sound PlainSemver.lib ToySha.sha Scenario.scope (1 # 2)
           Scenario.request _ eq_refl).
Defined.

(** X2.  When the scan returns a release and both its version and the
    current version are valid semver, the release is strictly newer; and
    when the release has a target range other than ['*'] and the request
    carries an [appVersion], that version satisfies the range. *)
Theorem X2_selected_is_newer_and_targeted {semver : SemverLib}
  (rs : list Server.Release) (cv : string) (app : option string)
  (r : Server.Release) :
  Server.findApplicableRelease rs cv app = Some r ->
  (semver_valid (Server.version r) = true -> semver_valid cv = true ->
   semver_gt (Server.version r) cv = true)
  /\ (forall range a,
        Server.targetBinaryVersion r = Some range -> app = Some a ->
        range <> "" -> range <> "*" -> a <> "" ->
        semver_satisfies a range = true).
Proof.
  intros (_ & _ & Hnew & Hbin)%findApplicableRelease_Some. split.
  - intros H1 H2. unfold Server.not_newer in Hnew. rewrite H1, H2 in Hnew.
    now destruct (semver_gt (Server.version r) cv).
  - intros range a Hr -> Hne Hstar Ha. unfold Server.binary_mismatch in Hbin.
    rewrite Hr in Hbin. simpl in Hbin.
    destruct (String.eqb_spec range ""); [contradiction|].
    destruct (String.eqb_spec range "*"); [contradiction|].
    destruct (String.eqb_spec a ""); [contradiction|].
    simpl in Hbin. now destruct (semver_satisfies a range).
Qed.

Lemma X2_selected_is_newer_and_targeted_witness :
  (PlainSemver.valid "2.0.0" = true -> PlainSemver.valid "1.0.0" = true ->
   PlainSemver.gt "2.0.0" "1.0.0" = true)
  /\ (forall range a,
        Server.targetBinaryVersion Scenario.targeted = Some range ->
        Some "3.1.0" = Some a ->
        range <> "" -> range <> "*" -> a <> "" ->
        PlainSemver.satisfies a range = true).
Proof.
  exact (@X2_selected_is_newer_and_targeted PlainSemver.lib
           [Scenario.targeted] "1.0.0" (Some "3.1.0") Scenario.targeted eq_refl).
Defined.

(** X3.  The newest admissible release wins: what the scan finds in a list
    is what it finds in any longer list that starts with it, and only when
    it finds nothing does it go on to the rest. *)
Theorem X3_first_admissible_wins {semver : SemverLib}
  (rs older : list Server.Release) (cv : string) (app : option string) :
  Server.findApplicableRelease (rs ++ older) cv app
  = match Server.findApplicableRelease rs cv app with
    | Some r => Some r
    | None => Server.findApplicableRelease older cv app
    end.
Proof.
  induction rs as [|r rs IH]; [reflexivity|].
  rewrite <- app_comm_cons. cbn [Server.findApplicableRelease].
  destruct (Server.is_current r cv); [exact IH|].
  destruct (Server.not_newer r cv); [exact IH|].
  destruct (Server.binary_mismatch r app); [exact IH|reflexivity].
Qed.



(** X5.  A successful PATCH keeps the list of versions of the scope as it
    was (same length, same order), returns the edited record of the version
    asked for with [updatedAt] set, and does not change which version the
    scan selects for any client. *)
Theorem X5_patch_keeps_versions_and_selection {semver : SemverLib}
  (d d' : Server.Data) (key platform v : string) (body : Server.PatchBody)
  (now : string) (r' : Server.Release) :
  Server.patch_release d key platform v body now = (Server.Patched r', d') ->
  Server.version <$> Server.getReleasesForKey d' key platform
  = Server.version <$> Server.getReleasesForKey d key platform
  /\ Server.version r' = v
  /\ Server.updatedAt r' = Some now
  /\ r' ∈ Server.getReleasesForKey d' key platform
  /\ Server.packages d' = Server.packages d
  /\ forall cv app,
       Server.version <$> Server.findApplicableRelease
                            (Server.getReleasesForKey d' key platform) cv app
       = Server.version <$> Server.findApplicableRelease
                              (Server.getReleasesForKey d key platform) cv app.
Proof.
  unfold Server.patch_release, Server.getReleasesForKey.
  destruct (Server.releases d !! Server.releasesFile key platform) as [rs|] eqn:Hrs;
    [|discriminate].
  destruct (Server.patch_first v (Server.apply_patch body now) rs)
    as [[r1 rs1]|] eqn:Hp; [|discriminate].
  intros [= <- <-]. cbn. rewrite lookup_insert_eq.
  destruct (patch_first_shape v (Server.apply_patch body now) rs rs1 r1
              (fun _ => eq_refl) Hp)
    as (H1 & H2 & H3 & r0 & _ & ->).
  repeat split; try assumption.
  intros cv app. exact (patch_first_scan v body now rs rs1 _ cv app Hp).
Qed.

Lemma X5_patch_keeps_versions_and_selection_witness :
  Server.version <$> Server.getReleasesForKey Scenario.patched_scope "key" "android"
  = Server.version <$> Server.getReleasesForKey Scenario.scope "key" "android"
  /\ Server.version (Server.apply_patch Scenario.disable "t3" Scenario.r200) = "2.0.0"
  /\ Server.updatedAt (Server.apply_patch Scenario.disable "t3" Scenario.r200)
     = Some "t3"
  /\ Server.apply_patch Scenario.disable "t3" Scenario.r200
       ∈ Server.getReleasesForKey Scenario.patched_scope "key" "android"
  /\ Server.packages Scenario.patched_scope = Server.packages Scenario.scope
  /\ forall cv app,
       Server.version <$> @Server.findApplicableRelease PlainSemver.lib
                            (Server.getReleasesForKey Scenario.patched_scope
                               "key" "android") cv app
       = Server.version <$> @Server.findApplicableRelease PlainSemver.lib
                              (Server.getReleasesForKey Scenario.scope
                                 "key" "android") cv app.
Proof.
  exact (@X5_patch_keeps_versions_and_selection PlainSemver.lib
           Scenario.scope Scenario.patched_scope "key" "android" "2.0.0"
           Scenario.disable "t3" _ eq_refl).
Defined.

(** X6.  A PATCH succeeds exactly when the scope has a release file in
    which some release carries the version asked for; when it does not
    succeed, nothing stored changes. *)
Theorem X6_patch_fails_without_change (d : Server.Data)
  (key platform v : string) (body : Server.PatchBody) (now : string) :
  let result := Server.patch_release d key platform v body now in
  ((exists r', result.1 = Server.Patched r')
   <-> exists rs, Server.releases d !! Server.releasesFile key platform = Some rs
                  /\ v ∈ Server.version <$> rs)
  /\ ((forall r', result.1 <> Server.Patched r') -> result.2 = d).
Proof.
  cbv zeta. unfold Server.patch_release.
  destruct (Server.releases d !! Server.releasesFile key platform) as [rs|].
  - destruct (Server.patch_first v (Server.apply_patch body now) rs)
      as [[r1 rs1]|] eqn:Hp.
    + split.
      * split; [|intros _; now exists r1].
        intros _. exists rs. split; [reflexivity|].
        destruct (decide (v ∈ Server.version <$> rs)) as [H|H]; [exact H|].
        apply (patch_first_None v (Server.apply_patch body now)) in H. congruence.
      * intros H. now destruct (H r1).
    + split; [|reflexivity]. split; [intros [? [=]]|].
      intros (rs0 & [= <-] & Hin).
      now apply (patch_first_None v (Server.apply_patch body now)) in Hp.
  - split; [|reflexivity]. split; [intros [? [=]]|intros (? & [=] & _)].
Qed.

(** X7.  An offer is marked [isDiff] exactly when the package store holds
    the delta file from the client's version to the offered one; it then
    carries the size and the digest of that file, and otherwise those of
    the full package as recorded at publication. *)
Theorem X7_delta_preferred {semver : SemverLib} {sha : Sha256}
  (d : Server.Data) (random : Q) (req : Server.CheckRequest) (key : string)
  (info : Server.UpdateInfo) :
  Server.header_deployment_key req = Some key ->
  Server.check_update d random req = Server.UpdateAvailable info ->
  let file :=
    key ++ "-" ++ Server.req_platform req ++ "-diff-"
      ++ Server.currentVersion req ++ "-to-" ++ Server.u_version info ++ ".zip" in
  match Server.packages d !! file with
  | Some bytes =>
      Server.u_isDiff info = true
      /\ Server.u_hash info = sha256_hex bytes
      /\ Server.u_size info = Z.of_nat (String.length bytes)
      /\ Server.u_downloadUrl info
         = Server.downloadUrl (Server.header_host req) file
  | None =>
      Server.u_isDiff info = false
      /\ exists r,
           r ∈ Server.getReleasesForKey d key (Server.req_platform req)
           /\ Server.u_hash info = Server.hash r
           /\ Server.u_size info = Server.size r
           /\ Server.u_downloadUrl info
              = Server.downloadUrl (Server.header_host req) (Server.filename r)
  end.
Proof.
  intros Hkey. unfold Server.check_update. rewrite Hkey.
  destruct (negb (Js.truthy_string (Some key))); [discriminate|].
  destruct (Server.getReleasesForKey d key (Server.req_platform req))
    as [|r0 rs] eqn:Hrs; [discriminate|].
  destruct (Server.findApplicableRelease (r0 :: rs) _ _) as [r|] eqn:Hsel;
    [|discriminate].
  apply findApplicableRelease_Some in Hsel as (Hin & _).
  destruct (_ && _); [discriminate|].
  destruct (Js.truthy_bool (Server.disabled r)); [discriminate|].
  unfold Server.findDiffPackage.
  destruct (Server.packages d !! _) as [bytes|] eqn:Hpk;
    intros [= <-]; cbn; rewrite Hpk; [easy|].
  split; [reflexivity|]. now exists r.
Qed.

Lemma X7_delta_preferred_witness :
  exists info,
    @Server.check_update PlainSemver.lib ToySha.sha Scenario.scope (1 # 2)
      Scenario.request = Server.UpdateAvailable info
    /\ Server.u_isDiff info = false
    /\ exists r,
         r ∈ Server.getReleasesForKey Scenario.scope "key" "android"
         /\ Server.u_hash info = Server.hash r
         /\ Server.u_size info = Server.size r
         /\ Server.u_downloadUrl info
            = Server.downloadUrl "updates.example" (Server.filename r).
Proof.
  eexists. split; [reflexivity|].
  exact (@X7_delta_preferred PlainSemver.lib ToySha.sha Scenario.scope (1 # 2)
           Scenario.request "key" _ eq_refl eq_refl).
Defined.

(** X8.  For a selected release that is not disabled, the handler makes an
    offer exactly when the rollout is 100 or more, or the product of the
    draw and 100, as the machine computes it, is below the rollout. *)
Theorem X8_rollout_gate {semver : SemverLib} {sha : Sha256}
  (d : Server.Data) (random : Q) (req : Server.CheckRequest)
  (key : string) (r : Server.Release) :
  Server.header_deployment_key req = Some key ->
  key <> "" ->
  Server.findApplicableRelease
    (Server.getReleasesForKey d key (Server.req_platform req))
    (Server.currentVersion req) (Server.appVersion req) = Some r ->
  Js.truthy_bool (Server.disabled r) = false ->
  (exists info, Server.check_update d random req = Server.UpdateAvailable info)
  <-> (100 <= Server.rollout r
       \/ (Double.mul random 100 < inject_Z (Server.rollout r))%Q).
Proof.
  intros Hkey Hne Hsel Hen.
  assert (Htruthy : Js.truthy_string (Some key) = true).
  { simpl. destruct (String.eqb_spec key ""); [contradiction|reflexivity]. }
  unfold Server.check_update. rewrite Hkey, Htruthy. cbn [negb].
  destruct (Server.getReleasesForKey d key (Server.req_platform req))
    as [|r0 rs] eqn:Hrs; [discriminate Hsel|].
  rewrite Hsel, Hen. unfold Server.shouldReceive.
  destruct (Z.ltb_spec (Server.rollout r) 100) as [Hlt|Hge];
    [destruct (Qlt_le_dec (Double.mul random 100) (inject_Z (Server.rollout r)))
       as [Hd|Hd]|];
    cbn [negb andb].
  - split; [intros _; now right|intros _].
    destruct (Server.findDiffPackage _ _ _ _ _); eexists; reflexivity.
  - split; [intros [? [=]]|].
    intros [H|H]; [lia|]. exfalso. exact (Qlt_not_le _ _ H Hd).
  - split; [intros _; now left|intros _].
    destruct (Server.findDiffPackage _ _ _ _ _); eexists; reflexivity.
Qed.

Lemma X8_rollout_gate_witness :
  (exists info,
      @Server.check_update PlainSemver.lib ToySha.sha Scenario.closed_scope
        (1 # 2) Scenario.request = Server.UpdateAvailable info)
  <-> (100 <= 0 \/ (Double.mul (1 # 2) 100 < inject_Z 0)%Q).
Proof.
  exact (@X8_rollout_gate PlainSemver.lib ToySha.sha Scenario.closed_scope
           (1 # 2) Scenario.request "key" Scenario.closed
           eq_refl ltac:(discriminate) eq_refl eq_refl).
Defined.

(** What a successful publication consists of. *)
Lemma publish_Published (parseInt : string -> option Z)
  (d d' : Server.Data) (deploymentKey appKey : option string)
  (parts : list Publish.Part) (now_ms now_iso : string) (r : Server.Release) :
  Publish.publish parseInt d deploymentKey appKey parts now_ms now_iso
  = (Publish.Published r, d') ->
  exists key data v p h,
    deploymentKey = Some key /\ key <> ""
    /\ Publish.fileData (Publish.read_parts parts) = Some data
    /\ let field k := Publish.metadata (Publish.read_parts parts) !! k in
       let file := (Publish.show appKey ++ "-" ++ p ++ "-" ++ v ++ "-"
                      ++ now_ms ++ ".zip")%string in
       r = Server.mkRelease v p file h (Z.of_nat (String.length data))
             (Publish.or_else (field "description") "")
             (match field "mandatory" with
              | Some m => String.eqb m "true"
              | None => false
              end)
             (Publish.stored_rollout parseInt (field "rollout"))
             (Some (Publish.or_else (field "targetBinaryVersion") "*"))
             (Some false) now_iso key None
       /\ d' = Server.saveRelease
                 (Server.mkData (Server.releases d)
                    (<[file := data]> (Server.packages d)))
                 key p r.
Proof.
  unfold Publish.publish.
  destruct deploymentKey as [key|]; [|discriminate].
  cbn [Js.truthy_string].
  destruct (String.eqb_spec key "") as [->|Hkey]; [discriminate|].
  cbn [negb orb].
  destruct (negb (Js.truthy_string appKey)); [discriminate|].
  destruct (Publish.fileData (Publish.read_parts parts)) as [data|]; [|discriminate].
  destruct (Publish.metadata (Publish.read_parts parts) !! "version") as [v|];
    [|discriminate].
  destruct (Publish.metadata (Publish.read_parts parts) !! "platform") as [p|];
    [|discriminate].
  destruct (Publish.metadata (Publish.read_parts parts) !! "hash") as [h|];
    [|discriminate].
  intros [= <- <-]. exists key, data, v, p, h. cbn. easy.
Qed.

(** X9.  Every release the publish route stores has a rollout other than 0
    (a field of 0, a field that is not a number and a missing field all give
    100), is enabled, has a non-empty target range (['*'] by default) and
    no [updatedAt]; it is the newest entry of its scope, in front of the
    previous ones, and the uploaded bytes are stored under its file name. *)
Theorem X9_published_release_shape (parseInt : string -> option Z)
  (d d' : Server.Data) (deploymentKey appKey : option string)
  (parts : list Publish.Part) (now_ms now_iso : string) (r : Server.Release) :
  Publish.publish parseInt d deploymentKey appKey parts now_ms now_iso
  = (Publish.Published r, d') ->
  Server.rollout r <> 0
  /\ Server.disabled r = Some false
  /\ (exists range, Server.targetBinaryVersion r = Some range /\ range <> "")
  /\ Server.updatedAt r = None
  /\ (exists key, deploymentKey = Some key /\ key <> ""
        /\ Server.deploymentKey r = key
        /\ Server.getReleasesForKey d' key (Server.platform r)
           = r :: Server.getReleasesForKey d key (Server.platform r))
  /\ (exists data, Publish.fileData (Publish.read_parts parts) = Some data
        /\ Server.packages d' !! Server.filename r = Some data
        /\ Server.size r = Z.of_nat (String.length data)).
Proof.
  intros (key & data & v & p & h & -> & Hkey & Hdata & Hr & Hd)%publish_Published.
  cbv zeta in Hr, Hd. subst r d'. cbn.
  split; [|split; [reflexivity|split; [|split; [reflexivity|split]]]].
  - unfold Publish.stored_rollout.
    destruct (match Publish.metadata (Publish.read_parts parts) !! "rollout" with
              | Some s => parseInt s
              | None => None
              end) as [[|n1|n2]|]; discriminate.
  - eexists. split; [reflexivity|]. unfold Publish.or_else.
    destruct (Publish.metadata (Publish.read_parts parts) !! "targetBinaryVersion")
      as [t|]; [|discriminate].
    destruct (String.eqb_spec t ""); [discriminate|assumption].
  - exists key. repeat split; [exact Hkey|].
    unfold Server.getReleasesForKey. cbn. now rewrite lookup_insert_eq.
  - exists data. repeat split; [exact Hdata|]. apply lookup_insert_eq.
Qed.

Lemma X9_published_release_shape_witness :
  Server.rollout Upload.release <> 0
  /\ Server.disabled Upload.release = Some false
  /\ (exists range,
        Server.targetBinaryVersion Upload.release = Some range /\ range <> "")
  /\ Server.updatedAt Upload.release = None
  /\ (exists key, Some "key" = Some key /\ key <> ""
        /\ Server.deploymentKey Upload.release = key
        /\ Server.getReleasesForKey Upload.stored.2 key
             (Server.platform Upload.release)
           = Upload.release
               :: Server.getReleasesForKey Scenario.scope key
                    (Server.platform Upload.release))
  /\ (exists data,
        Publish.fileData (Publish.read_parts Upload.parts) = Some data
        /\ Server.packages Upload.stored.2 !! Server.filename Upload.release
           = Some data
        /\ Server.size Upload.release = Z.of_nat (String.length data)).
Proof.
  exact (X9_published_release_shape Upload.no_number Scenario.scope
           Upload.stored.2 (Some "key") (Some "app") Upload.parts
           "1700000000000" "t4" Upload.release eq_refl).
Defined.

(** X10.  A release published without a [rollout] field is offered at the
    next check, whatever the draw, to every client of its scope that sends
    no [appVersion] and whose version differs from it and is not newer or
    equal under semver. *)
Theorem X10_published_release_is_offered {semver : SemverLib} {sha : Sha256}
  (parseInt : string -> option Z) (d d' : Server.Data)
  (key : string) (appKey : option string) (parts : list Publish.Part)
  (now_ms now_iso : string) (r : Server.Release)
  (random : Q) (host cv : string) :
  Publish.publish parseInt d (Some key) appKey parts now_ms now_iso
  = (Publish.Published r, d') ->
  Publish.metadata (Publish.read_parts parts) !! "rollout" = None ->
  Server.version_admits cv r = true ->
  exists info,
    Server.check_update d' random
      (Server.mkCheckRequest (Some key) host cv (Server.platform r) None)
    = Server.UpdateAvailable info
    /\ Server.u_version info = Server.version r.
Proof.
  intros (key' & data & v & p & h & [= <-] & Hkey & _ & Hr & Hd)%publish_Published
         Hroll Hadm.
  cbv zeta in Hr, Hd. rewrite Hroll in Hr.
  assert (Hlist : Server.getReleasesForKey d' key (Server.platform r)
                  = r :: Server.getReleasesForKey d key (Server.platform r)).
  { rewrite Hd. replace (Server.platform r) with p by (now rewrite Hr).
    unfold Server.getReleasesForKey. cbn. now rewrite lookup_insert_eq. }
  assert (Hrollout : Server.rollout r = 100) by (now rewrite Hr).
  assert (Hdis : Server.disabled r = Some false) by (now rewrite Hr).
  unfold Server.check_update. cbn.
  destruct (String.eqb_spec key ""); [contradiction|]. cbn [negb].
  rewrite Hlist. cbn [Server.findApplicableRelease].
  unfold Server.version_admits in Hadm.
  apply andb_true_iff in Hadm as [H1 H2].
  apply negb_true_iff in H1, H2. rewrite H1, H2.
  rewrite binary_mismatch_no_appVersion, Hrollout, Hdis. cbn.
  destruct (Server.findDiffPackage _ _ _ _ _); eexists; split; reflexivity.
Qed.

Lemma X10_published_release_is_offered_witness :
  exists info,
    @Server.check_update PlainSemver.lib ToySha.sha Upload.stored.2 (1 # 2)
      (Server.mkCheckRequest (Some "key") "updates.example" "2.0.0"
         (Server.platform Upload.release) None)
    = Server.UpdateAvailable info
    /\ Server.u_version info = Server.version Upload.release.
Proof.
  exact (@X10_published_release_is_offered PlainSemver.lib ToySha.sha
           Upload.no_number Scenario.scope Upload.stored.2 "key" (Some "app")
           Upload.parts "1700000000000" "t4" Upload.release (1 # 2)
           "updates.example" "2.0.0" eq_refl eq_refl eq_refl).
Defined.

(* ===================================================================== *)
(** * Further statements: the delta engine                                *)
(* ===================================================================== *)

Section DiffFacts.
Import Delta.
Context {sha : Sha256}.

Lemma filter_all {A} (P : A -> Prop) `{forall x, Decision (P x)} (l : list A) :
  (forall x, x ∈ l -> P x) -> filter P l = l.
Proof.
  induction l as [|a l IH]; intros Hl; [reflexivity|].
  rewrite filter_cons_True by (apply Hl; left).
  f_equal. apply IH. intros x Hx. apply Hl. now right.
Qed.

(** Sorting a list into the three classes loses and repeats nothing. *)
Lemma classes_permutation {A} (c : A -> Change) (l : list A) :
  l ≡ₚ filter (fun x => c x = Added) l
       ++ filter (fun x => c x = Modified) l
       ++ filter (fun x => c x = Unchanged) l.
Proof.
  induction l as [|a l IH]; [reflexivity|].
  rewrite !filter_cons.
  destruct (c a) eqn:E; repeat case_decide; try congruence.
  - simpl. now constructor.
  - rewrite <- app_comm_cons. now apply Permutation_cons_app.
  - rewrite app_assoc. apply Permutation_cons_app. now rewrite <- app_assoc.
Qed.

Lemma scan_key (t : Tree) (p : Path) :
  ordinary_names t ->
  p ∈ (map_to_list (scanDirectory t)).*1
  <-> p <> ["__proto__"] /\ is_Some (files t !! p).
Proof.
  intros Hn. rewrite list_elem_of_fmap. split.
  - intros [[p' h] [-> [Hp (b & Hb & _)]%(scan_entries t p' h Hn)]].
    split; [exact Hp|]. now exists b.
  - intros [Hne [b Hb]]. exists (p, sha256_hex b). split; [reflexivity|].
    apply (scan_entries t p _ Hn). split; [exact Hne|]. now exists b.
Qed.

Lemma diff_lists (oldDir newDir : Tree) :
  (map_to_list (scanDirectory newDir)).*1
  ≡ₚ added (generateDiff oldDir newDir)
       ++ modified (generateDiff oldDir newDir)
       ++ unchanged (generateDiff oldDir newDir).
Proof.
  unfold generateDiff. cbn.
  rewrite <- !fmap_app.
  apply fmap_Permutation, classes_permutation.
Qed.

(** A key listed as deleted is a key of the old table and not one of the
    new table. *)
Lemma deleted_inv (oldDir newDir : Tree) (p : Path) :
  p ∈ deleted (generateDiff oldDir newDir) ->
  p ∈ (map_to_list (scanDirectory oldDir)).*1
  /\ p ∉ (map_to_list (scanDirectory newDir)).*1.
Proof.
  unfold generateDiff. cbn. intros [Hf Hin]%list_elem_of_filter.
  split; [exact Hin|].
  intros [[p' h] [-> Hh%elem_of_map_to_list]]%list_elem_of_fmap.
  destruct (scanDirectory_digest newDir p' h Hh) as [b ->].
  unfold table_get in Hf. cbn [fst] in Hf. rewrite Hh in Hf. simpl in Hf.
  now rewrite hash_nonempty in Hf.
Qed.

Lemma sumZ_cons (z : Z) (l : list Z) : sumZ (z :: l) = z + sumZ l.
Proof. reflexivity. Qed.

Lemma sumZ_filter_le {A} (f : A -> Z) (P : A -> Prop)
  `{forall x, Decision (P x)} (l : list A) :
  (forall x, 0 <= f x) ->
  0 <= sumZ (f <$> filter P l) <= sumZ (f <$> l).
Proof.
  intros Hf. induction l as [|a l IH]; [cbn; lia|].
  rewrite filter_cons. pose proof (Hf a).
  destruct (decide (P a)); rewrite ?fmap_cons, ?sumZ_cons; lia.
Qed.

Lemma file_size_nonneg (t : Tree) (p : Path) : 0 <= file_size t p.
Proof. unfold file_size. destruct (stat t p); lia. Qed.

Lemma savedPercentOf_bounds (full part : Z) :
  0 <= part <= full -> 0 <= savedPercentOf full part <= 100.
Proof.
  intros [H0 H1]. unfold savedPercentOf.
  destruct (Z.ltb_spec 0 full) as [Hpos|_]; [|lia].
  unfold round, Double.mul, Double.sub, Double.div.
  assert (Hf : (0 < inject_Z full)%Q).
  { change (inject_Z 0 < inject_Z full)%Q. now rewrite <- Zlt_Qlt. }
  set (t := (inject_Z part / inject_Z full)%Q).
  assert (Ht0 : (0 <= t)%Q).
  { apply Qle_shift_div_l; [exact Hf|]. rewrite Qmult_0_l.
    change (inject_Z 0 <= inject_Z part)%Q. now rewrite <- Zle_Qle. }
  assert (Ht1 : (t <= 1)%Q).
  { apply Qle_shift_div_r; [exact Hf|]. rewrite Qmult_1_l.
    now rewrite <- Zle_Qle. }
  clearbody t. clear -Ht0 Ht1.
  pose proof (round_nonneg t Ht0) as Hq0.
  pose proof (round_le_int t 1 ltac:(lia) Ht1) as Hq1.
  set (q := Double.round t) in *. clearbody q. clear t Ht0 Ht1.
  change (inject_Z 1) with 1%Q in Hq1.
  assert (Hs0 : (0 <= Double.round (1 - q))%Q) by (apply round_nonneg; lra).
  assert (Hs1 : (Double.round (1 - q) <= 1)%Q).
  { apply (round_le_int _ 1); [lia|]. change (inject_Z 1) with 1%Q. lra. }
  set (u := Double.round (1 - q)) in *. clearbody u. clear q Hq0 Hq1.
  assert (Hp0 : (0 <= Double.round (u * 100))%Q) by (apply round_nonneg; lra).
  assert (Hp1 : (Double.round (u * 100) <= inject_Z 100)%Q).
  { apply (round_le_int _ 100); [lia|]. change (inject_Z 100) with (100 # 1). lra. }
  set (v := Double.round (u * 100)) in *. clearbody v. clear u Hs0 Hs1.
  change (inject_Z 100) with (100 # 1) in Hp1.
  split.
  - apply (Z.le_trans _ (Qfloor (1 # 2))); [vm_compute; discriminate|].
    apply Qfloor_resp_le. lra.
  - apply (Z.le_trans _ (Qfloor (201 # 2))); [|vm_compute; discriminate].
    apply Qfloor_resp_le. lra.
Qed.

Lemma savedPercentOf_everything_sent (full : Z) : savedPercentOf full full = 0.
Proof.
  unfold savedPercentOf. destruct (Z.ltb_spec 0 full) as [Hpos|_]; [|reflexivity].
  unfold Double.div.
  rewrite (round_proper (inject_Z full / inject_Z full) 1); [reflexivity|].
  apply Qmult_inv_r. intros H. apply (Qlt_irrefl 0). rewrite <- H at 2.
  change (inject_Z 0 < inject_Z full)%Q. now rewrite <- Zlt_Qlt.
Qed.

Lemma archived_names (newDir : Tree) (l : list Path) :
  (forall p, p ∈ l -> exists b, stat newDir p = RegularFile b) ->
  entryName <$> flat_map (archive_file newDir) l = l.
Proof.
  induction l as [|p l IH]; intros Hl; [reflexivity|].
  destruct (Hl p) as [b Hb]; [left|].
  cbn [flat_map]. unfold archive_file at 1. rewrite Hb. cbn.
  f_equal. apply IH. intros q Hq. apply Hl. now right.
Qed.




(** Without files on one side the table of that side is empty. *)
Lemma scanDirectory_no_files (t : Tree) : files t = ∅ -> scanDirectory t = ∅.
Proof. intros H. unfold scanDirectory. rewrite H. apply map_fold_empty. Qed.

Lemma plain_not_inherited (p : Path) : plain p -> table_get ∅ p = Js.Undefined.
Proof.
  intros Hp. apply not_inherited_spec.
  intros (name & -> & Hin)%inherited_spec. exact (Hp Hin).
Qed.

End DiffFacts.

(** The three lists of kept keys, and the deleted ones. *)
Lemma kept_and_deleted {sha : Sha256} (oldDir newDir : Delta.Tree) :
  let d := Delta.generateDiff oldDir newDir in
  let kept := (Delta.added d ++ Delta.modified d ++ Delta.unchanged d)%list in
  NoDup kept
  /\ (forall p, p ∈ kept <-> p ∈ (map_to_list (Delta.scanDirectory newDir)).*1)
  /\ NoDup (Delta.deleted d)
  /\ forall p, p ∈ Delta.deleted d -> p ∉ kept.
Proof.
  cbv zeta. pose proof (diff_lists oldDir newDir) as Hperm.
  split; [|split; [|split]].
  - rewrite <- Hperm. apply NoDup_fst_map_to_list.
  - intros p. now rewrite <- Hperm.
  - unfold Delta.generateDiff. cbn. apply NoDup_filter, NoDup_fst_map_to_list.
  - intros p [_ Hnew]%deleted_inv. now rewrite <- Hperm.
Qed.

(** X11.  For trees with ordinary names, [generateDiff] sorts the files of
    the new directory into added, modified and unchanged without losing or
    repeating one (a file named [__proto__] at the top is the one file it
    does not see); the deleted paths are files of the old directory that
    the new one lacks, listed once, and none of them is in the three other
    lists. *)
Theorem X11_diff_is_a_partition {sha : Sha256} (oldDir newDir : Delta.Tree) :
  Delta.ordinary_names oldDir -> Delta.ordinary_names newDir ->
  let d := Delta.generateDiff oldDir newDir in
  let kept := (Delta.added d ++ Delta.modified d ++ Delta.unchanged d)%list in
  NoDup kept
  /\ (forall p, p ∈ kept
                <-> p <> ["__proto__"] /\ is_Some (Delta.files newDir !! p))
  /\ NoDup (Delta.deleted d)
  /\ forall p, p ∈ Delta.deleted d ->
       is_Some (Delta.files oldDir !! p)
       /\ Delta.files newDir !! p = None /\ (p ∉ kept).
Proof.
  intros Hno Hnn. cbv zeta.
  destruct (kept_and_deleted oldDir newDir) as (H1 & H2 & H3 & H4).
  split; [exact H1|]. split; [|split; [exact H3|]].
  - intros p. rewrite H2. now apply scan_key.
  - intros p Hp. pose proof (H4 p Hp) as Hk.
    apply (deleted_spec oldDir newDir Hno Hnn) in Hp as (_ & Ho & Hn & _).
    now repeat split.
Qed.

Lemma X11_diff_is_a_partition_witness :
  let d := @Delta.generateDiff ToySha.sha Trees.v1 Trees.v2 in
  let kept := (Delta.added d ++ Delta.modified d ++ Delta.unchanged d)%list in
  NoDup kept
  /\ (forall p, p ∈ kept
                <-> p <> ["__proto__"] /\ is_Some (Delta.files Trees.v2 !! p))
  /\ NoDup (Delta.deleted d)
  /\ forall p, p ∈ Delta.deleted d ->
       is_Some (Delta.files Trees.v1 !! p)
       /\ Delta.files Trees.v2 !! p = None /\ (p ∉ kept).
Proof.
  apply (@X11_diff_is_a_partition ToySha.sha Trees.v1 Trees.v2);
    unfold Delta.ordinary_names; by_computation.
Defined.

(** X12.  Against an old directory without files (a first publication),
    when the names of the new directory are ordinary and no top-level file
    of it is named like a member of [Object.prototype]: the build
    completes, every file is added, nothing is modified, deleted or
    unchanged, the delta is as large as the full package, and the
    percentage reported is 0. *)
Theorem X12_first_release_saves_nothing {sha : Sha256}
  (oldDir newDir : Delta.Tree) (timestamp : string) :
  Delta.files oldDir = ∅ ->
  Delta.ordinary_names newDir ->
  Delta.plain_tree newDir ->
  exists info zip,
    Delta.createDiffPackage_outcome oldDir newDir timestamp
    = Delta.Built info zip
    /\ (forall p, p ∈ Delta.added (Delta.diff info)
                  <-> is_Some (Delta.files newDir !! p))
    /\ Delta.modified (Delta.diff info) = []
    /\ Delta.deleted (Delta.diff info) = []
    /\ Delta.unchanged (Delta.diff info) = []
    /\ Delta.diffSize info = Delta.fullSize info
    /\ Delta.savedBytes info = 0
    /\ Delta.savedPercent info = 0.
Proof.
  intros Hold Hnames Hplain.
  rewrite (createDiffPackage_built oldDir newDir timestamp Hnames).
  exists (Delta.createDiffPackage oldDir newDir timestamp).1,
         (Delta.createDiffPackage oldDir newDir timestamp).2.
  split; [reflexivity|].
  pose proof (scanDirectory_no_files oldDir Hold) as Hscan.
  assert (Hclass : forall e, e ∈ map_to_list (Delta.scanDirectory newDir) ->
            Delta.classify (Delta.scanDirectory oldDir) e.1 e.2 = Delta.Added).
  { intros [p h] [_ (b & Hb & _)]%(scan_entries newDir p h Hnames).
    cbn. unfold Delta.classify. rewrite Hscan.
    now rewrite (plain_not_inherited p (Hplain p b Hb)). }
  assert (Ha : Delta.added (Delta.generateDiff oldDir newDir)
               = (map_to_list (Delta.scanDirectory newDir)).*1).
  { unfold Delta.generateDiff. cbn. now rewrite filter_all. }
  assert (Hm : Delta.modified (Delta.generateDiff oldDir newDir) = []).
  { unfold Delta.generateDiff. cbn. rewrite filter_none; [reflexivity|].
    intros e He. rewrite (Hclass e He). discriminate. }
  assert (Hu : Delta.unchanged (Delta.generateDiff oldDir newDir) = []).
  { unfold Delta.generateDiff. cbn. rewrite filter_none; [reflexivity|].
    intros e He. rewrite (Hclass e He). discriminate. }
  assert (Hd : Delta.deleted (Delta.generateDiff oldDir newDir) = []).
  { unfold Delta.generateDiff. cbn. now rewrite Hscan, map_to_list_empty. }
  assert (Hsize :
    filter (fun p => Delta.in_diff (Delta.generateDiff oldDir newDir) p = true)
      (map_to_list (Delta.scanDirectory newDir)).*1
    = (map_to_list (Delta.scanDirectory newDir)).*1).
  { apply filter_all. intros p Hp. unfold Delta.in_diff. rewrite Ha.
    now rewrite (bool_decide_eq_true_2 _ Hp). }
  unfold Delta.createDiffPackage.
  cbn [fst Delta.diff Delta.fullSize Delta.diffSize Delta.savedBytes
       Delta.savedPercent].
  rewrite Hsize. split; [|repeat split; try assumption].
  - intros p. rewrite Ha, (scan_key newDir p Hnames). split; [now intros [_ ?]|].
    intros [b Hb]. split; [|now exists b].
    intros ->. apply (Hplain _ b Hb). by_computation.
  - lia.
  - apply savedPercentOf_everything_sent.
Qed.

Lemma X12_first_release_saves_nothing_witness :
  exists info zip,
    @Delta.createDiffPackage_outcome ToySha.sha (Delta.mkTree ∅ ∅) Trees.v1 "t"
    = Delta.Built info zip
    /\ (forall p, p ∈ Delta.added (Delta.diff info)
                  <-> is_Some (Delta.files Trees.v1 !! p))
    /\ Delta.modified (Delta.diff info) = []
    /\ Delta.deleted (Delta.diff info) = []
    /\ Delta.unchanged (Delta.diff info) = []
    /\ Delta.diffSize info = Delta.fullSize info
    /\ Delta.savedBytes info = 0
    /\ Delta.savedPercent info = 0.
Proof.
  apply (@X12_first_release_saves_nothing ToySha.sha (Delta.mkTree ∅ ∅)
           Trees.v1 "t"); [reflexivity| |].
  - unfold Delta.ordinary_names. by_computation.
  - unfold Delta.plain_tree. by_computation.
Defined.

(** X13.  The statistics of a package that was built are in range: the
    delta size lies between 0 and the full size, the bytes saved are their
    difference, and the percentage lies between 0 and 100. *)
Theorem X13_statistics_in_range {sha : Sha256} (oldDir newDir : Delta.Tree)
  (timestamp : string) (info : Delta.PackageInfo) (zip : Delta.Zip) :
  Delta.createDiffPackage_outcome oldDir newDir timestamp
  = Delta.Built info zip ->
  0 <= Delta.diffSize info <= Delta.fullSize info
  /\ Delta.savedBytes info = Delta.fullSize info - Delta.diffSize info
  /\ 0 <= Delta.savedBytes info
  /\ 0 <= Delta.savedPercent info <= 100.
Proof.
  intros [Hpkg _]%createDiffPackage_outcome_Built.
  apply (f_equal fst) in Hpkg. cbn [fst] in Hpkg. subst info.
  unfold Delta.createDiffPackage. cbn.
  pose proof (sumZ_filter_le (Delta.file_size newDir)
                (fun p => Delta.in_diff (Delta.generateDiff oldDir newDir) p = true)
                (map_to_list (Delta.scanDirectory newDir)).*1
                (file_size_nonneg newDir)) as Hle.
  split; [exact Hle|]. split; [reflexivity|]. split; [lia|].
  apply savedPercentOf_bounds. exact Hle.
Qed.

Lemma X13_statistics_in_range_witness :
  let info := (@Delta.createDiffPackage ToySha.sha Trees.v1 Trees.v2 "t").1 in
  0 <= Delta.diffSize info <= Delta.fullSize info
  /\ Delta.savedBytes info = Delta.fullSize info - Delta.diffSize info
  /\ 0 <= Delta.savedBytes info
  /\ 0 <= Delta.savedPercent info <= 100.
Proof.
  exact (@X13_statistics_in_range ToySha.sha Trees.v1 Trees.v2 "t" _ _ eq_refl).
Defined.

(** X14.  The archive of a package that was built starts with the
    manifest, which lists the added, modified and deleted paths of the
    diff; after it come exactly the added and then the modified paths, each
    with the bytes it has in the new directory.  No unchanged and no
    deleted path is shipped. *)
Theorem X14_package_holds_the_changes {sha : Sha256}
  (oldDir newDir : Delta.Tree) (timestamp : string)
  (info : Delta.PackageInfo) (zip : Delta.Zip) :
  Delta.createDiffPackage_outcome oldDir newDir timestamp
  = Delta.Built info zip ->
  let d := Delta.generateDiff oldDir newDir in
  exists body,
    zip = Delta.ManifestEntry
            (Delta.mkManifest "diff" (Delta.added d) (Delta.modified d)
               (Delta.deleted d) timestamp) :: body
    /\ Delta.entryName <$> body = (Delta.added d ++ Delta.modified d)%list
    /\ Forall (fun e => exists p b, e = Delta.FileEntry p b
                                    /\ Delta.files newDir !! p = Some b) body
    /\ forall p, p ∈ Delta.unchanged d \/ p ∈ Delta.deleted d ->
         p ∉ Delta.entryName <$> body.
Proof.
  intros [Hpkg Hreg]%createDiffPackage_outcome_Built. cbv zeta.
  apply (f_equal snd) in Hpkg. cbn [snd] in Hpkg. subst zip.
  unfold Delta.createDiffPackage. cbn [snd].
  set (d := Delta.generateDiff oldDir newDir).
  destruct (kept_and_deleted oldDir newDir) as (Hnd & Hkept & _ & Hdel).
  eexists. split; [reflexivity|].
  assert (Hfiles : forall p, p ∈ (Delta.added d ++ Delta.modified d)%list ->
            exists b, Delta.stat newDir p = Delta.RegularFile b).
  { intros p Hp. apply Hreg, Hkept. rewrite app_assoc.
    apply elem_of_app. now left. }
  split; [now apply archived_names|]. split.
  - apply Forall_forall.
    intros e (p & b & -> & _ & [_ Hb]%stat_regular)%archived. now exists p, b.
  - intros p Hp. rewrite archived_names by exact Hfiles.
    destruct Hp as [Hp|Hp].
    + rewrite app_assoc in Hnd. apply NoDup_app in Hnd as (_ & Hdisj & _).
      intros Hin. exact (Hdisj p Hin Hp).
    + intros Hin. apply (Hdel p Hp). rewrite app_assoc.
      apply elem_of_app. now left.
Qed.

Lemma X14_package_holds_the_changes_witness :
  let d := @Delta.generateDiff ToySha.sha Trees.v1 Trees.v2 in
  exists body,
    (@Delta.createDiffPackage ToySha.sha Trees.v1 Trees.v2 "t").2
    = Delta.ManifestEntry
        (Delta.mkManifest "diff" (Delta.added d) (Delta.modified d)
           (Delta.deleted d) "t") :: body
    /\ Delta.entryName <$> body = (Delta.added d ++ Delta.modified d)%list
    /\ Forall (fun e => exists p b, e = Delta.FileEntry p b
                                    /\ Delta.files Trees.v2 !! p = Some b) body
    /\ forall p, p ∈ Delta.unchanged d \/ p ∈ Delta.deleted d ->
         p ∉ Delta.entryName <$> body.
Proof.
  exact (@X14_package_holds_the_changes ToySha.sha Trees.v1 Trees.v2 "t" _ _
           eq_refl).
Defined.

(** X15.  The package of a directory with ordinary names against itself is
    built and holds the manifest and nothing else; applying it to the
    directory gives the directory back, files and directories alike. *)
Theorem X15_same_tree_round_trip {sha : Sha256}
  (parse_raw : Bytes -> option Delta.Manifest) (t : Delta.Tree)
  (timestamp : string) :
  Delta.ordinary_names t ->
  let m := Delta.mkManifest "diff" [] [] [] timestamp in
  exists info,
    Delta.createDiffPackage_outcome t t timestamp
    = Delta.Built info [Delta.ManifestEntry m]
    /\ Delta.applyDiffPackage parse_raw t [Delta.ManifestEntry m]
       = Delta.Applied t m.
Proof.
  intros Hn. cbv zeta.
  rewrite (createDiffPackage_built t t timestamp Hn).
  destruct (generateDiff_same_tree t) as [Ha Hm].
  assert (Hd : Delta.deleted (Delta.generateDiff t t) = []).
  { destruct (Delta.deleted (Delta.generateDiff t t)) as [|p l] eqn:E;
      [reflexivity|].
    assert (Hp : p ∈ Delta.deleted (Delta.generateDiff t t))
      by (rewrite E; left).
    now apply deleted_inv in Hp as [? ?]. }
  assert (Hzip : (Delta.createDiffPackage t t timestamp).2
                 = [Delta.ManifestEntry (Delta.mkManifest "diff" [] [] [] timestamp)]).
  { unfold Delta.createDiffPackage. cbn [snd]. now rewrite Ha, Hm, Hd. }
  rewrite Hzip. eexists. split; reflexivity.
Qed.

Lemma X15_same_tree_round_trip_witness :
  let m := Delta.mkManifest "diff" [] [] [] "t" in
  exists info,
    @Delta.createDiffPackage_outcome ToySha.sha Trees.v1 Trees.v1 "t"
    = Delta.Built info [Delta.ManifestEntry m]
    /\ Delta.applyDiffPackage (fun _ => None) Trees.v1 [Delta.ManifestEntry m]
       = Delta.Applied Trees.v1 m.
Proof.
  apply (@X15_same_tree_round_trip ToySha.sha (fun _ => None) Trees.v1 "t").
  unfold Delta.ordinary_names. by_computation.
Defined.



(* ===================================================================== *)
(** * Further statements: the agent                                       *)
(* ===================================================================== *)

Section AgentSessionFacts.
Import Client.

Lemma last_char_app (v : string) (c : ascii) (s : string) :
  last_char (v ++ String c s) = last_char (String c s).
Proof.
  induction v as [|a v IH]; [reflexivity|].
  change (String a v ++ String c s)%string with (String a (v ++ String c s)).
  destruct (v ++ String c s)%string as [|a' v'] eqn:E.
  - destruct v; discriminate E.
  - exact IH.
Qed.

(** The keys the agent derives from a version never collide with its fixed
    keys, nor with each other. *)
Lemma confirmed_key_current (v : string) : confirmed_key v <> KEY_CURRENT_VERSION.
Proof.
  intros H. apply (f_equal last_char) in H. unfold confirmed_key in H.
  rewrite last_char_app in H. discriminate H.
Qed.

Lemma launches_key_current (v : string) : launches_key v <> KEY_CURRENT_VERSION.
Proof.
  intros H. apply (f_equal last_char) in H. unfold launches_key in H.
  rewrite last_char_app in H. discriminate H.
Qed.

Lemma launches_key_previous (v : string) : launches_key v <> KEY_PREVIOUS_VERSION.
Proof.
  intros H. apply (f_equal last_char) in H. unfold launches_key in H.
  rewrite last_char_app in H. discriminate H.
Qed.

Lemma launches_key_confirmed (v w : string) : launches_key v <> confirmed_key w.
Proof.
  intros H. apply (f_equal last_char) in H. unfold launches_key, confirmed_key in H.
  rewrite !last_char_app in H. discriminate H.
Qed.


Lemma getBoolean_insert_eq (p : gmap string PrefValue) (k : string) (b d : bool) :
  getBoolean (<[k := PBoolean b]> p) k d = b.
Proof. unfold getBoolean. now rewrite lookup_insert_eq. Qed.

Lemma getBoolean_insert_ne (p : gmap string PrefValue) (k k' : string)
  (x : PrefValue) (d : bool) :
  k <> k' -> getBoolean (<[k := x]> p) k' d = getBoolean p k' d.
Proof. intros Hne. unfold getBoolean. now rewrite lookup_insert_ne. Qed.

Lemma getInt_insert_eq (p : gmap string PrefValue) (k : string) (n d : Z) :
  getInt (<[k := PInt n]> p) k d = n.
Proof. unfold getInt. now rewrite lookup_insert_eq. Qed.

(** What a rollback does when there is something to roll back to. *)
Lemma rollback_effect (st : Install) (pv : string) (b : Dir) :
  getString (prefs st) KEY_PREVIOUS_VERSION = Some pv ->
  lynx_bundles_backup st = Some b ->
  rollbackToPreviousVersion st
  = mkInstall
      (delete KEY_PREVIOUS_VERSION (<[KEY_CURRENT_VERSION := PString pv]> (prefs st)))
      (Some b) (lynx_pending st) None (cache st) (reports st).
Proof.
  intros Hpv Hb. unfold rollbackToPreviousVersion. rewrite Hpv, Hb. reflexivity.
Qed.

Lemma rollback_nothing_recorded (st : Install) :
  getString (prefs st) KEY_PREVIOUS_VERSION = None ->
  rollbackToPreviousVersion st = st.
Proof. intros H. unfold rollbackToPreviousVersion. now rewrite H. Qed.

(** One call of [checkAutoRollback] on an unconfirmed version with a
    previous version on record. *)
Lemma checkAutoRollback_unconfirmed (st : Install) (cv pv : string) :
  getString (prefs st) KEY_CURRENT_VERSION = Some cv ->
  getString (prefs st) KEY_PREVIOUS_VERSION = Some pv ->
  getBoolean (prefs st) (confirmed_key cv) false = false ->
  checkAutoRollback st
  = let launchCount := int32 (getInt (prefs st) (launches_key cv) 0 + 1) in
    let st1 :=
      with_prefs st (<[launches_key cv := PInt launchCount]> (prefs st)) in
    if 3 <=? launchCount then rollbackToPreviousVersion st1 else st1.
Proof.
  intros Hcv Hpv Hc. unfold checkAutoRollback. now rewrite Hcv, Hpv, Hc.
Qed.

(** Counting a launch keeps what [checkAutoRollback] looks at. *)
Lemma counted (st : Install) (cv pv : string) (n : Z) :
  getString (prefs st) KEY_CURRENT_VERSION = Some cv ->
  getString (prefs st) KEY_PREVIOUS_VERSION = Some pv ->
  getBoolean (prefs st) (confirmed_key cv) false = false ->
  let st1 := with_prefs st (<[launches_key cv := PInt n]> (prefs st)) in
  getString (prefs st1) KEY_CURRENT_VERSION = Some cv
  /\ getString (prefs st1) KEY_PREVIOUS_VERSION = Some pv
  /\ getBoolean (prefs st1) (confirmed_key cv) false = false
  /\ getInt (prefs st1) (launches_key cv) 0 = n.
Proof.
  intros Hcv Hpv Hc. cbn.
  rewrite !getString_insert_ne
    by (apply launches_key_current || apply launches_key_previous).
  rewrite getBoolean_insert_ne by apply launches_key_confirmed.
  now rewrite getInt_insert_eq.
Qed.

Lemma checkAutoRollback_confirmed (st : Install) :
  checkAutoRollback (notifyUpdateSuccess st) = notifyUpdateSuccess st.
Proof.
  unfold notifyUpdateSuccess.
  destruct (getString (prefs st) KEY_CURRENT_VERSION) as [cv|] eqn:Hcv.
  - unfold checkAutoRollback. cbn.
    rewrite getString_insert_ne by apply confirmed_key_current.
    rewrite Hcv, getBoolean_insert_eq. cbn.
    now destruct (getString _ KEY_PREVIOUS_VERSION).
  - unfold checkAutoRollback. now rewrite Hcv.
Qed.

Section Download.
Context {sha : Sha256}.

(** When [downloadUpdate] reports success. *)
Lemma downloadUpdate_Installed (unzip : Bytes -> Dir * bool) (r : UpdateResult)
  (t : Transfer) (st : Install) :
  (downloadUpdate unzip r t st).1 = Installed ->
  exists url body v,
    updateAvailable r = true /\ downloadUrl r = Some url
    /\ t = Completed body /\ version r = Some v
    /\ (hash r = None \/ hash r = Some (sha256_hex body))
    /\ (unzip body).2 = true
    /\ (downloadUpdate unzip r t st).2
       = mkInstall (<[KEY_PENDING_VERSION := PString v]> (prefs st))
           (lynx_bundles st) (Some (unzip body).1) (lynx_bundles_backup st)
           (delete (tempFile r) (<[tempFile r := body]> (cache st)))
           (reports st).
Proof.
  unfold downloadUpdate.
  destruct (updateAvailable r); [|discriminate].
  destruct (downloadUrl r) as [url|]; [|discriminate]. cbn [negb orb].
  destruct t as [body|[partial|]]; [|discriminate|discriminate].
  assert (Hhash : match hash r with
                  | Some expected => negb (String.eqb (calculateHash body) expected)
                  | None => false
                  end = false ->
                  hash r = None \/ hash r = Some (sha256_hex body)).
  { destruct (hash r) as [h|]; [|now left]. unfold calculateHash.
    destruct (String.eqb_spec (sha256_hex body) h) as [->|]; [now right|discriminate]. }
  destruct (match hash r with Some _ => _ | None => false end) eqn:Hm;
    [discriminate|].
  specialize (Hhash eq_refl).
  destruct (version r) as [v|]; [|discriminate].
  unfold installUpdate.
  destruct (unzip body) as [extracted [|]] eqn:Hu; [|discriminate].
  intros _. exists url, body, v. rewrite Hu. cbn.
  split; [reflexivity|]. split; [reflexivity|]. split; [reflexivity|].
  split; [reflexivity|]. split; [exact Hhash|]. split; reflexivity.
Qed.

(** A completed transfer of a package with the announced digest is staged
    when the archive can be read. *)
Lemma downloadUpdate_verified (unzip : Bytes -> Dir * bool) (r : UpdateResult)
  (url v : string) (body : Bytes) (st : Install) :
  updateAvailable r = true -> downloadUrl r = Some url -> version r = Some v ->
  hash r = None \/ hash r = Some (sha256_hex body) ->
  downloadUpdate unzip r (Completed body) st
  = (if (unzip body).2 then Installed else InstallationFailed,
     mkInstall
       (if (unzip body).2
        then <[KEY_PENDING_VERSION := PString v]> (prefs st) else prefs st)
       (lynx_bundles st) (Some (unzip body).1) (lynx_bundles_backup st)
       (delete (tempFile r) (<[tempFile r := body]> (cache st)))
       (reports st)).
Proof.
  intros Hav Hurl Hv Hh. unfold downloadUpdate. rewrite Hav, Hurl, Hv.
  cbn [negb orb].
  assert (Hm : match hash r with
               | Some expected => negb (String.eqb (calculateHash body) expected)
               | None => false
               end = false).
  { destruct Hh as [-> | ->]; [reflexivity|].
    unfold calculateHash. now rewrite String.eqb_refl. }
  rewrite Hm. unfold installUpdate.
  destruct (unzip body) as [extracted [|]]; reflexivity.
Qed.


End Download.


End AgentSessionFacts.



(** X18.  With a previous version on record and a backup directory, a
    rollback puts the backup in place of the current directory, records the
    previous version as current and forgets it as previous; the staged
    update is left as it is, and a second rollback changes nothing. *)
Theorem X18_rollback_restores_backup_once (st : Client.Install) (pv : string)
  (b : Client.Dir) :
  Client.getString (Client.prefs st) Client.KEY_PREVIOUS_VERSION = Some pv ->
  Client.lynx_bundles_backup st = Some b ->
  let st' := Client.rollbackToPreviousVersion st in
  Client.lynx_bundles st' = Some b
  /\ Client.lynx_bundles_backup st' = None
  /\ Client.getCurrentVersion st' = pv
  /\ Client.getString (Client.prefs st') Client.KEY_PREVIOUS_VERSION = None
  /\ Client.lynx_pending st' = Client.lynx_pending st
  /\ Client.getString (Client.prefs st') Client.KEY_PENDING_VERSION
     = Client.getString (Client.prefs st) Client.KEY_PENDING_VERSION
  /\ Client.rollbackToPreviousVersion st' = st'.
Proof.
  intros Hpv Hb. cbv zeta. rewrite (rollback_effect st pv b Hpv Hb).
  split; [reflexivity|]. split; [reflexivity|]. split.
  { unfold Client.getCurrentVersion. cbn.
    rewrite getString_delete_ne by discriminate.
    now rewrite getString_insert_eq. }
  split; [apply getString_delete_eq|]. split; [reflexivity|]. split.
  { cbn. rewrite getString_delete_ne by discriminate.
    now rewrite getString_insert_ne by discriminate. }
  apply rollback_nothing_recorded. apply getString_delete_eq.
Qed.

Lemma X18_rollback_restores_backup_once_witness :
  let st' := Client.rollbackToPreviousVersion Device.unconfirmed in
  Client.lynx_bundles st' = Some Device.old_bundle
  /\ Client.lynx_bundles_backup st' = None
  /\ Client.getCurrentVersion st' = "1.0.0"
  /\ Client.getString (Client.prefs st') Client.KEY_PREVIOUS_VERSION = None
  /\ Client.lynx_pending st' = Client.lynx_pending Device.unconfirmed
  /\ Client.getString (Client.prefs st') Client.KEY_PENDING_VERSION
     = Client.getString (Client.prefs Device.unconfirmed) Client.KEY_PENDING_VERSION
  /\ Client.rollbackToPreviousVersion st' = st'.
Proof.
  exact (X18_rollback_restores_backup_once Device.unconfirmed "1.0.0"
           Device.old_bundle eq_refl eq_refl).
Defined.

(** X19.  Once [notifyUpdateSuccess] has run, [checkAutoRollback] changes
    nothing, however often it is called: a confirmed version is never rolled
    back by the launch counter. *)
Theorem X19_confirmed_version_is_kept (n : nat) (st : Client.Install) :
  Nat.iter n Client.checkAutoRollback (Client.notifyUpdateSuccess st)
  = Client.notifyUpdateSuccess st.
Proof.
  induction n as [|n IH]; [reflexivity|].
  rewrite Nat.iter_succ, IH. apply checkAutoRollback_confirmed.
Qed.

(** X20.  On a device whose current version is unconfirmed, with a previous
    version on record, a backup directory and no launch counted yet: the
    first two calls of [checkAutoRollback] keep the version and the bundle
    directory, and the third rolls back, putting the backup in place and
    recording the previous version as current. *)
Theorem X20_third_unconfirmed_check_rolls_back (st : Client.Install)
  (cv pv : string) (b : Client.Dir) :
  Client.getString (Client.prefs st) Client.KEY_CURRENT_VERSION = Some cv ->
  Client.getString (Client.prefs st) Client.KEY_PREVIOUS_VERSION = Some pv ->
  Client.getBoolean (Client.prefs st) (Client.confirmed_key cv) false = false ->
  Client.getInt (Client.prefs st) (Client.launches_key cv) 0 = 0 ->
  Client.lynx_bundles_backup st = Some b ->
  let s1 := Client.checkAutoRollback st in
  let s2 := Client.checkAutoRollback s1 in
  let s3 := Client.checkAutoRollback s2 in
  (Client.getCurrentVersion s1 = cv /\ Client.lynx_bundles s1 = Client.lynx_bundles st)
  /\ (Client.getCurrentVersion s2 = cv /\ Client.lynx_bundles s2 = Client.lynx_bundles st)
  /\ Client.getCurrentVersion s3 = pv
  /\ Client.lynx_bundles s3 = Some b
  /\ Client.lynx_bundles_backup s3 = None
  /\ Client.getString (Client.prefs s3) Client.KEY_PREVIOUS_VERSION = None.
Proof.
  intros Hcv Hpv Hc Hn Hb. cbv zeta.
  assert (H1 : Client.checkAutoRollback st
               = Client.with_prefs st
                   (<[Client.launches_key cv := Client.PInt 1]> (Client.prefs st))).
  { rewrite (checkAutoRollback_unconfirmed st cv pv Hcv Hpv Hc), Hn.
    reflexivity. }
  rewrite H1.
  destruct (counted st cv pv 1 Hcv Hpv Hc) as (Hcv1 & Hpv1 & Hc1 & Hn1).
  set (s1 := Client.with_prefs st _) in *.
  assert (H2 : Client.checkAutoRollback s1
               = Client.with_prefs s1
                   (<[Client.launches_key cv := Client.PInt 2]> (Client.prefs s1))).
  { rewrite (checkAutoRollback_unconfirmed s1 cv pv Hcv1 Hpv1 Hc1), Hn1.
    reflexivity. }
  rewrite H2.
  destruct (counted s1 cv pv 2 Hcv1 Hpv1 Hc1) as (Hcv2 & Hpv2 & Hc2 & Hn2).
  set (s2 := Client.with_prefs s1 _) in *.
  assert (H3 : Client.checkAutoRollback s2
               = Client.rollbackToPreviousVersion
                   (Client.with_prefs s2
                      (<[Client.launches_key cv := Client.PInt 3]>
                         (Client.prefs s2)))).
  { rewrite (checkAutoRollback_unconfirmed s2 cv pv Hcv2 Hpv2 Hc2), Hn2.
    reflexivity. }
  rewrite H3.
  destruct (counted s2 cv pv 3 Hcv2 Hpv2 Hc2) as (Hcv3 & Hpv3 & _).
  set (s3 := Client.with_prefs s2 _) in *.
  rewrite (rollback_effect s3 pv b Hpv3 Hb).
  split; [split; [unfold Client.getCurrentVersion; now rewrite Hcv1|reflexivity]|].
  split; [split; [unfold Client.getCurrentVersion; now rewrite Hcv2|reflexivity]|].
  split.
  { unfold Client.getCurrentVersion. cbn [Client.prefs].
    rewrite getString_delete_ne by discriminate.
    now rewrite getString_insert_eq. }
  split; [reflexivity|]. split; [reflexivity|].
  cbn [Client.prefs]. apply getString_delete_eq.
Qed.

Lemma X20_third_unconfirmed_check_rolls_back_witness :
  let s1 := Client.checkAutoRollback Device.unconfirmed in
  let s2 := Client.checkAutoRollback s1 in
  let s3 := Client.checkAutoRollback s2 in
  (Client.getCurrentVersion s1 = "2.0.0"
   /\ Client.lynx_bundles s1 = Client.lynx_bundles Device.unconfirmed)
  /\ (Client.getCurrentVersion s2 = "2.0.0"
      /\ Client.lynx_bundles s2 = Client.lynx_bundles Device.unconfirmed)
  /\ Client.getCurrentVersion s3 = "1.0.0"
  /\ Client.lynx_bundles s3 = Some Device.old_bundle
  /\ Client.lynx_bundles_backup s3 = None
  /\ Client.getString (Client.prefs s3) Client.KEY_PREVIOUS_VERSION = None.
Proof.
  exact (X20_third_unconfirmed_check_rolls_back Device.unconfirmed
           "2.0.0" "1.0.0" Device.old_bundle
           eq_refl eq_refl eq_refl eq_refl eq_refl).
Defined.


(** X22.  When [downloadUpdate] reports success, the offer was available
    and had an address and a version, the transfer completed, the offer
    carried no hash or the digest of the bytes received, and the archive was
    read to its end.  The extracted files are then the staged directory, the
    offered version is recorded as pending, the temporary file is gone, and
    the next launch makes the staged files the current bundle directory and
    the offered version the current one. *)
Theorem X22_success_means_verified_and_staged {sha : Sha256}
  (unzip : Bytes -> Client.Dir * bool) (r : Client.UpdateResult)
  (t : Client.Transfer) (st : Client.Install) :
  (Client.downloadUpdate unzip r t st).1 = Client.Installed ->
  let st1 := (Client.downloadUpdate unzip r t st).2 in
  exists url body v,
    Client.updateAvailable r = true /\ Client.downloadUrl r = Some url
    /\ t = Client.Completed body /\ Client.version r = Some v
    /\ (Client.hash r = None \/ Client.hash r = Some (sha256_hex body))
    /\ (unzip body).2 = true
    /\ Client.lynx_pending st1 = Some (unzip body).1
    /\ Client.getString (Client.prefs st1) Client.KEY_PENDING_VERSION = Some v
    /\ Client.cache st1 !! Client.tempFile r = None
    /\ Client.lynx_bundles (Client.init st1) = Some (unzip body).1
    /\ Client.getCurrentVersion (Client.init st1) = v
    /\ Client.lynx_pending (Client.init st1) = None.
Proof.
  intros Hi. cbv zeta.
  destruct (downloadUpdate_Installed unzip r t st Hi)
    as (url & body & v & Hav & Hurl & Ht & Hv & Hh & Hok & ->).
  exists url, body, v.
  split; [exact Hav|]. split; [exact Hurl|]. split; [exact Ht|].
  split; [exact Hv|]. split; [exact Hh|]. split; [exact Hok|].
  split; [reflexivity|]. split; [apply getString_insert_eq|].
  split; [apply lookup_delete_eq|].
  unfold Client.init.
  rewrite (applyPendingUpdate_staged _ v (unzip body).1);
    [|apply getString_insert_eq|reflexivity].
  split; [reflexivity|]. split; [|reflexivity].
  unfold Client.getCurrentVersion. cbn [Client.prefs].
  rewrite getString_delete_ne by discriminate.
  now rewrite getString_insert_eq.
Qed.

Lemma X22_success_means_verified_and_staged_witness :
  let st1 :=
    (@Client.downloadUpdate ToySha.sha Device.unzip_bundle (Device.offer None)
       (Client.Completed "bundle 2.0.0") Device.fresh).2 in
  exists url body v,
    Client.updateAvailable (Device.offer None) = true
    /\ Client.downloadUrl (Device.offer None) = Some url
    /\ Client.Completed "bundle 2.0.0" = Client.Completed body
    /\ Client.version (Device.offer None) = Some v
    /\ (Client.hash (Device.offer None) = None
        \/ Client.hash (Device.offer None) = Some (@sha256_hex ToySha.sha body))
    /\ (Device.unzip_bundle body).2 = true
    /\ Client.lynx_pending st1 = Some (Device.unzip_bundle body).1
    /\ Client.getString (Client.prefs st1) Client.KEY_PENDING_VERSION = Some v
    /\ Client.cache st1 !! Client.tempFile (Device.offer None) = None
    /\ Client.lynx_bundles (Client.init st1) = Some (Device.unzip_bundle body).1
    /\ Client.getCurrentVersion (Client.init st1) = v
    /\ Client.lynx_pending (Client.init st1) = None.
Proof.
  exact (@X22_success_means_verified_and_staged ToySha.sha Device.unzip_bundle
           (Device.offer None) (Client.Completed "bundle 2.0.0") Device.fresh
           eq_refl).
Defined.

(** X23.  When an update is already staged and a later download reaches
    the extraction, which then fails: the outcome is "Installation failed",
    the staged directory holds what the failed extraction wrote, and the
    pending version still names the earlier update; the next launch makes
    those files the current bundle directory under the earlier version. *)
Theorem X23_failed_extraction_overwrites_staged_update {sha : Sha256}
  (unzip : Bytes -> Client.Dir * bool) (r : Client.UpdateResult)
  (url v v0 : string) (body : Bytes) (st : Client.Install) :
  Client.updateAvailable r = true ->
  Client.downloadUrl r = Some url ->
  Client.version r = Some v ->
  Client.hash r = None \/ Client.hash r = Some (sha256_hex body) ->
  (unzip body).2 = false ->
  Client.getString (Client.prefs st) Client.KEY_PENDING_VERSION = Some v0 ->
  let res := Client.downloadUpdate unzip r (Client.Completed body) st in
  res.1 = Client.InstallationFailed
  /\ Client.lynx_pending res.2 = Some (unzip body).1
  /\ Client.getString (Client.prefs res.2) Client.KEY_PENDING_VERSION = Some v0
  /\ Client.lynx_bundles (Client.init res.2) = Some (unzip body).1
  /\ Client.getCurrentVersion (Client.init res.2) = v0.
Proof.
  intros Hav Hurl Hv Hh Hfail Hp0. cbv zeta.
  rewrite (downloadUpdate_verified unzip r url v body st Hav Hurl Hv Hh).
  rewrite Hfail. cbn [fst snd].
  split; [reflexivity|]. split; [reflexivity|]. split; [exact Hp0|].
  unfold Client.init.
  rewrite (applyPendingUpdate_staged _ v0 (unzip body).1);
    [|exact Hp0|reflexivity].
  split; [reflexivity|].
  unfold Client.getCurrentVersion. cbn [Client.prefs].
  rewrite getString_delete_ne by discriminate.
  now rewrite getString_insert_eq.
Qed.

Lemma X23_failed_extraction_overwrites_staged_update_witness :
  let res :=
    @Client.downloadUpdate ToySha.sha Faults.unzip_truncated Faults.offer_300
      (Client.Completed "bundle 3.0.0") Device.staged in
  res.1 = Client.InstallationFailed
  /\ Client.lynx_pending res.2 = Some (Faults.unzip_truncated "bundle 3.0.0").1
  /\ Client.getString (Client.prefs res.2) Client.KEY_PENDING_VERSION
     = Some "2.0.0"
  /\ Client.lynx_bundles (Client.init res.2)
     = Some (Faults.unzip_truncated "bundle 3.0.0").1
  /\ Client.getCurrentVersion (Client.init res.2) = "2.0.0".
Proof.
  exact (@X23_failed_extraction_overwrites_staged_update ToySha.sha
           Faults.unzip_truncated Faults.offer_300
           "http://updates.example/api/download/app-android-3.0.0-3.zip"
           "3.0.0" "2.0.0" "bundle 3.0.0" Device.staged
           eq_refl eq_refl eq_refl (or_introl eq_refl) eq_refl eq_refl).
Defined.

(** X24.  After [clearUpdates] every bundle is loaded from the assets, and
    a launch, a confirmation, a failure notice, an automatic rollback check,
    a rollback and a second [clearUpdates] all leave the device as it is; in
    particular no report is sent. *)
Theorem X24_cleared_device_is_inert (st : Client.Install) :
  let st' := Client.clearUpdates st in
  (forall bundleName, Client.shouldLoadFromFile st' bundleName = false)
  /\ Client.init st' = st'
  /\ Client.notifyUpdateSuccess st' = st'
  /\ Client.notifyUpdateFailed st' = st'
  /\ Client.checkAutoRollback st' = st'
  /\ Client.rollbackToPreviousVersion st' = st'
  /\ Client.clearUpdates st' = st'.
Proof. cbv zeta. repeat split. Qed.

(** X25.  A package downloaded on the offer that [checkForUpdate] built from
    an answer of the server is staged only if its digest is the hash the
    server announced; it is then staged under the version announced. *)
Theorem X25_checked_offer_needs_matching_digest {sha : Sha256}
  (unzip : Bytes -> Client.Dir * bool) (response : Server.CheckResponse)
  (t : Client.Transfer) (st : Client.Install) :
  let result := Pipeline.checkForUpdate_result (Pipeline.Answered response) in
  let res := Client.downloadUpdate unzip result t st in
  res.1 = Client.Installed ->
  exists info body,
    response = Server.UpdateAvailable info
    /\ t = Client.Completed body
    /\ sha256_hex body = Server.u_hash info
    /\ Client.getString (Client.prefs res.2) Client.KEY_PENDING_VERSION
       = Some (Server.u_version info)
    /\ Client.lynx_pending res.2 = Some (unzip body).1.
Proof.
  cbv zeta. intros Hi.
  destruct (downloadUpdate_Installed unzip _ t st Hi)
    as (url & body & v & Hav & _ & Ht & Hv & Hh & _ & ->).
  destruct response as [| |info]; try discriminate Hav.
  exists info, body. cbn in Hv, Hh. injection Hv as <-.
  destruct Hh as [Hh|Hh]; [discriminate Hh|]. injection Hh as Hh.
  split; [reflexivity|]. split; [exact Ht|]. split; [now symmetry|].
  split; [apply getString_insert_eq|reflexivity].
Qed.

Lemma X25_checked_offer_needs_matching_digest_witness :
  let response :=
    @Server.check_update PlainSemver.lib ToySha.sha Cycle.scope (1 # 2)
      (Pipeline.check_request "key" "updates.example" Device.fresh) in
  let result := Pipeline.checkForUpdate_result (Pipeline.Answered response) in
  let res :=
    @Client.downloadUpdate ToySha.sha Device.unzip_bundle result
      (Client.Completed Cycle.package) Device.fresh in
  exists info body,
    response = Server.UpdateAvailable info
    /\ Client.Completed Cycle.package = Client.Completed body
    /\ @sha256_hex ToySha.sha body = Server.u_hash info
    /\ Client.getString (Client.prefs res.2) Client.KEY_PENDING_VERSION
       = Some (Server.u_version info)
    /\ Client.lynx_pending res.2 = Some (Device.unzip_bundle body).1.
Proof.
  exact (@X25_checked_offer_needs_matching_digest ToySha.sha Device.unzip_bundle
           (@Server.check_update PlainSemver.lib ToySha.sha Cycle.scope (1 # 2)
              (Pipeline.check_request "key" "updates.example" Device.fresh))
           (Client.Completed Cycle.package) Device.fresh eq_refl).
Defined.



(** X27.  [syncUpdate] downloads mandatory updates only: for every other
    reply it resumes with [false] and changes nothing on the device.  When
    it resumes with [true], the reply offered a mandatory update, the
    package arrived with the announced digest, and it is staged under the
    offered version. *)
Theorem X27_syncUpdate_takes_mandatory_updates_only {sha : Sha256}
  (unzip : Bytes -> Client.Dir * bool) (reply : Pipeline.Reply)
  (t : Client.Transfer) (st : Client.Install) :
  let res := Session.syncUpdate unzip reply t st in
  ((forall info,
       reply = Pipeline.Answered (Server.UpdateAvailable info) ->
       Server.u_mandatory info = false) ->
   res = (false, st))
  /\ (res.1 = true ->
      exists info body,
        reply = Pipeline.Answered (Server.UpdateAvailable info)
        /\ Server.u_mandatory info = true
        /\ t = Client.Completed body
        /\ sha256_hex body = Server.u_hash info
        /\ (unzip body).2 = true
        /\ Client.getString (Client.prefs res.2) Client.KEY_PENDING_VERSION
           = Some (Server.u_version info)
        /\ Client.lynx_pending res.2 = Some (unzip body).1).
Proof.
  cbv zeta. unfold Session.syncUpdate. split.
  - intros Hopt.
    destruct reply as [[| |info]|message]; try reflexivity.
    cbn. now rewrite (Hopt info eq_refl).
  - destruct reply as [[| |info]|message]; try discriminate.
    remember (Pipeline.checkForUpdate_result
                (Pipeline.Answered (Server.UpdateAvailable info))) as r eqn:Hr.
    assert (Hgate : Client.updateAvailable r && Client.mandatory r
                    = Server.u_mandatory info) by (subst r; reflexivity).
    rewrite Hgate.
    destruct (Server.u_mandatory info) eqn:Hm; [|discriminate].
    destruct (Client.downloadUpdate unzip r t st) as [outcome st'] eqn:Hd.
    cbn [fst snd]. intros Hres.
    assert (Hi : (Client.downloadUpdate unzip r t st).1 = Client.Installed).
    { rewrite Hd. cbn [fst]. now destruct outcome. }
    destruct (downloadUpdate_Installed unzip r t st Hi)
      as (url & body & v & _ & _ & Ht & Hv & Hh & Hok & Hst).
    rewrite Hd in Hst. cbn [snd] in Hst. subst st' r.
    cbn in Hv, Hh. injection Hv as <-.
    destruct Hh as [Hh|Hh]; [discriminate Hh|]. injection Hh as Hh.
    exists info, body.
    split; [reflexivity|]. split; [exact Hm|]. split; [exact Ht|].
    split; [now symmetry|]. split; [exact Hok|].
    split; [apply getString_insert_eq|reflexivity].
Qed.
